(** * seabird.utils.load_rule: rule discovery and format detection

    A shallow embedding of [load_rule] from [seabird/utils.py] together
    with the parts of the Python runtime it calls: the package resource
    lookup and directory listing (as an explicit world), [json.loads] and
    the [re] module with the [VERBOSE] flag.

    Strings are Python [str] values restricted to the code points 0..255,
    which is what [string] holds.  Wherever the model of a library does not
    cover an input, the outcome is [OutOfModel]: the model says nothing
    about what Python does there.

    The other functions of the module that can be followed are embedded
    after [load_rule]: [make_file_list] over a directory tree,
    [seabird_dir] over the environment of the process, [sampledata] over
    a world that records what it does, and [basic_logger] over the
    loggers that the logging module holds. *)

From Stdlib Require Import String Ascii List Bool Arith NArith Lia.
From Stdlib Require Import Sorting.Sorted Sorting.Permutation.
Import ListNotations.
Local Open Scope string_scope.
Local Open Scope list_scope.

(** ** Outcomes of Python code *)

(** The exceptions that can leave [load_rule]. [CNVError] is
    [seabird.exceptions.CNVError], which carries a [tag]. *)
Inductive exn : Type :=
| CNVError (tag : string)
| ModuleNotFoundError
| FileNotFoundError
| NotADirectoryError
| IsADirectoryError
| PermissionError
| UnicodeDecodeError
| JSONDecodeError
| KeyError (key : string)
| TypeError
| re_error.

Inductive result (A : Type) : Type :=
| Return (a : A)
| Raise (e : exn)
| OutOfModel.

Arguments Return {A} a.
Arguments Raise {A} e.
Arguments OutOfModel {A}.

Definition bind {A B : Type} (m : result A) (f : A -> result B) : result B :=
  match m with
  | Return a => f a
  | Raise e => Raise e
  | OutOfModel => OutOfModel
  end.

Declare Scope py_scope.
Delimit Scope py_scope with py.
Notation "x <- m ;; k" := (bind m (fun x => k))
  (at level 61, m at next level, right associativity) : py_scope.
Notation "' p <- m ;; k" := (bind m (fun x => match x with p => k end))
  (at level 61, p pattern, m at next level, right associativity) : py_scope.
Local Open Scope py_scope.

(** ** Characters and strings *)

Definition ord (c : ascii) : nat := nat_of_ascii c.

Definition in_range (lo hi : nat) (c : ascii) : bool :=
  Nat.leb lo (ord c) && Nat.leb (ord c) hi.

Definition one_of (l : list nat) (c : ascii) : bool :=
  existsb (Nat.eqb (ord c)) l.

(** [str.startswith] and [str.endswith]. *)
Definition startswith (s p : string) : bool := prefix p s.

Definition endswith (s p : string) : bool :=
  Nat.leb (String.length p) (String.length s) &&
  String.eqb (substring (String.length s - String.length p) (String.length p) s) p.

Fixpoint string_rev_onto (s acc : string) : string :=
  match s with
  | EmptyString => acc
  | String c s' => string_rev_onto s' (String c acc)
  end.

Definition string_rev (s : string) : string := string_rev_onto s "".

(** The double quote character, code 34. *)
Definition dquote : ascii := ascii_of_nat 34.

(** File contents are written below with an apostrophe wherever the file
    has a double quote; [text] puts the double quotes back. *)
Fixpoint text (s : string) : string :=
  match s with
  | EmptyString => EmptyString
  | String c s' => String (if Ascii.eqb c "'"%char then dquote else c) (text s')
  end.

(** ** json.loads *)

Module Json.

#[local] Unset Elimination Schemes.

(** A decoded JSON value. A number keeps its literal text: [load_rule]
    never looks at the value of a number. An object is a Python [dict]:
    keys in insertion order, one binding per key. *)
Inductive json : Type :=
| JNull
| JBool (b : bool)
| JNum (lit : string)
| JStr (s : string)
| JArr (l : list json)
| JObj (d : list (string * json)).
#[local] Set Elimination Schemes.

Fixpoint dict_get (d : list (string * json)) (k : string) : option json :=
  match d with
  | [] => None
  | (k', v) :: d' => if String.eqb k' k then Some v else dict_get d' k
  end.

Definition dict_mem (d : list (string * json)) (k : string) : bool :=
  match dict_get d k with Some _ => true | None => false end.

(** [d[k] = v]: a key already present keeps its place and takes [v]. *)
Fixpoint dict_set (d : list (string * json)) (k : string) (v : json)
  : list (string * json) :=
  match d with
  | [] => [(k, v)]
  | (k', v') :: d' =>
      if String.eqb k' k then (k', v) :: d' else (k', v') :: dict_set d' k v
  end.

Definition is_ws (c : ascii) : bool := one_of [32; 9; 10; 13] c.

Fixpoint skip_ws (s : string) : string :=
  match s with
  | String c s' => if is_ws c then skip_ws s' else s
  | EmptyString => s
  end.

Definition is_digit (c : ascii) : bool := in_range 48 57 c.

Definition hex_val (c : ascii) : option nat :=
  if in_range 48 57 c then Some (ord c - 48)
  else if in_range 97 102 c then Some (ord c - 87)
  else if in_range 65 70 c then Some (ord c - 55)
  else None.

(** The body of a string literal, after the opening quote; [acc] holds the
    decoded characters, last first. *)
Fixpoint scanstring (s acc : string) : result (string * string) :=
  match s with
  | EmptyString => Raise JSONDecodeError
  | String c s' =>
      if Ascii.eqb c dquote then Return (string_rev acc, s')
      else if Ascii.eqb c "\"%char then
        match s' with
        | EmptyString => Raise JSONDecodeError
        | String e s'' =>
            let lit (d : nat) := scanstring s'' (String (ascii_of_nat d) acc) in
            if Ascii.eqb e dquote then lit 34
            else if Ascii.eqb e "\"%char then lit 92
            else if Ascii.eqb e "/"%char then lit 47
            else if Ascii.eqb e "b"%char then lit 8
            else if Ascii.eqb e "f"%char then lit 12
            else if Ascii.eqb e "n"%char then lit 10
            else if Ascii.eqb e "r"%char then lit 13
            else if Ascii.eqb e "t"%char then lit 9
            else if Ascii.eqb e "u"%char then
              match s'' with
              | String h1 (String h2 (String h3 (String h4 s4))) =>
                  match hex_val h1, hex_val h2, hex_val h3, hex_val h4 with
                  | Some a, Some b, Some x, Some y =>
                      if Nat.eqb a 0 && Nat.eqb b 0
                      then scanstring s4 (String (ascii_of_nat (16 * x + y)) acc)
                      else OutOfModel
                  | _, _, _, _ => Raise JSONDecodeError
                  end
              | _ => Raise JSONDecodeError
              end
            else Raise JSONDecodeError
        end
      else if Nat.ltb (ord c) 32 then Raise JSONDecodeError
      else scanstring s' (String c acc)
  end.

(** Leading digits of [s] and what follows them. *)
Fixpoint span_digits (s : string) : string * string :=
  match s with
  | String c s' =>
      if is_digit c
      then let '(ds, r) := span_digits s' in (String c ds, r)
      else (EmptyString, s)
  | EmptyString => (EmptyString, EmptyString)
  end.

(** The number at the head of [s]: an optional minus sign, then a zero or
    a run of digits that does not start with zero, then an optional
    fraction (a dot and digits), then an optional exponent (e or E, an
    optional sign, digits). The flag tells whether the literal is an
    integer. *)
Definition match_number (s : string) : option (string * bool * string) :=
  let '(sign, s1) :=
    match s with
    | String "-" r => ("-", r)
    | _ => ("", s)
    end in
  let int_part :=
    match s1 with
    | String "0" r => Some ("0", r)
    | _ => match span_digits s1 with
           | (EmptyString, _) => None
           | (ds, r) => Some (ds, r)
           end
    end in
  match int_part with
  | None => None
  | Some (ip, s2) =>
      let '(fp, s3) :=
        match s2 with
        | String "." r =>
            match span_digits r with
            | (EmptyString, _) => ("", s2)
            | (ds, r') => (String "." ds, r')
            end
        | _ => ("", s2)
        end in
      let exp_digits (mark : string) (r : string) :=
        match span_digits r with
        | (EmptyString, _) => ("", s3)
        | (ds, r') => ((mark ++ ds)%string, r')
        end in
      let '(ep, s4) :=
        match s3 with
        | String "e" (String "-" r) => exp_digits "e-" r
        | String "e" (String "+" r) => exp_digits "e+" r
        | String "e" r => exp_digits "e" r
        | String "E" (String "-" r) => exp_digits "E-" r
        | String "E" (String "+" r) => exp_digits "E+" r
        | String "E" r => exp_digits "E" r
        | _ => ("", s3)
        end in
      Some ((sign ++ ip ++ fp ++ ep)%string,
            String.eqb fp "" && String.eqb ep "", s4)
  end.

(** [s] without the literal [lit] at its head. *)
Definition strip (lit s : string) : option string :=
  if prefix lit s then Some (substring (String.length lit) (String.length s - String.length lit) s)
  else None.

(** The integer-to-string conversion limit of CPython 3.11 and later. *)
Definition max_int_digits : nat := 4300.

(** Nesting that the decoder follows before the model gives up (CPython
    raises RecursionError at a depth that depends on the caller). *)
Definition max_depth : nat := 100.

(** [scan_once]: the value at the head of [s] and the rest of [s]. *)
Fixpoint scan_once (fuel depth : nat) (s : string) {struct fuel}
  : result (json * string) :=
  match fuel, depth with
  | 0, _ | _, 0 => OutOfModel
  | S fuel', S depth' =>
      match s with
      | EmptyString => Raise JSONDecodeError
      | String c s' =>
          if Ascii.eqb c dquote then
            '(str, r) <- scanstring s' "" ;; Return (JStr str, r)
          else if Ascii.eqb c "{"%char then
            match skip_ws s' with
            | String "}" r => Return (JObj [], r)
            | s1 => scan_members fuel' depth' s1 []
            end
          else if Ascii.eqb c "["%char then
            match skip_ws s' with
            | String "]" r => Return (JArr [], r)
            | s1 => scan_elements fuel' depth' s1 []
            end
          else
            match strip "null" s, strip "true" s, strip "false" s with
            | Some r, _, _ => Return (JNull, r)
            | _, Some r, _ => Return (JBool true, r)
            | _, _, Some r => Return (JBool false, r)
            | _, _, _ =>
                match match_number s with
                | Some (lit, is_int, r) =>
                    if is_int && Nat.ltb max_int_digits (String.length lit)
                    then OutOfModel
                    else Return (JNum lit, r)
                | None =>
                    if prefix "NaN" s || prefix "Infinity" s
                       || prefix "-Infinity" s
                    then OutOfModel
                    else Raise JSONDecodeError
                end
            end
      end
  end

(** The members of an object from a key on; [d] holds those read so far. *)
with scan_members (fuel depth : nat) (s : string) (d : list (string * json))
  {struct fuel} : result (json * string) :=
  match fuel with
  | 0 => OutOfModel
  | S fuel' =>
      match s with
      | String c s1 =>
          if Ascii.eqb c dquote then
            '(key, s2) <- scanstring s1 "" ;;
            match skip_ws s2 with
            | String ":" s3 =>
                '(v, s4) <- scan_once fuel' depth (skip_ws s3) ;;
                let d' := dict_set d key v in
                match skip_ws s4 with
                | String "}" r => Return (JObj d', r)
                | String "," s5 => scan_members fuel' depth (skip_ws s5) d'
                | _ => Raise JSONDecodeError
                end
            | _ => Raise JSONDecodeError
            end
          else Raise JSONDecodeError
      | EmptyString => Raise JSONDecodeError
      end
  end

(** The elements of an array; [l] holds those read so far, last first. *)
with scan_elements (fuel depth : nat) (s : string) (l : list json)
  {struct fuel} : result (json * string) :=
  match fuel with
  | 0 => OutOfModel
  | S fuel' =>
      '(v, s1) <- scan_once fuel' depth s ;;
      match skip_ws s1 with
      | String "]" r => Return (JArr (rev (v :: l)), r)
      | String "," s2 => scan_elements fuel' depth (skip_ws s2) (v :: l)
      | _ => Raise JSONDecodeError
      end
  end.

(** [json.loads(s)] for a [str] argument. *)
Definition loads (s : string) : result json :=
  '(v, r) <- scan_once (2 * String.length s + 2) max_depth (skip_ws s) ;;
  match skip_ws r with
  | EmptyString => Return v
  | _ => Raise JSONDecodeError
  end.

End Json.
Import Json.

(** ** The re module, with the VERBOSE flag *)

Module Re.

(** Character categories of the escapes \d \s \w (for [str] patterns, on
    the code points 0..255) and their complements \D \S \W. *)
Inductive category : Type := Digit | Space | Word.

Definition in_category (k : category) (c : ascii) : bool :=
  match k with
  | Digit => in_range 48 57 c
  | Space => in_range 9 13 c || in_range 28 32 c || one_of [133; 160] c
  | Word =>
      in_range 48 57 c || in_range 65 90 c || in_range 97 122 c
      || one_of [95; 170; 178; 179; 181; 185; 186; 188; 189; 190] c
      || in_range 192 214 c || in_range 216 246 c || in_range 248 255 c
  end.

(** A member of a character set. *)
Inductive citem : Type :=
| CLit (c : ascii)
| CRange (lo hi : ascii)
| CCat (k : category) (neg : bool).

Definition in_citem (c : ascii) (it : citem) : bool :=
  match it with
  | CLit a => Ascii.eqb a c
  | CRange lo hi => in_range (ord lo) (ord hi) c
  | CCat k neg => xorb neg (in_category k c)
  end.

Inductive gkind : Type :=
| NonCapturing
| Capturing (name : option string).

(** A parsed pattern. [Star], [Plus] and [Opt] are the greedy repeats,
    [LazyStar], [LazyPlus] and [LazyOpt] the repeats that take as little
    as they can; [Sub] is a parenthesised subpattern. *)
Inductive regex : Type :=
| Empty
| Char (c : ascii)
| Dot
| CharSet (neg : bool) (items : list citem)
| Bol
| Eol
| Seq (r1 r2 : regex)
| Alt (r1 r2 : regex)
| Star (r : regex)
| Plus (r : regex)
| Opt (r : regex)
| LazyStar (r : regex)
| LazyPlus (r : regex)
| LazyOpt (r : regex)
| Sub (g : gkind) (r : regex).

(** *** Parsing *)

(** The characters skipped in verbose mode. *)
Definition is_whitespace (c : ascii) : bool := in_range 9 13 c || one_of [32] c.

Definition is_ascii_letter (c : ascii) : bool :=
  in_range 65 90 c || in_range 97 122 c.

(** What follows a comment: the text after the next newline. The pattern
    is read in tokens, a backslash making one token with the character
    after it: an escaped newline does not end the comment, and a backslash
    that ends the pattern is an error in a comment too. *)
Fixpoint skip_comment (s : string) : result string :=
  match s with
  | EmptyString => Return EmptyString
  | String c s' =>
      if Ascii.eqb c (ascii_of_nat 10) then Return s'
      else if Ascii.eqb c "\" then
        match s' with
        | EmptyString => Raise re_error
        | String _ s'' => skip_comment s''
        end
      else skip_comment s'
  end.

(** The escapes that stand for one character. *)
Definition escape_char (e : ascii) : option ascii :=
  if Ascii.eqb e "a" then Some (ascii_of_nat 7)
  else if Ascii.eqb e "f" then Some (ascii_of_nat 12)
  else if Ascii.eqb e "n" then Some (ascii_of_nat 10)
  else if Ascii.eqb e "r" then Some (ascii_of_nat 13)
  else if Ascii.eqb e "t" then Some (ascii_of_nat 9)
  else if Ascii.eqb e "v" then Some (ascii_of_nat 11)
  else None.

Definition escape_category (e : ascii) : option citem :=
  if Ascii.eqb e "d" then Some (CCat Digit false)
  else if Ascii.eqb e "D" then Some (CCat Digit true)
  else if Ascii.eqb e "s" then Some (CCat Space false)
  else if Ascii.eqb e "S" then Some (CCat Space true)
  else if Ascii.eqb e "w" then Some (CCat Word false)
  else if Ascii.eqb e "W" then Some (CCat Word true)
  else None.

(** The escape \e inside a character set. *)
Definition class_escape (e : ascii) : result citem :=
  match escape_category e, escape_char e with
  | Some it, _ => Return it
  | None, Some c => Return (CLit c)
  | None, None =>
      if Ascii.eqb e "b" then Return (CLit (ascii_of_nat 8))
      else if one_of [120; 117; 85; 78] e || in_range 48 57 e then OutOfModel
      else if is_ascii_letter e then Raise re_error
      else Return (CLit e)
  end.

(** The escape \e outside a character set. *)
Definition escape (e : ascii) : result regex :=
  match escape_category e, escape_char e with
  | Some it, _ => Return (CharSet false [it])
  | None, Some c => Return (Char c)
  | None, None =>
      if one_of [65; 98; 66; 90] e then OutOfModel
      else if one_of [120; 117; 85; 78] e || in_range 48 57 e then OutOfModel
      else if is_ascii_letter e then Raise re_error
      else Return (Char e)
  end.

(** One member of a character set at the head of [s], given its first
    character [c] and what follows it. *)
Definition set_member (c : ascii) (s : string) : result (citem * string) :=
  if Ascii.eqb c "\" then
    match s with
    | EmptyString => Raise re_error
    | String e s' => it <- class_escape e ;; Return (it, s')
    end
  else Return (CLit c, s).

(** The members of a character set, after the opening bracket and the
    optional caret, up to the closing bracket; [acc] holds the members read
    so far, last first. *)
Fixpoint parse_set (fuel : nat) (s : string) (acc : list citem)
  : result (list citem * string) :=
  match fuel with
  | 0 => OutOfModel
  | S fuel' =>
      match s with
      | EmptyString => Raise re_error
      | String c s1 =>
          if Ascii.eqb c "]" && negb (match acc with [] => true | _ => false end)
          then Return (rev acc, s1)
          else
            '(code1, s2) <- set_member c s1 ;;
            match s2 with
            | String c2 s3 =>
                if Ascii.eqb c2 "-" then
                  match s3 with
                  | EmptyString => Raise re_error
                  | String that s4 =>
                      if Ascii.eqb that "]"
                      then Return (rev (CLit "-" :: code1 :: acc), s4)
                      else
                        '(code2, s5) <- set_member that s4 ;;
                        match code1, code2 with
                        | CLit lo, CLit hi =>
                            if Nat.ltb (ord hi) (ord lo) then Raise re_error
                            else parse_set fuel' s5 (CRange lo hi :: acc)
                        | _, _ => Raise re_error
                        end
                  end
                else parse_set fuel' s2 (code1 :: acc)
            | EmptyString => parse_set fuel' s2 (code1 :: acc)
            end
      end
  end.

(** The name of a named group, up to the closing angle bracket. *)
Fixpoint getuntil_gt (s acc : string) : result (string * string) :=
  match s with
  | EmptyString => Raise re_error
  | String c s' =>
      if Ascii.eqb c ">" then
        match acc with
        | EmptyString => Raise re_error
        | _ => Return (string_rev acc, s')
        end
      else getuntil_gt s' (String c acc)
  end.

Fixpoint string_forallb (f : ascii -> bool) (s : string) : bool :=
  match s with
  | EmptyString => true
  | String c s' => f c && string_forallb f s'
  end.

(** [str.isidentifier] on a name of ASCII characters. *)
Definition isidentifier (name : string) : bool :=
  match name with
  | EmptyString => false
  | String c s' =>
      (is_ascii_letter c || Ascii.eqb c "_")
      && string_forallb
           (fun x => is_ascii_letter x || in_range 48 57 x || Ascii.eqb x "_") s'
  end.

Definition is_ascii (name : string) : bool :=
  string_forallb (fun x => Nat.ltb (ord x) 128) name.

(** The items of a sequence, in order, as one pattern. *)
Fixpoint seq_of (items : list regex) : regex :=
  match items with
  | [] => Empty
  | [r] => r
  | r :: rs => Seq r (seq_of rs)
  end.

Definition is_at (r : regex) : bool :=
  match r with Bol | Eol => true | _ => false end.

Definition is_repeat (r : regex) : bool :=
  match r with
  | Star _ | Plus _ | Opt _ | LazyStar _ | LazyPlus _ | LazyOpt _ => true
  | _ => false
  end.

(** A repeat applies to the inside of a non-capturing group. *)
Definition repeat_body (r : regex) : regex :=
  match r with Sub NonCapturing p => p | _ => r end.

Definition mk_repeat (c : ascii) (lazy : bool) (r : regex) : regex :=
  if Ascii.eqb c "*" then (if lazy then LazyStar r else Star r)
  else if Ascii.eqb c "+" then (if lazy then LazyPlus r else Plus r)
  else (if lazy then LazyOpt r else Opt r).

Definition expect_close (s : string) : result string :=
  match s with
  | String c s' => if Ascii.eqb c ")" then Return s' else Raise re_error
  | EmptyString => Raise re_error
  end.

(** What an opening parenthesis opens, with the text after the opening:
    a non-capturing group, a named group (from its name on), a plain
    group, nothing when the pattern ends after the question mark, or an
    extension that the model does not follow. *)
Inductive opening : Type :=
| OpenNonCapturing (s : string)
| OpenNamed (s : string)
| OpenCapturing (s : string)
| OpenNothing
| OpenExtension.

Definition opening_of (s : string) : opening :=
  match s with
  | String c1 s1 =>
      if Ascii.eqb c1 "?" then
        match s1 with
        | EmptyString => OpenNothing
        | String c2 s2 =>
            if Ascii.eqb c2 ":" then OpenNonCapturing s2
            else if Ascii.eqb c2 "P" then
              match s2 with
              | String c3 s3 =>
                  if Ascii.eqb c3 "<" then OpenNamed s3 else OpenExtension
              | EmptyString => OpenExtension
              end
            else OpenExtension
        end
      else OpenCapturing s
  | EmptyString => OpenCapturing s
  end.

(** The opening of a character set: whether it is negated, and its
    members. *)
Definition set_opening (s : string) : bool * string :=
  match s with
  | String c s' => if Ascii.eqb c "^" then (true, s') else (false, s)
  | EmptyString => (false, s)
  end.

(** What follows a repeat: a question mark makes it lazy, a plus sign
    makes it possessive, which the model does not follow. *)
Inductive repeat_mark : Type :=
| Greedy (s : string)
| Lazy (s : string)
| Possessive.

Definition repeat_mark_of (s : string) : repeat_mark :=
  match s with
  | String c s' =>
      if Ascii.eqb c "?" then Lazy s'
      else if Ascii.eqb c "+" then Possessive
      else Greedy s
  | EmptyString => Greedy s
  end.

(** [parse_items] reads the items of one alternative up to a bar, a closing
    parenthesis or the end of the pattern; [acc] holds the items read so
    far, last first. [parse_sub] reads alternatives separated by bars. *)
Fixpoint parse_items (fuel : nat) (s : string) (acc : list regex) {struct fuel}
  : result (list regex * string) :=
  match fuel with
  | 0 => OutOfModel
  | S fuel' =>
      match s with
      | EmptyString => Return (rev acc, s)
      | String c s1 =>
          if Ascii.eqb c "|" || Ascii.eqb c ")" then Return (rev acc, s)
          else if is_whitespace c then parse_items fuel' s1 acc
          else if Ascii.eqb c "#" then
            s2 <- skip_comment s1 ;; parse_items fuel' s2 acc
          else if Ascii.eqb c "\" then
            match s1 with
            | EmptyString => Raise re_error
            | String e s2 => r <- escape e ;; parse_items fuel' s2 (r :: acc)
            end
          else if Ascii.eqb c "[" then
            let '(neg, s2) := set_opening s1 in
            '(items, s3) <- parse_set (S (String.length s2)) s2 [] ;;
            parse_items fuel' s3 (CharSet neg items :: acc)
          else if Ascii.eqb c "*" || Ascii.eqb c "+" || Ascii.eqb c "?" then
            match acc with
            | [] => Raise re_error
            | item :: acc' =>
                if is_at item then Raise re_error
                else if is_repeat item then Raise re_error
                else
                  match repeat_mark_of s1 with
                  | Greedy s2 =>
                      parse_items fuel' s2
                        (mk_repeat c false (repeat_body item) :: acc')
                  | Lazy s2 =>
                      parse_items fuel' s2
                        (mk_repeat c true (repeat_body item) :: acc')
                  | Possessive => OutOfModel
                  end
            end
          else if Ascii.eqb c "{" then OutOfModel
          else if Ascii.eqb c "." then parse_items fuel' s1 (Dot :: acc)
          else if Ascii.eqb c "^" then parse_items fuel' s1 (Bol :: acc)
          else if Ascii.eqb c "$" then parse_items fuel' s1 (Eol :: acc)
          else if Ascii.eqb c "(" then
            match opening_of s1 with
            | OpenNonCapturing s2 =>
                '(p, s3) <- parse_sub fuel' s2 ;;
                s4 <- expect_close s3 ;;
                parse_items fuel' s4 (Sub NonCapturing p :: acc)
            | OpenNamed s2 =>
                '(name, s3) <- getuntil_gt s2 "" ;;
                if negb (is_ascii name) then OutOfModel
                else if negb (isidentifier name) then Raise re_error
                else
                  '(p, s4) <- parse_sub fuel' s3 ;;
                  s5 <- expect_close s4 ;;
                  parse_items fuel' s5 (Sub (Capturing (Some name)) p :: acc)
            | OpenCapturing s2 =>
                '(p, s3) <- parse_sub fuel' s2 ;;
                s4 <- expect_close s3 ;;
                parse_items fuel' s4 (Sub (Capturing None) p :: acc)
            | OpenNothing => Raise re_error
            | OpenExtension => OutOfModel
            end
          else parse_items fuel' s1 (Char c :: acc)
      end
  end

with parse_sub (fuel : nat) (s : string) {struct fuel}
  : result (regex * string) :=
  match fuel with
  | 0 => OutOfModel
  | S fuel' =>
      '(items, s1) <- parse_items fuel' s [] ;;
      match s1 with
      | String c s2 =>
          if Ascii.eqb c "|" then
            '(r2, s3) <- parse_sub fuel' s2 ;;
            Return (Alt (seq_of items) r2, s3)
          else Return (seq_of items, s1)
      | EmptyString => Return (seq_of items, s1)
      end
  end.

(** The names of the named groups of a pattern, in the order in which the
    groups open. *)
Fixpoint gnames (r : regex) : list string :=
  match r with
  | Seq r1 r2 | Alt r1 r2 => gnames r1 ++ gnames r2
  | Star r' | Plus r' | Opt r' => gnames r'
  | LazyStar r' | LazyPlus r' | LazyOpt r' => gnames r'
  | Sub (Capturing (Some n)) r' => n :: gnames r'
  | Sub _ r' => gnames r'
  | _ => []
  end.

Fixpoint nodupb (l : list string) : bool :=
  match l with
  | [] => true
  | x :: l' => negb (existsb (String.eqb x) l') && nodupb l'
  end.

(** Whether a pattern can match the empty string. *)
Fixpoint nullable (r : regex) : bool :=
  match r with
  | Empty | Bol | Eol => true
  | Char _ | Dot | CharSet _ _ => false
  | Seq r1 r2 => nullable r1 && nullable r2
  | Alt r1 r2 => nullable r1 || nullable r2
  | Star _ | Opt _ | LazyStar _ | LazyOpt _ => true
  | Plus r' | LazyPlus r' => nullable r'
  | Sub _ r' => nullable r'
  end.

(** The patterns the matcher below follows Python on: those that repeat
    only subpatterns that consume at least one character. *)
Fixpoint modelled (r : regex) : bool :=
  match r with
  | Seq r1 r2 | Alt r1 r2 => modelled r1 && modelled r2
  | Star r' | Plus r' | Opt r' | LazyStar r' | LazyPlus r' | LazyOpt r' =>
      negb (nullable r') && modelled r'
  | Sub _ r' => modelled r'
  | _ => true
  end.

(** The opening parentheses of a pattern, which bound the nesting of
    its groups, and the number of them that the model follows: CPython
    reads and compiles a group inside a group by recursion, and raises
    RecursionError at a depth that depends on the caller. *)
Fixpoint count_open (s : string) : nat :=
  match s with
  | EmptyString => 0
  | String c s' => (if Ascii.eqb c "(" then 1 else 0) + count_open s'
  end.

Definition max_groups : nat := 100.

(** [re.compile(pattern, re.VERBOSE)] for a [str] pattern. Text left after
    the last alternative is an unbalanced parenthesis; a group name
    defined twice is an error. *)
Definition compile (pattern : string) : result regex :=
  if Nat.ltb max_groups (count_open pattern) then OutOfModel
  else
    '(r, rest) <- parse_sub (2 * String.length pattern + 4) pattern ;;
    match rest with
    | EmptyString =>
        if negb (nodupb (gnames r)) then Raise re_error
        else if negb (modelled r) then OutOfModel
        else Return r
    | _ => Raise re_error
    end.

(** *** Matching *)

(** The span of each named group that has matched, latest first. *)
Definition caps : Type := list (string * (nat * nat)).

Fixpoint lookup (n : string) (c : caps) : option (nat * nat) :=
  match c with
  | [] => None
  | (n', sp) :: c' => if String.eqb n' n then Some sp else lookup n c'
  end.

(** The position after the last character, or before a final newline. *)
Definition at_end (s : string) (i : nat) : bool :=
  Nat.eqb i (String.length s)
  || (Nat.eqb (S i) (String.length s)
      && match get i s with
         | Some c => Ascii.eqb c (ascii_of_nat 10)
         | None => false
         end).

Section Matcher.

Variable A : Type.
Variable s : string.

(** A matcher takes a position, the groups matched so far and what to do
    after it has matched; it tries its ways to match in the order of a
    backtracking search and answers with the first one on which the
    continuation succeeds. *)
Definition matcher : Type := nat -> caps -> (nat -> caps -> option A) -> option A.

(** A greedy repetition of [mr], zero or more times. *)
Fixpoint iterate (mr : matcher) (fuel : nat) (i : nat) (c : caps)
  (k : nat -> caps -> option A) : option A :=
  match fuel with
  | 0 => k i c
  | S fuel' =>
      match mr i c (fun j c' =>
                      if Nat.ltb i j then iterate mr fuel' j c' k else None) with
      | Some x => Some x
      | None => k i c
      end
  end.

(** A lazy repetition of [mr]: what follows is tried first. *)
Fixpoint iterate_lazy (mr : matcher) (fuel : nat) (i : nat) (c : caps)
  (k : nat -> caps -> option A) : option A :=
  match fuel with
  | 0 => k i c
  | S fuel' =>
      match k i c with
      | Some x => Some x
      | None =>
          mr i c (fun j c' =>
                    if Nat.ltb i j then iterate_lazy mr fuel' j c' k else None)
      end
  end.

Definition one_char (p : ascii -> bool) : matcher :=
  fun i c k =>
    match get i s with
    | Some b => if p b then k (S i) c else None
    | None => None
    end.

Fixpoint m (r : regex) : matcher :=
  match r with
  | Empty => fun i c k => k i c
  | Char a => one_char (Ascii.eqb a)
  | Dot => one_char (fun b => negb (Ascii.eqb b (ascii_of_nat 10)))
  | CharSet neg items =>
      one_char (fun b => xorb neg (existsb (in_citem b) items))
  | Bol => fun i c k => if Nat.eqb i 0 then k i c else None
  | Eol => fun i c k => if at_end s i then k i c else None
  | Seq r1 r2 => fun i c k => m r1 i c (fun j c' => m r2 j c' k)
  | Alt r1 r2 =>
      fun i c k =>
        match m r1 i c k with
        | Some x => Some x
        | None => m r2 i c k
        end
  | Star r' => fun i c k => iterate (m r') (S (String.length s - i)) i c k
  | Plus r' =>
      fun i c k =>
        m r' i c (fun j c' => iterate (m r') (S (String.length s - j)) j c' k)
  | Opt r' =>
      fun i c k =>
        match m r' i c k with
        | Some x => Some x
        | None => k i c
        end
  | LazyStar r' =>
      fun i c k => iterate_lazy (m r') (S (String.length s - i)) i c k
  | LazyPlus r' =>
      fun i c k =>
        m r' i c
          (fun j c' => iterate_lazy (m r') (S (String.length s - j)) j c' k)
  | LazyOpt r' =>
      fun i c k =>
        match k i c with
        | Some x => Some x
        | None => m r' i c k
        end
  | Sub (Capturing (Some n)) r' =>
      fun i c k => m r' i c (fun j c' => k j ((n, (i, j)) :: c'))
  | Sub _ r' => m r'
  end.

End Matcher.

(** A match object: the span of the whole match and of the named groups. *)
Record Match : Type := mkMatch {
  m_start : nat;
  m_end : nat;
  m_caps : caps
}.

(** The match that starts at position [i], if there is one. *)
Definition match_at (r : regex) (s : string) (i : nat) : option Match :=
  m Match s r i [] (fun j c => Some (mkMatch i j c)).

Fixpoint search_from (r : regex) (s : string) (n i : nat) : option Match :=
  match match_at r s i with
  | Some mt => Some mt
  | None =>
      match n with
      | 0 => None
      | S n' => search_from r s n' (S i)
      end
  end.

(** [pattern.search(s)]: the match at the first position that has one. *)
Definition search (r : regex) (s : string) : option Match :=
  search_from r s (String.length s) 0.

(** [match.group(0)]. *)
Definition group0 (s : string) (mt : Match) : string :=
  substring (m_start mt) (m_end mt - m_start mt) s.

(** [match.groupdict()]: each named group of the pattern with the text it
    matched, or [None] for a group that took no part in the match. *)
Definition groupdict (r : regex) (s : string) (mt : Match)
  : list (string * option string) :=
  map (fun n =>
         (n, option_map (fun '(a, b) => substring a (b - a) s)
                        (lookup n (m_caps mt))))
      (gnames r).

(** *** What a match is *)

(** [matches s r i c j c']: the pattern [r] can match the text of [s] from
    position [i] to position [j], taking the groups from [c] to [c']. The
    matcher picks one of these ways; the relation has them all, and so a
    lazy repeat has the matches of the greedy one. *)
Inductive matches (s : string) : regex -> nat -> caps -> nat -> caps -> Prop :=
| M_Empty i c : matches s Empty i c i c
| M_Char a i c :
    get i s = Some a -> matches s (Char a) i c (S i) c
| M_Dot b i c :
    get i s = Some b -> Ascii.eqb b (ascii_of_nat 10) = false ->
    matches s Dot i c (S i) c
| M_CharSet neg items b i c :
    get i s = Some b -> xorb neg (existsb (in_citem b) items) = true ->
    matches s (CharSet neg items) i c (S i) c
| M_Bol c : matches s Bol 0 c 0 c
| M_Eol i c : at_end s i = true -> matches s Eol i c i c
| M_Seq r1 r2 i c j c1 j' c' :
    matches s r1 i c j c1 -> matches s r2 j c1 j' c' ->
    matches s (Seq r1 r2) i c j' c'
| M_Alt_l r1 r2 i c j c' :
    matches s r1 i c j c' -> matches s (Alt r1 r2) i c j c'
| M_Alt_r r1 r2 i c j c' :
    matches s r2 i c j c' -> matches s (Alt r1 r2) i c j c'
| M_Star_done r i c : matches s (Star r) i c i c
| M_Star_more r i c j c1 j' c' :
    matches s r i c j c1 -> i < j -> matches s (Star r) j c1 j' c' ->
    matches s (Star r) i c j' c'
| M_Plus r i c j c1 j' c' :
    matches s r i c j c1 -> matches s (Star r) j c1 j' c' ->
    matches s (Plus r) i c j' c'
| M_Opt_some r i c j c' :
    matches s r i c j c' -> matches s (Opt r) i c j c'
| M_Opt_none r i c : matches s (Opt r) i c i c
| M_LazyStar r i c j c' :
    matches s (Star r) i c j c' -> matches s (LazyStar r) i c j c'
| M_LazyPlus r i c j c' :
    matches s (Plus r) i c j c' -> matches s (LazyPlus r) i c j c'
| M_LazyOpt r i c j c' :
    matches s (Opt r) i c j c' -> matches s (LazyOpt r) i c j c'
| M_Sub_named n r i c j c' :
    matches s r i c j c' ->
    matches s (Sub (Capturing (Some n)) r) i c j ((n, (i, j)) :: c')
| M_Sub_unnamed r i c j c' :
    matches s r i c j c' -> matches s (Sub (Capturing None) r) i c j c'
| M_Sub_plain r i c j c' :
    matches s r i c j c' -> matches s (Sub NonCapturing r) i c j c'.

(** A matcher is sound for a pattern when each of its answers is the
    continuation's answer after one of the pattern's matches. *)
Definition sound_for (A : Type) (s : string) (r : regex) (mr : matcher A)
  : Prop :=
  forall i c k x,
    mr i c k = Some x ->
    exists j c', matches s r i c j c' /\ k j c' = Some x.

(** A span recorded between [lo] and [hi] for a group named in [names]. *)
Definition recorded (names : list string) (lo hi : nat)
  (e : string * (nat * nat)) : Prop :=
  In (fst e) names /\ lo <= fst (snd e) /\ fst (snd e) <= snd (snd e)
  /\ snd (snd e) <= hi.

End Re.

(** ** The rule storage *)

(** An entry of the rules directory: its name and what
    [read_text(encoding="utf-8")] gives on it. *)
Record Path : Type := mkPath {
  name : string;
  read_text : result string
}.

(** The object that [resources.files("seabird").joinpath("rules")] gives:
    listing it gives its entries or fails. *)
Record Traversable : Type := mkTraversable {
  iterdir : result (list Path)
}.

(** ** load_rule *)

(** The filter of the generator expression. *)
Definition is_rule_file (p : Path) : bool :=
  startswith (name p) "cnv" && endswith (name p) ".json".

(** [sorted] on paths of one directory: ascending by name, code point by
    code point, entries that compare equal staying in their order. *)
Fixpoint insert_sorted (p : Path) (l : list Path) : list Path :=
  match l with
  | [] => [p]
  | q :: l' =>
      if String.ltb (name q) (name p) then q :: insert_sorted p l'
      else p :: l
  end.

Fixpoint sorted (l : list Path) : list Path :=
  match l with
  | [] => []
  | p :: l' => insert_sorted p (sorted l')
  end.

Definition rule_files (entries : list Path) : list Path :=
  sorted (filter is_rule_file entries).

(** The order on names that the rule order is claimed to follow: by the
    first character in which two names differ, compared by code point, a
    proper prefix coming first. *)
Inductive lex_le : string -> string -> Prop :=
| lex_le_empty t : lex_le EmptyString t
| lex_le_head a s b t : ord a < ord b -> lex_le (String a s) (String b t)
| lex_le_tail a s t : lex_le s t -> lex_le (String a s) (String a t).

(** What the operands of [+] are, as far as [load_rule] can tell them
    apart: a string with its text, or the kind of any other value. *)
Inductive operand : Type :=
| OStr (s : string)
| ONumber
| OList
| ONone
| ODict.

Definition operand_of (v : json) : operand :=
  match v with
  | JStr s => OStr s
  | JNum _ | JBool _ => ONumber
  | JArr _ => OList
  | JNull => ONone
  | JObj _ => ODict
  end.

(** [a + b]. Sums of numbers are not followed. *)
Definition py_add (a b : operand) : result operand :=
  match a, b with
  | OStr x, OStr y => Return (OStr (x ++ y))
  | OList, OList => Return OList
  | ONumber, ONumber => OutOfModel
  | _, _ => Raise TypeError
  end.

(** [d[k]]. *)
Definition getitem (d : list (string * json)) (k : string) : result json :=
  match dict_get d k with
  | Some v => Return v
  | None => Raise (KeyError k)
  end.

(** The expression that builds the parsing regex, its operands evaluated
    from left to right. On a value that is not a dict, either ["sep" in
    rule] or [rule["header"]] raises TypeError. *)
Definition build_regex (rule : json) : result operand :=
  match rule with
  | JObj d =>
      if dict_mem d "sep" then
        h <- getitem d "header" ;;
        sp <- getitem d "sep" ;;
        hs <- py_add (operand_of h) (operand_of sp) ;;
        dt <- getitem d "data" ;;
        py_add hs (operand_of dt)
      else
        h <- getitem d "header" ;;
        a <- py_add (OStr "(?P<header>") (operand_of h) ;;
        b <- py_add a (OStr ")(?P<data>(?:") ;;
        dt <- getitem d "data" ;;
        c <- py_add b (operand_of dt) ;;
        py_add c (OStr ")+)")
  | _ => Raise TypeError
  end.

(** [re.compile(regex, re.VERBOSE)]. *)
Definition re_compile (regex : operand) : result Re.regex :=
  match regex with
  | OStr pattern => Re.compile pattern
  | _ => Raise TypeError
  end.

(** What [load_rule] returns: the decoded rule and the group dict. *)
Definition detection : Type := json * list (string * option string).

(** The body of the loop for one rule file: [Some] when the rule matches
    and the function returns, [None] when the loop goes on. *)
Definition try_rule (raw_text : string) (rule_path : Path)
  : result (option detection) :=
  content <- read_text rule_path ;;
  rule <- loads content ;;
  regex <- build_regex rule ;;
  content_re <- re_compile regex ;;
  match Re.search content_re raw_text with
  | Some mt => Return (Some (rule, Re.groupdict content_re raw_text mt))
  | None => Return None
  end.

(** The loop over the rule files, and the statement after it. *)
Fixpoint for_rule_path (raw_text : string) (paths : list Path)
  : result detection :=
  match paths with
  | [] => Raise (CNVError "noparsingrule")
  | rule_path :: rest =>
      found <- try_rule raw_text rule_path ;;
      match found with
      | Some d => Return d
      | None => for_rule_path raw_text rest
      end
  end.

(** [load_rule(raw_text)], in a world where
    [resources.files("seabird").joinpath("rules")] gives [rules_root]. *)
Definition load_rule (rules_root : result Traversable) (raw_text : string)
  : result detection :=
  match rules_root with
  | Raise ModuleNotFoundError | Raise FileNotFoundError =>
      Raise (CNVError "noparsingrule")
  | Raise e => Raise e
  | OutOfModel => OutOfModel
  | Return root =>
      entries <- iterdir root ;;
      for_rule_path raw_text (rule_files entries)
  end.

(** A rule file on which the loop goes on to the next one. *)
Definition no_match (raw_text : string) (p : Path) : Prop :=
  try_rule raw_text p = Return None.

(** A record that [load_rule] cannot take a grammar from, with the
    exception it meets: text that is not JSON, an object without header,
    or an object without data whose other patterns are texts. *)
Inductive malformed (content : string) : exn -> Prop :=
| malformed_json :
    loads content = Raise JSONDecodeError ->
    malformed content JSONDecodeError
| malformed_no_header d :
    loads content = Return (JObj d) ->
    dict_get d "header" = None ->
    malformed content (KeyError "header")
| malformed_no_data d h :
    loads content = Return (JObj d) ->
    dict_get d "header" = Some (JStr h) ->
    (dict_get d "sep" = None \/ exists sp, dict_get d "sep" = Some (JStr sp)) ->
    dict_get d "data" = None ->
    malformed content (KeyError "data").

(** The order of two entries by their names. *)
Definition name_le (p q : Path) : Prop := lex_le (name p) (name q).

(** The grammar of a decoded rule: the regex built from it, compiled. *)
Definition compiled (rule : json) : result Re.regex :=
  regex <- build_regex rule ;;
  re_compile regex.

(** [gd[n]] on a group dict: absent, or present with a text or [None]. *)
Fixpoint gd_get (n : string) (gd : list (string * option string))
  : option (option string) :=
  match gd with
  | [] => None
  | (n', v) :: gd' => if String.eqb n' n then Some v else gd_get n gd'
  end.

(** The grammar that is a group named header followed by a group named
    data. *)
Definition header_then_data (rh rd : Re.regex) : Re.regex :=
  Re.Seq (Re.Sub (Re.Capturing (Some "header")) rh)
         (Re.Sub (Re.Capturing (Some "data")) rd).

(** The grammar of a rule without separator, from its two patterns. *)
Definition two_groups (h dt : string) : string :=
  "(?P<header>" ++ h ++ ")(?P<data>(?:" ++ dt ++ ")+)".

(** A pattern that is complete on its own: followed by a closing
    parenthesis, it parses up to that parenthesis, as [r]. This leaves out
    a pattern that closes a group it did not open, that leaves a group or a
    character set open, or that ends in a comment or in a backslash, which
    would take the parenthesis in. *)
Definition self_contained (pat : string) (r : Re.regex) : Prop :=
  Re.parse_sub (2 * String.length pat + 6) (pat ++ ")") = Return (r, ")").

(** The named groups of a pattern, each with the pattern inside it, in
    the order in which the groups open. *)
Fixpoint named_groups (r : Re.regex) : list (string * Re.regex) :=
  match r with
  | Re.Seq r1 r2 | Re.Alt r1 r2 => named_groups r1 ++ named_groups r2
  | Re.Star r' | Re.Plus r' | Re.Opt r' => named_groups r'
  | Re.LazyStar r' | Re.LazyPlus r' | Re.LazyOpt r' => named_groups r'
  | Re.Sub (Re.Capturing (Some n)) r' => (n, r') :: named_groups r'
  | Re.Sub _ r' => named_groups r'
  | _ => []
  end.

(** A span recorded under a name is a capture of one of the groups of
    that name in [r]: the pattern inside the group matches the text from
    the start of the span to its end. *)
Definition captured_by (s : string) (r : Re.regex)
  (e : string * (nat * nat)) : Prop :=
  exists rn c1 c2,
    In (fst e, rn) (named_groups r)
    /\ Re.matches s rn (fst (snd e)) c1 (snd (snd e)) c2.

(** The text of a span, or [None] for a group that took no part. *)
Definition span_text (s : string) (sp : option (nat * nat)) : option string :=
  match sp with
  | Some (a, b) => Some (substring a (b - a) s)
  | None => None
  end.

(** ** Rule stores for the examples *)

(** A readable file, its content written with apostrophes for double
    quotes, and a directory that lists. *)
Definition file (n c : string) : Path := mkPath n (Return (text c)).

Definition store (entries : list Path) : result Traversable :=
  Return (mkTraversable (Return entries)).

(** A rule without separator: header lines H1, H2, ... and data items
    D1, D2, ... *)
Definition rule_plain : string := "{'header': '(?:H\\d)+', 'data': 'D\\d'}".

(** A rule with a separator and no named group. *)
Definition rule_sep : string := "{'header': 'H', 'sep': '-', 'data': 'D'}".

(** A record cut short, and a record without the header field. *)
Definition rule_cut : string := "{'header': 'H'".
Definition rule_no_header : string := "{'data': 'D\\d'}".

(** A rule that takes a single header line, and a rule for another
    format. *)
Definition rule_one_header : string := "{'header': 'H\\d', 'data': 'D\\d'}".
Definition rule_other : string := "{'header': 'X', 'data': 'Y'}".

(** A rules directory, listed in no particular order, with a file that is
    not a rule and a rule file that cannot be read. *)
Definition some_rules : list Path :=
  [ file "refnames.json" "{'temperature': ['t090C']}";
    mkPath "cnv04.json" (Raise PermissionError);
    file "cnv03.json" rule_one_header;
    file "cnv01.json" rule_other;
    file "cnv02.json" rule_plain;
    file "cnv02.json.bak" rule_cut ].

(** [load_rule] returns the decoded rule; this is [rule_plain] decoded. *)
Definition rule_plain_decoded : json :=
  JObj [("header", JStr "(?:H\d)+"); ("data", JStr "D\d")].

(** A rule with a separator whose patterns name the two regions. *)
Definition rule_sep_named : string :=
  "{'header': '(?P<header>[a-z]+)', 'sep': '\\|', 'data': '(?P<data>[0-9]+)'}".

(** A rule written over several lines, with comments. *)
Definition rule_verbose : string :=
  "{'header': '(?: \\* [^\\n]* \\n )+   # lines that start with a star\n',
    'data': '[0-9.]+ \\s+             # one number and what separates it\n'}".

(** A rule with a separator line and a header that takes as few lines
    as it can. *)
Definition rule_lazy : string :=
  "{'header': '(?P<header>(?:.*\\n)+?)', 'sep': '\\*END\\*\\n',
    'data': '(?P<data>(?:[-+.0-9eE]+\\s+)+)'}".

(** A rule whose header pattern holds a comment with an escaped newline
    in it: the comment goes on to the next newline, over the b. *)
Definition rule_comment : string :=
  "{'header': 'H # a\\\n b\n', 'data': 'D'}".

(** Leading text that no rule describes. *)
Definition banner : string := "* Sea-Bird SBE 9 Data File: ".

(** ** What a search has to find *)

(** A matcher is complete for a pattern when it answers as soon as the
    continuation succeeds after one of the pattern's matches. *)
Definition complete_for (A : Type) (s : string) (r : Re.regex)
  (mr : Re.matcher A) : Prop :=
  forall i c j c' k x,
    Re.matches s r i c j c' -> i <= String.length s -> k j c' = Some x ->
    exists y, mr i c k = Some y.

(** * The other functions of seabird/utils.py *)

(** ** Paths and the environment *)

(** [os.path.join(a, b)] on a POSIX system, where [os.path.sep] is a
    slash. *)
Definition path_join (a b : string) : string :=
  if startswith b "/" then b
  else if String.eqb a "" || endswith a "/" then (a ++ b)%string
  else (a ++ "/" ++ b)%string.

(** [s.rstrip("/")]. *)
Fixpoint rstrip_slash (s : string) : string :=
  match s with
  | EmptyString => EmptyString
  | String a s' =>
      match rstrip_slash s' with
      | EmptyString => if Ascii.eqb a "/" then EmptyString else String a EmptyString
      | t => String a t
      end
  end.

(** [s.replace(old, new)] for an [old] of one character. *)
Fixpoint replace (old : ascii) (new : string) (s : string) : string :=
  match s with
  | EmptyString => EmptyString
  | String a s' =>
      if Ascii.eqb a old then (new ++ replace old new s')%string
      else String a (replace old new s')
  end.

(** What the process sees of its environment: [os.environ], and the home
    directories of the password database, by user id for the user of the
    process and by name; [None] is a KeyError of the lookup. *)
Record Environment : Type := mkEnvironment {
  environ : string -> option string;
  getpwuid_dir : option string;
  getpwnam_dir : string -> option string
}.

(** [os.getenv(key, default)]. *)
Definition getenv (env : Environment) (key default : string) : string :=
  match environ env key with
  | Some v => v
  | None => default
  end.

(** [os.path.expanduser(path)] on a POSIX system. *)
Definition expanduser (env : Environment) (path : string) : string :=
  if negb (startswith path "~") then path
  else
    let i := match index 1 "/" path with
             | Some i => i
             | None => String.length path
             end in
    let userhome :=
      if Nat.eqb i 1 then
        match environ env "HOME" with
        | Some home => Some home
        | None => getpwuid_dir env
        end
      else getpwnam_dir env (substring 1 (i - 1) path) in
    match userhome with
    | None => path
    | Some home =>
        match (rstrip_slash home ++ substring i (String.length path - i) path)%string with
        | EmptyString => "/"
        | expanded => expanded
        end
    end.

(** ** seabird_dir *)

(** [seabird_dir(subdir)]; [subdir] is [None] or a value of any kind. *)
Definition seabird_dir (env : Environment) (subdir : option string) : string :=
  let spath := getenv env "SEABIRD_DIR" "~/.config/seabird" in
  replace "/" "/" (expanduser env spath).

(** ** make_file_list *)

(** What a directory holds, as [os.walk] sees it: files, which is anything
    that is not a directory, and directories, each with its entries in the
    order in which [os.scandir] gives them. A directory that cannot be
    listed has no listing, and [is_link] tells a symbolic link to a
    directory. *)
#[local] Unset Elimination Schemes.
Inductive entry : Type :=
| File (n : string)
| Directory (n : string) (is_link : bool) (listing : option (list entry)).
#[local] Set Elimination Schemes.

(** Induction on an entry, with the property known of the entries of a
    listing. *)
Fixpoint entry_induction (P : entry -> Prop)
  (HF : forall n, P (File n))
  (HN : forall n l, P (Directory n l None))
  (HD : forall n l entries, Forall P entries -> P (Directory n l (Some entries)))
  (e : entry) {struct e} : P e :=
  match e with
  | File n => HF n
  | Directory n l None => HN n l
  | Directory n l (Some entries) =>
      HD n l entries
        ((fix all (es : list entry) : Forall P es :=
            match es with
            | [] => Forall_nil P
            | x :: es' => Forall_cons x (entry_induction P HF HN HD x) (all es')
            end) entries)
  end.

Definition entry_name (e : entry) : string :=
  match e with
  | File n => n
  | Directory n _ _ => n
  end.

Definition is_dir (e : entry) : bool :=
  match e with
  | File _ => false
  | Directory _ _ _ => true
  end.

Definition is_link (e : entry) : bool :=
  match e with
  | File _ => false
  | Directory _ l _ => l
  end.

(** The triples that [os.walk(top)] yields, top down, without following
    the links and with the errors of the listing ignored, where [top]
    names the entry [e]. *)
Fixpoint walk (top : string) (e : entry) {struct e}
  : list (string * list string * list string) :=
  match e with
  | File _ => []
  | Directory _ _ None => []
  | Directory _ _ (Some entries) =>
      (top,
       map entry_name (filter is_dir entries),
       map entry_name (filter (fun x => negb (is_dir x)) entries))
      :: (fix subdirs (l : list entry) : list (string * list string * list string) :=
            match l with
            | [] => []
            | x :: l' =>
                (if is_dir x && negb (is_link x)
                 then walk (path_join top (entry_name x)) x
                 else [])
                ++ subdirs l'
            end) entries
  end.

(** [located top e dirpath entries]: in the tree [e] that [top] names,
    the directory with the listing [entries] is [e] itself, or lies
    below it behind directories that can be listed and are not links,
    and [dirpath] is [top] joined with the names on the way to it. *)
Inductive located : string -> entry -> string -> list entry -> Prop :=
| located_top top n l entries :
    located top (Directory n l (Some entries)) top entries
| located_below top n l entries x dirpath es :
    In x entries -> is_dir x = true -> is_link x = false ->
    located (path_join top (entry_name x)) x dirpath es ->
    located top (Directory n l (Some entries)) dirpath es.

(** The patterns that read the same with and without the VERBOSE flag:
    those that hold no whitespace and no number sign. *)
Definition flag_free (pattern : string) : bool :=
  Re.string_forallb
    (fun c => negb (Re.is_whitespace c || Ascii.eqb c "#")) pattern.

(** [re.match(pattern, s)]: the pattern compiled without flags, matched
    at the start of [s]. *)
Definition re_match (pattern s : string) : result (option Re.Match) :=
  if flag_free pattern then
    r <- Re.compile pattern ;;
    Return (Re.match_at r s 0)
  else OutOfModel.

(** [list.sort] on strings: ascending, code point by code point. *)
Fixpoint insort (x : string) (l : list string) : list string :=
  match l with
  | [] => [x]
  | y :: l' => if String.ltb y x then y :: insort x l' else x :: l
  end.

Fixpoint sort (l : list string) : list string :=
  match l with
  | [] => []
  | x :: l' => insort x (sort l')
  end.

(** The default of [inputpattern]. *)
Definition default_pattern : string := ".*\.cnv".

(** The inner loop, over the file names of one directory. *)
Fixpoint for_filename (inputpattern dirpath : string) (filenames : list string)
  (inputfiles : list string) : result (list string) :=
  match filenames with
  | [] => Return inputfiles
  | filename :: rest =>
      found <- re_match inputpattern filename ;;
      for_filename inputpattern dirpath rest
        (match found with
         | Some _ => inputfiles ++ [path_join dirpath filename]
         | None => inputfiles
         end)
  end.

(** The outer loop, over the triples of the walk. *)
Fixpoint for_dirpath (inputpattern : string)
  (triples : list (string * list string * list string))
  (inputfiles : list string) : result (list string) :=
  match triples with
  | [] => Return inputfiles
  | (dirpath, _, filenames) :: rest =>
      inputfiles' <- for_filename inputpattern dirpath filenames inputfiles ;;
      for_dirpath inputpattern rest inputfiles'
  end.

(** [make_file_list(inputdir, inputpattern)], where [inputdir] names the
    entry [tree]. *)
Definition make_file_list (tree : entry) (inputdir inputpattern : string)
  : result (list string) :=
  inputfiles <- for_dirpath inputpattern (walk inputdir tree) [] ;;
  Return (sort inputfiles).

(** Whether a file name is selected by a compiled pattern, and the paths
    that the two loops collect from the triples of a walk, in the order
    of the walk. *)
Definition hit (r : Re.regex) (filename : string) : bool :=
  match Re.match_at r filename 0 with
  | Some _ => true
  | None => false
  end.

Definition collected (r : Re.regex)
  (triples : list (string * list string * list string)) : list string :=
  flat_map (fun '(dirpath, _, filenames) =>
              map (path_join dirpath) (filter (hit r) filenames)) triples.

(** The default pattern, compiled. *)
Definition default_regex : Re.regex :=
  Re.Seq (Re.Star Re.Dot)
    (Re.Seq (Re.Char ".") (Re.Seq (Re.Char "c") (Re.Seq (Re.Char "n") (Re.Char "v")))).

(** A name that holds the text .cnv with no line break before it. *)
Definition holds_cnv (filename : string) : Prop :=
  exists j, substring j 4 filename = ".cnv"
            /\ forall k, k < j -> get k filename <> Some (ascii_of_nat 10).

(** A tree in which no name begins with a slash, as is the case of the
    names of a file system. *)
Fixpoint plain_names (e : entry) : bool :=
  match e with
  | File _ => true
  | Directory _ _ None => true
  | Directory _ _ (Some entries) =>
      (fix all (l : list entry) : bool :=
         match l with
         | [] => true
         | x :: l' =>
             negb (startswith (entry_name x) "/") && plain_names x && all l'
         end) entries
  end.

(** ** sampledata *)

(** What [sampledata] does to the world, in the order in which it does
    it: the messages it logs with [module_logger.error], the directory it
    makes, the lines it prints and the calls of [download_file]. *)
Inductive event : Type :=
| logged_error (msg : string)
| makedirs (path : string)
| print (line : string)
| download_file (outputdir url filename md5hash : string).

(** The world of [sampledata]: the environment, whether the package
    supportdata can be imported, the paths that exist, and the exceptions
    that [os.makedirs] and [download_file] raise, if any. *)
Record World : Type := mkWorld {
  env : Environment;
  supportdata : bool;
  path_exists : string -> bool;
  makedirs_raises : string -> option exn;
  download_raises : string -> string -> string -> string -> option exn
}.

(** What leaves [sampledata]: an exception of the world, or the error of
    reading the local name that the failed import has left unbound. *)
Inductive raised : Type :=
| UnboundLocalError (variable : string)
| Raised (e : exn).

(** What [sampledata] returns: [None], a path, or a list of paths. *)
Inductive returned : Type :=
| RNone
| RPath (path : string)
| RList (datafile : list string).

Inductive outcome : Type :=
| Returns (v : returned)
| Raises (e : raised).

Definition newline : string := String (ascii_of_nat 10) EmptyString.

Definition missing_package : string :=
  ("Missing package supportdata. Try:" ++ newline
   ++ "pip install supportdata")%string.

Definition src : string :=
  "https://raw.githubusercontent.com/castelao/seabird/dev/sampledata".

(** The table of the sample files: for each name, its dtype and md5. *)
Definition filesdb : list (string * (string * string)) :=
  [ ("PIRA001.cnv", ("CTD", "5ded777144300b63c8775b1d7f033f92"));
    ("dPIRX003.cnv", ("CTD", "4b941b902a3aea7d99e1cf4c78c51877"));
    ("dPIRX010.cnv", ("CTD", "8691409accb534c83c8bd412afbdd285"));
    ("Hotin.cnv", ("CTD", "814dc769c0775327bbe5b0f489dfb571"));
    ("missing_whitespace.cnv", ("CTD", "c1f00cebb5f00f6aaebc316bac3fd86a"));
    ("SK287_CTD05.cnv", ("CTD", "08e974c46ed603442eecf9145031a6c4"));
    ("sta0860.cnv", ("CTD", "1c788c4d9b82b527ebf0c2fb9200600e")) ].

(** The table after the entries of another dtype have been deleted. *)
Definition of_dtype (dtype : option string)
  (db : list (string * (string * string))) : list (string * (string * string)) :=
  match dtype with
  | None => db
  | Some t => filter (fun '(_, (dt, _)) => String.eqb dt t) db
  end.

Fixpoint db_get (db : list (string * (string * string))) (f : string)
  : option (string * string) :=
  match db with
  | [] => None
  | (f', v) :: db' => if String.eqb f' f then Some v else db_get db' f
  end.

(** One call of [download_file] for the file [f] of the table. When the
    import has failed the name is unbound, and nothing is called. *)
Definition download (w : World) (outputdir f dt md5 : string)
  : list event * option raised :=
  if supportdata w then
    let url := path_join (path_join src dt) f in
    ([download_file outputdir url f md5],
     option_map Raised (download_raises w outputdir url f md5))
  else ([], Some (UnboundLocalError "download_file")).

(** The loop over the table, when no file name is given. *)
Fixpoint download_each (w : World) (outputdir : string)
  (db : list (string * (string * string))) (datafile : list string)
  : list event * outcome :=
  match db with
  | [] => ([], Returns (RList datafile))
  | (f, (dt, md5)) :: rest =>
      match download w outputdir f dt md5 with
      | (ev, Some e) => (print f :: ev, Raises e)
      | (ev, None) =>
          let '(ev', r) :=
            download_each w outputdir rest (datafile ++ [path_join outputdir f]) in
          (print f :: ev ++ ev', r)
      end
  end.

(** What follows the making of the output directory. *)
Definition fetch (w : World) (outputdir : string) (filename dtype : option string)
  : list event * outcome :=
  let db := of_dtype dtype filesdb in
  match filename with
  | None => download_each w outputdir db []
  | Some f =>
      match db_get db f with
      | Some (dt, md5) =>
          match download w outputdir f dt md5 with
          | (ev, Some e) => (ev, Raises e)
          | (ev, None) => (ev, Returns (RPath (path_join outputdir f)))
          end
      | None => ([logged_error (f ++ " is not a valid test file")], Returns RNone)
      end
  end.

(** [sampledata(filename, dtype)], each argument [None] or a string. *)
Definition sampledata (w : World) (filename dtype : option string)
  : list event * outcome :=
  let ev0 := if supportdata w then [] else [logged_error missing_package] in
  let outputdir := path_join (seabird_dir (env w) None) "sampledata" in
  if path_exists w outputdir then
    let '(ev, r) := fetch w outputdir filename dtype in (ev0 ++ ev, r)
  else
    match makedirs_raises w outputdir with
    | Some e => (ev0 ++ [makedirs outputdir], Raises (Raised e))
    | None =>
        let '(ev, r) := fetch w outputdir filename dtype in
        (ev0 ++ makedirs outputdir :: ev, r)
    end.

(** The directory that [sampledata] downloads into. *)
Definition sample_dir (w : World) : string :=
  path_join (seabird_dir (env w) None) "sampledata".

(** A world in which the output directory is there or can be made. *)
Definition output_dir_available (w : World) : Prop :=
  path_exists w (sample_dir w) = true \/ makedirs_raises w (sample_dir w) = None.

(** The events before the first download: the message about the missing
    package and the making of the output directory. *)
Definition preparation (w : World) : list event :=
  (if supportdata w then [] else [logged_error missing_package])
  ++ (if path_exists w (sample_dir w) then [] else [makedirs (sample_dir w)]).

(** The events of one file of the table in the loop over the table. *)
Definition events_of (outputdir : string) (x : string * (string * string))
  : list event :=
  let '(f, (dt, md5)) := x in
  [print f; download_file outputdir (path_join (path_join src dt) f) f md5].

(** ** basic_logger *)

(** The levels [logging.NOTSET] and [logging.DEBUG]. *)
Definition NOTSET : nat := 0.
Definition DEBUG : nat := 10.

(** A stream handler on [sys.stderr], with its level and the format of
    its formatter, if it has one. *)
Record Handler : Type := mkHandler {
  handler_level : nat;
  formatter : option string
}.

(** A logger of the class [logging.Logger]. *)
Record Logger : Type := mkLogger {
  logger_level : nat;
  handlers : list Handler
}.

(** What the logging module holds under a name: a logger, or a
    placeholder for the parent of a logger. *)
Inductive node : Type :=
| PlaceHolder
| Node (l : Logger).

Definition loggerDict : Type := string -> option node.

(** [logging.getLogger(name)] for a name other than the root's: the
    logger of that name, made on the first call. *)
Definition getLogger (d : loggerDict) (n : string) : Logger :=
  match d n with
  | Some (Node l) => l
  | _ => mkLogger NOTSET []
  end.

Definition set_logger (d : loggerDict) (n : string) (l : Logger) : loggerDict :=
  fun n' => if String.eqb n' n then Some (Node l) else d n'.

(** The argument of [basic_logger]: [None], a logger of the class Logger
    itself, known by its name, or an object of any other class, such as
    the root logger. *)
Inductive argument : Type :=
| ANone
| ALogger (n : string)
| AOther.

Inductive logger_outcome : Type :=
| Logger_returned (a : argument)
| AssertionError.

Definition log_format : string :=
  "%(asctime)s - %(name)s - %(levelname)s - %(message)s".

(** [basic_logger(logger)], with the assert statements enabled. *)
Definition basic_logger (d : loggerDict) (logger : argument)
  : loggerDict * logger_outcome :=
  match logger with
  | ALogger n => (d, Logger_returned (ALogger n))
  | AOther => (d, AssertionError)
  | ANone =>
      let l := getLogger d "CNV logger" in
      let ch := mkHandler DEBUG (Some log_format) in
      (set_logger d "CNV logger" (mkLogger DEBUG (handlers l ++ [ch])),
       Logger_returned (ALogger "CNV logger"))
  end.

(** [basic_logger()] called [n] times in a row. *)
Fixpoint basic_logger_times (n : nat) (d : loggerDict) : loggerDict :=
  match n with
  | 0 => d
  | S n' => basic_logger_times n' (fst (basic_logger d ANone))
  end.

(** * Properties *)

(** ** The model at work *)

Example discovery_order :
  map name (rule_files some_rules)
  = ["cnv01.json"; "cnv02.json"; "cnv03.json"; "cnv04.json"].
Proof. vm_compute. reflexivity. Qed.

Example capture_fidelity :
  load_rule (store [file "cnv01.json" rule_plain]) "H1H2D1D2D3"
  = Return (rule_plain_decoded,
            [("header", Some "H1H2"); ("data", Some "D1D2D3")]).
Proof. vm_compute. reflexivity. Qed.

Example separator_mode :
  load_rule (store [file "cnv01.json" rule_sep_named]) "abc|123"
  = Return (JObj [("header", JStr "(?P<header>[a-z]+)"); ("sep", JStr "\|");
                  ("data", JStr "(?P<data>[0-9]+)")],
            [("header", Some "abc"); ("data", Some "123")]).
Proof. vm_compute. reflexivity. Qed.

Example verbose_patterns :
  exists rule,
    load_rule (store [file "cnv01.json" rule_verbose])
      "* Sea-Bird SBE 9
* nquan = 2
1.5  20.25
"
    = Return (rule, [("header", Some "* Sea-Bird SBE 9
* nquan = 2
"); ("data", Some "1.5  20.25
")]).
Proof. eexists. vm_compute. reflexivity. Qed.

Example lazy_header :
  exists rule,
    load_rule (store [file "cnv01.json" rule_lazy])
      "* Sea-Bird SBE 9
# nquan = 2
*END*
1.5 20.25
2.5 20.5
"
    = Return (rule, [("header", Some "* Sea-Bird SBE 9
# nquan = 2
"); ("data", Some "1.5 20.25
2.5 20.5
")]).
Proof. eexists. vm_compute. reflexivity. Qed.

Example unreadable_rule_file :
  load_rule (store some_rules) "no rule matches this"
  = Raise PermissionError.
Proof. vm_compute. reflexivity. Qed.

Example escaped_newline_in_a_comment :
  build_regex (JObj [("header", JStr "H # a\
 b
"); ("data", JStr "D")])
  = Return (OStr "(?P<header>H # a\
 b
)(?P<data>(?:D)+)")
  /\ load_rule (store [file "cnv01.json" rule_comment]) "HD"
     = Return (JObj [("header", JStr "H # a\
 b
"); ("data", JStr "D")],
               [("header", Some "H"); ("data", Some "D")])
  /\ load_rule (store [file "cnv01.json" rule_comment]) "HbD"
     = Raise (CNVError "noparsingrule").
Proof. repeat split; vm_compute; reflexivity. Qed.

Example backslash_at_the_end_of_a_comment :
  Re.compile "H # a\" = Raise re_error
  /\ Re.compile "H # a\\" = Return (Re.Char "H").
Proof. split; vm_compute; reflexivity. Qed.

Example nesting_beyond_the_bound (pattern : string) :
  Re.max_groups < Re.count_open pattern -> Re.compile pattern = OutOfModel.
Proof.
  intros H. unfold Re.compile. apply Nat.ltb_lt in H. rewrite H. reflexivity.
Qed.

(** ** The matcher *)

Section MatcherFacts.

Import Re.

Variable A : Type.
Variable s : string.

Lemma one_char_inv (p : ascii -> bool) i c (k : nat -> caps -> option A) x :
  one_char A s p i c k = Some x ->
  exists b, get i s = Some b /\ p b = true /\ k (S i) c = Some x.
Proof.
  unfold one_char. destruct (get i s) as [b|]; [|discriminate].
  destruct (p b) eqn:Hp; [|discriminate]. eauto.
Qed.

Lemma iterate_sound r mr :
  sound_for A s r mr ->
  forall fuel, sound_for A s (Star r) (iterate A mr fuel).
Proof.
  intros Hmr fuel. induction fuel as [|fuel IH]; intros i c k x H; simpl in H.
  - exists i, c. split; [constructor | exact H].
  - destruct (mr i c _) as [y|] eqn:Hy.
    + injection H as ->.
      apply Hmr in Hy. destruct Hy as (j & c1 & Hm & Hk).
      destruct (Nat.ltb i j) eqn:Hlt; [|discriminate].
      apply Nat.ltb_lt in Hlt.
      apply IH in Hk. destruct Hk as (j' & c' & Hs & Hk).
      exists j', c'. split; [eapply M_Star_more; eauto | exact Hk].
    + exists i, c. split; [constructor | exact H].
Qed.

Lemma iterate_lazy_sound r mr :
  sound_for A s r mr ->
  forall fuel, sound_for A s (Star r) (iterate_lazy A mr fuel).
Proof.
  intros Hmr fuel. induction fuel as [|fuel IH]; intros i c k x H; simpl in H.
  - exists i, c. split; [constructor | exact H].
  - destruct (k i c) as [y|] eqn:Hy.
    + injection H as ->. exists i, c. split; [constructor | exact Hy].
    + apply Hmr in H. destruct H as (j & c1 & Hm & Hk).
      destruct (Nat.ltb i j) eqn:Hlt; [|discriminate].
      apply Nat.ltb_lt in Hlt.
      apply IH in Hk. destruct Hk as (j' & c' & Hs & Hk).
      exists j', c'. split; [eapply M_Star_more; eauto | exact Hk].
Qed.

Lemma m_sound r : sound_for A s r (m A s r).
Proof.
  induction r as [ | a | | neg items | | | r1 IH1 r2 IH2 | r1 IH1 r2 IH2
                 | r IH | r IH | r IH | r IH | r IH | r IH | g r IH ];
    intros i c k x H; cbn [m] in H.
  - exists i, c. split; [constructor | exact H].
  - apply one_char_inv in H. destruct H as (b & Hg & Hp & Hk).
    apply Ascii.eqb_eq in Hp. subst b.
    exists (S i), c. split; [constructor; exact Hg | exact Hk].
  - apply one_char_inv in H. destruct H as (b & Hg & Hp & Hk).
    apply negb_true_iff in Hp.
    exists (S i), c. split; [econstructor; eauto | exact Hk].
  - apply one_char_inv in H. destruct H as (b & Hg & Hp & Hk).
    exists (S i), c. split; [econstructor; eauto | exact Hk].
  - destruct (Nat.eqb i 0) eqn:E; [|discriminate].
    apply Nat.eqb_eq in E. subst i.
    exists 0, c. split; [constructor | exact H].
  - destruct (at_end s i) eqn:E; [|discriminate].
    exists i, c. split; [constructor; exact E | exact H].
  - apply IH1 in H. destruct H as (j & c1 & Hm1 & H).
    apply IH2 in H. destruct H as (j' & c' & Hm2 & H).
    exists j', c'. split; [econstructor; eauto | exact H].
  - destruct (m A s r1 i c k) as [y|] eqn:Hy.
    + injection H as ->. apply IH1 in Hy. destruct Hy as (j & c' & Hm & Hk).
      exists j, c'. split; [apply M_Alt_l; exact Hm | exact Hk].
    + apply IH2 in H. destruct H as (j & c' & Hm & Hk).
      exists j, c'. split; [apply M_Alt_r; exact Hm | exact Hk].
  - apply (iterate_sound r _ IH) in H. exact H.
  - apply IH in H. destruct H as (j & c1 & Hm & H).
    apply (iterate_sound r _ IH) in H. destruct H as (j' & c' & Hs & Hk).
    exists j', c'. split; [econstructor; eauto | exact Hk].
  - destruct (m A s r i c k) as [y|] eqn:Hy.
    + injection H as ->. apply IH in Hy. destruct Hy as (j & c' & Hm & Hk).
      exists j, c'. split; [apply M_Opt_some; exact Hm | exact Hk].
    + exists i, c. split; [apply M_Opt_none | exact H].
  - apply (iterate_lazy_sound r _ IH) in H. destruct H as (j & c' & Hm & Hk).
    exists j, c'. split; [apply M_LazyStar; exact Hm | exact Hk].
  - apply IH in H. destruct H as (j & c1 & Hm & H).
    apply (iterate_lazy_sound r _ IH) in H. destruct H as (j' & c' & Hs & Hk).
    exists j', c'. split; [apply M_LazyPlus; econstructor; eauto | exact Hk].
  - destruct (k i c) as [y|] eqn:Hy.
    + injection H as ->.
      exists i, c. split; [apply M_LazyOpt, M_Opt_none | exact Hy].
    + apply IH in H. destruct H as (j & c' & Hm & Hk).
      exists j, c'. split; [apply M_LazyOpt, M_Opt_some; exact Hm | exact Hk].
  - destruct g as [|[n|]].
    + apply IH in H. destruct H as (j & c' & Hm & Hk).
      exists j, c'. split; [constructor; exact Hm | exact Hk].
    + apply IH in H. destruct H as (j & c' & Hm & Hk).
      exists j, ((n, (i, j)) :: c'). split; [constructor; exact Hm | exact Hk].
    + apply IH in H. destruct H as (j & c' & Hm & Hk).
      exists j, c'. split; [constructor; exact Hm | exact Hk].
Qed.

End MatcherFacts.

(** ** Every match stays inside the text and records spans of its own *)

Section MatchFacts.

Import Re.

Variable s : string.

Lemma get_Some_lt (t : string) i b : get i t = Some b -> i < String.length t.
Proof.
  revert i. induction t as [|a t IH]; intros i H; simpl in *.
  - destruct i; discriminate.
  - destruct i as [|i]; [lia|]. apply IH in H. lia.
Qed.

Lemma recorded_weaken names names' lo lo' hi hi' e :
  recorded names lo hi e ->
  incl names names' -> lo' <= lo -> hi <= hi' ->
  recorded names' lo' hi' e.
Proof.
  unfold recorded. intros (Hin & H1 & H2 & H3) Hincl Hlo Hhi.
  repeat split; auto; lia.
Qed.

Lemma matches_le r i c j c' : matches s r i c j c' -> i <= j.
Proof. induction 1; lia. Qed.

Lemma matches_in_text r i c j c' :
  matches s r i c j c' -> i <= String.length s -> j <= String.length s.
Proof.
  induction 1; intros Hi; auto;
    match goal with
    | H : get _ _ = Some _ |- _ => apply get_Some_lt in H; lia
    end.
Qed.

(** The spans recorded by a part of a match are recorded by the whole. *)
Ltac widen :=
  match goal with
  | F : Forall (recorded _ _ _) ?l |- Forall (recorded _ _ _) ?l =>
      eapply Forall_impl; [|exact F];
      let e := fresh "e" in
      let He := fresh "He" in
      intros e He; eapply recorded_weaken;
      [exact He | simpl; auto using incl_refl, incl_appl, incl_appr, incl_tl
      | lia | lia]
  end.

Ltac two_parts :=
  eexists; split; [rewrite app_assoc; reflexivity|];
  apply Forall_app; split; widen.

Lemma matches_records r i c j c' :
  matches s r i c j c' ->
  exists new, c' = new ++ c /\ Forall (recorded (gnames r) i j) new.
Proof.
  induction 1;
    try (exists []; split; [reflexivity | constructor]);
    repeat match goal with
      | IH : exists _, _ /\ _ |- _ =>
          let n := fresh "n" in
          let F := fresh "F" in
          destruct IH as (n & -> & F)
      | H : matches _ _ _ _ _ _ |- _ => apply matches_le in H
      end.
  - (* Seq *) two_parts.
  - (* Alt, left *) eexists. split; [reflexivity | widen].
  - (* Alt, right *) eexists. split; [reflexivity | widen].
  - (* Star, one more *) two_parts.
  - (* Plus *) two_parts.
  - (* Opt *) eexists. split; [reflexivity | widen].
  - (* LazyStar *) eexists. split; [reflexivity | widen].
  - (* LazyPlus *) eexists. split; [reflexivity | widen].
  - (* LazyOpt *) eexists. split; [reflexivity | widen].
  - (* named group *)
    eexists. split; [apply app_comm_cons|].
    constructor; [|widen].
    unfold recorded; simpl. repeat split; auto; lia.
  - eexists. split; [reflexivity | widen].
  - eexists. split; [reflexivity | widen].
Qed.

(** Groups that a pattern does not name keep what they had. *)
Lemma lookup_app_other n (new c : caps) :
  ~ In n (map fst new) -> lookup n (new ++ c) = lookup n c.
Proof.
  induction new as [|[n' sp] new IH]; simpl; intros H; [reflexivity|].
  destruct (String.eqb n' n) eqn:E.
  - apply String.eqb_eq in E. tauto.
  - apply IH. tauto.
Qed.

Lemma matches_frame r i c j c' n :
  matches s r i c j c' -> ~ In n (gnames r) -> lookup n c' = lookup n c.
Proof.
  intros H Hn. apply matches_records in H. destruct H as (new & -> & F).
  apply lookup_app_other. intros Hin. apply in_map_iff in Hin.
  destruct Hin as (e & <- & He).
  rewrite Forall_forall in F. apply F in He. destruct He as (He & _). auto.
Qed.

(** The matcher's answer at a position is one of the pattern's matches
    from that position. *)
Lemma match_at_inv r i mt :
  match_at r s i = Some mt ->
  exists j c, matches s r i [] j c /\ mt = mkMatch i j c.
Proof.
  unfold match_at. intros H. apply m_sound in H.
  destruct H as (j & c & Hm & Hk). injection Hk as <-. eauto.
Qed.

Lemma search_from_inv r n i mt :
  search_from r s n i = Some mt ->
  exists i', i <= i' /\ i' <= i + n /\ match_at r s i' = Some mt.
Proof.
  revert i. induction n as [|n IH]; intros i H; simpl in H.
  - destruct (match_at r s i) eqn:E; [|discriminate].
    injection H as ->. exists i. repeat split; auto; lia.
  - destruct (match_at r s i) eqn:E.
    + injection H as ->. exists i. repeat split; auto; lia.
    + apply IH in H. destruct H as (i' & H1 & H2 & H3).
      exists i'. repeat split; auto; lia.
Qed.

(** A search finds a match as soon as some position has one, and not to
    the right of that position. *)
Lemma search_from_finds r n i i' mt :
  match_at r s i' = Some mt -> i <= i' -> i' <= i + n ->
  exists mt', search_from r s n i = Some mt' /\ m_start mt' <= i'.
Proof.
  revert i. induction n as [|n IH]; intros i H L1 L2; simpl.
  - assert (i' = i) by lia. subst i'. rewrite H.
    exists mt. split; [reflexivity|].
    apply match_at_inv in H. destruct H as (j & c & _ & ->). simpl. lia.
  - destruct (match_at r s i) as [mt0|] eqn:E.
    + exists mt0. split; [reflexivity|].
      apply match_at_inv in E. destruct E as (j & c & _ & ->). simpl. lia.
    + assert (i <> i') by (intros ->; congruence).
      apply IH; auto; lia.
Qed.

End MatchFacts.

(** ** Strings *)

Lemma substring_split (s : string) a n k :
  (substring a n s ++ substring (a + n) k s)%string = substring a (n + k) s.
Proof.
  revert a n k. induction s as [|c s IH]; intros a n k.
  - destruct a, n, k; reflexivity.
  - destruct a as [|a]; simpl.
    + destruct n as [|n]; simpl; [reflexivity|].
      f_equal. apply (IH 0 n k).
    + apply IH.
Qed.

Lemma startswith_iff s p :
  startswith s p = true <-> exists t, s = (p ++ t)%string.
Proof.
  unfold startswith. revert s. induction p as [|a p IH]; intros s; simpl.
  - split; [intros _; exists s; reflexivity | intros _; destruct s; reflexivity].
  - destruct s as [|b s]; simpl.
    + split; [discriminate | intros (t & H); discriminate].
    + destruct (ascii_dec a b) as [->|Hne].
      * rewrite IH. split; intros (t & H); exists t; congruence.
      * split; [discriminate | intros (t & H); congruence].
Qed.

Lemma substring_length_app (s t : string) :
  substring (String.length s) (String.length t) (s ++ t) = t.
Proof.
  induction s as [|a s IH]; simpl; [|exact IH].
  induction t as [|b t IHt]; simpl; [reflexivity | f_equal; exact IHt].
Qed.

Lemma substring_covers (s : string) n :
  (substring 0 n s ++ substring n (String.length s - n) s)%string = s.
Proof.
  revert n. induction s as [|a s IH]; intros n.
  - destruct n; reflexivity.
  - destruct n as [|n]; simpl.
    + f_equal. specialize (IH 0). simpl in IH. rewrite Nat.sub_0_r in IH.
      destruct s; [reflexivity|]. simpl in *. exact IH.
    + f_equal. apply IH.
Qed.

Lemma append_length (s t : string) :
  String.length (s ++ t) = String.length s + String.length t.
Proof. induction s as [|a s IH]; simpl; [reflexivity | rewrite IH; reflexivity]. Qed.

Lemma append_assoc (s t u : string) :
  ((s ++ t) ++ u)%string = (s ++ (t ++ u))%string.
Proof. induction s as [|a s IH]; simpl; [reflexivity | rewrite IH; reflexivity]. Qed.

Lemma endswith_iff s p :
  endswith s p = true <-> exists t, s = (t ++ p)%string.
Proof.
  unfold endswith. rewrite andb_true_iff, Nat.leb_le, String.eqb_eq. split.
  - intros (Hlen & Hsub).
    exists (substring 0 (String.length s - String.length p) s).
    pose proof (substring_covers s (String.length s - String.length p)) as Hc.
    replace (String.length s - (String.length s - String.length p))
      with (String.length p) in Hc by lia.
    rewrite Hsub in Hc. symmetry. exact Hc.
  - intros (t & ->). rewrite append_length. split; [lia|].
    replace (String.length t + String.length p - String.length p)
      with (String.length t) by lia.
    apply substring_length_app.
Qed.

(** ** The parser reads from left to right *)

Section ParserFacts.

Import Re.

Lemma append_cons c (s t : string) : (String c s ++ t)%string = String c (s ++ t).
Proof. reflexivity. Qed.

Lemma skip_comment_cons c s :
  skip_comment (String c s)
  = if Ascii.eqb c (ascii_of_nat 10) then Return s
    else if Ascii.eqb c "\" then
      match s with
      | EmptyString => Raise re_error
      | String _ s'' => skip_comment s''
      end
    else skip_comment s.
Proof. reflexivity. Qed.

(** A comment that ends before the end of the text ends at the same
    place when more text follows. *)
Lemma skip_comment_app s t r :
  skip_comment s = Return r -> r <> "" ->
  skip_comment (s ++ t) = Return (r ++ t)%string.
Proof.
  revert r.
  assert ((forall r, skip_comment s = Return r -> r <> "" ->
                     skip_comment (s ++ t) = Return (r ++ t)%string)
          /\ (forall c r, skip_comment (String c s) = Return r -> r <> "" ->
                          skip_comment (String c s ++ t)
                          = Return (r ++ t)%string)) as H; [|apply H].
  induction s as [|a s (IH1 & IH2)].
  - split.
    + simpl. intros r [= <-]. congruence.
    + intros c r. simpl.
      destruct (Ascii.eqb c (ascii_of_nat 10)); [intros [= <-]; congruence|].
      destruct (Ascii.eqb c "\"); [discriminate|].
      intros [= <-]. congruence.
  - split; [apply IH2|].
    intros c r. rewrite !append_cons.
    rewrite (skip_comment_cons c (String a s)).
    rewrite (skip_comment_cons c (String a (s ++ t))).
    destruct (Ascii.eqb c (ascii_of_nat 10)).
    + intros [= <-] _. reflexivity.
    + destruct (Ascii.eqb c "\"); [apply IH1 | rewrite <- append_cons; apply IH2].
Qed.

Lemma set_member_app c s t it r :
  set_member c s = Return (it, r) ->
  set_member c (s ++ t) = Return (it, (r ++ t)%string).
Proof.
  unfold set_member. destruct (Ascii.eqb c "\").
  - destruct s as [|e s]; simpl; [discriminate|].
    destruct (class_escape e); simpl; try discriminate.
    intros [= -> ->]. reflexivity.
  - intros [= -> ->]. reflexivity.
Qed.

Lemma parse_set_app f :
  forall f' s acc items r t,
    parse_set f s acc = Return (items, r) -> f <= f' ->
    parse_set f' (s ++ t) acc = Return (items, (r ++ t)%string).
Proof.
  induction f as [|f IH]; intros f' s acc items r t H Hf; [discriminate|].
  destruct f' as [|f']; [lia|]. assert (f <= f') as Hf' by lia.
  destruct s as [|c s1]; [discriminate|].
  cbn [parse_set] in H. rewrite append_cons. cbn [parse_set].
  destruct (Ascii.eqb c "]" && negb match acc with [] => true | _ :: _ => false end).
  { injection H as <- <-. reflexivity. }
  destruct (set_member c s1) as [[code1 s2]| |] eqn:E1; try discriminate.
  rewrite (set_member_app _ _ t _ _ E1). cbn [bind] in *.
  destruct s2 as [|c2 s3]; [destruct f; discriminate|].
  rewrite append_cons.
  destruct (Ascii.eqb c2 "-"); [|apply (IH f' (String c2 s3) _ _ _ t H Hf')].
  destruct s3 as [|that s4]; [discriminate|]. rewrite append_cons.
  destruct (Ascii.eqb that "]").
  { injection H as <- <-. reflexivity. }
  destruct (set_member that s4) as [[code2 s5]| |] eqn:E2; try discriminate.
  rewrite (set_member_app _ _ t _ _ E2). cbn [bind] in *.
  destruct code1; try discriminate. destruct code2; try discriminate.
  destruct (Nat.ltb (ord c1) (ord c0)); [discriminate|].
  apply (IH f' s5 _ _ _ t H Hf').
Qed.

Lemma getuntil_gt_app s acc n r t :
  getuntil_gt s acc = Return (n, r) ->
  getuntil_gt (s ++ t) acc = Return (n, (r ++ t)%string).
Proof.
  revert acc. induction s as [|c s IH]; intros acc H; [discriminate|].
  simpl in *. destruct (Ascii.eqb c ">").
  - destruct acc; [discriminate|]. injection H as <- <-. reflexivity.
  - apply IH. exact H.
Qed.

Lemma expect_close_app s r t :
  expect_close s = Return r -> expect_close (s ++ t) = Return (r ++ t)%string.
Proof.
  destruct s as [|c s]; [discriminate|]. simpl.
  destruct (Ascii.eqb c ")"); [|discriminate]. intros [= ->]. reflexivity.
Qed.

Lemma expect_close_nonempty s r : expect_close s = Return r -> s <> "".
Proof. destruct s; [discriminate | discriminate]. Qed.

Lemma parse_items_nil f acc items r :
  parse_items f "" acc = Return (items, r) -> r = "".
Proof. destruct f; [discriminate|]. simpl. intros [= _ <-]. reflexivity. Qed.

Lemma parse_sub_nil f p r : parse_sub f "" = Return (p, r) -> r = "".
Proof.
  destruct f as [|f]; [discriminate|]. cbn [parse_sub].
  destruct (parse_items f "" []) as [[items s1]| |] eqn:E; try discriminate.
  apply parse_items_nil in E. subst. simpl. intros [= _ <-]. reflexivity.
Qed.

Lemma opening_of_app s t :
  match opening_of s with
  | OpenNonCapturing s2 => opening_of (s ++ t) = OpenNonCapturing (s2 ++ t)
  | OpenNamed s2 => opening_of (s ++ t) = OpenNamed (s2 ++ t)
  | OpenCapturing s2 => s <> "" -> opening_of (s ++ t) = OpenCapturing (s2 ++ t)
  | _ => True
  end.
Proof.
  destruct s as [|c1 s1]; [simpl; congruence|].
  rewrite append_cons. cbn [opening_of].
  destruct (Ascii.eqb c1 "?"); [|reflexivity].
  destruct s1 as [|c2 s2]; [exact I|]. rewrite append_cons.
  destruct (Ascii.eqb c2 ":"); [reflexivity|].
  destruct (Ascii.eqb c2 "P"); [|exact I].
  destruct s2 as [|c3 s3]; [exact I|]. rewrite append_cons.
  destruct (Ascii.eqb c3 "<"); [reflexivity | exact I].
Qed.

Lemma parse_app f :
  forall f', f <= f' ->
    (forall s acc items r t,
        parse_items f s acc = Return (items, r) -> r <> "" ->
        parse_items f' (s ++ t) acc = Return (items, (r ++ t)%string))
    /\ (forall s p r t,
        parse_sub f s = Return (p, r) -> r <> "" ->
        parse_sub f' (s ++ t) = Return (p, (r ++ t)%string)).
Proof.
  induction f as [|f IH]; intros f' Hf; [split; intros; discriminate|].
  destruct f' as [|f']; [lia|].
  assert (f <= f') as Hf' by lia. destruct (IH f' Hf') as (IHi & IHs).
  assert (forall s2 name acc items r t p s3,
             parse_sub f s2 = Return (p, s3) ->
             (s4 <- expect_close s3 ;; parse_items f s4 (Sub name p :: acc))
             = Return (items, r) -> r <> "" ->
             (s4 <- expect_close (s3 ++ t) ;;
              parse_items f' s4 (Sub name p :: acc))
             = Return (items, (r ++ t)%string)
             /\ parse_sub f' (s2 ++ t) = Return (p, (s3 ++ t)%string)) as Hgroup.
  { intros s2 name acc items r t p s3 E Hp Hr.
    destruct (expect_close s3) as [s4| |] eqn:Ec; cbn [bind] in Hp;
      try discriminate.
    split.
    - rewrite (expect_close_app _ _ t Ec). cbn [bind]. apply IHi; assumption.
    - apply IHs; [assumption | eapply expect_close_nonempty; eassumption]. }
  split.
  - intros s acc items r t Hp Hr. destruct s as [|c s1].
    { simpl in Hp. injection Hp as <- <-. congruence. }
    rewrite append_cons. cbn [parse_items] in Hp |- *.
    destruct (Ascii.eqb c "|" || Ascii.eqb c ")").
    { injection Hp as <- <-. reflexivity. }
    destruct (is_whitespace c); [apply IHi; assumption|].
    destruct (Ascii.eqb c "#").
    { destruct (skip_comment s1) as [s2| |] eqn:Ec; cbn [bind] in Hp;
        try discriminate.
      assert (s2 <> "") as Hc.
      { intros ->. apply parse_items_nil in Hp. congruence. }
      rewrite (skip_comment_app _ t _ Ec Hc). cbn [bind].
      apply IHi; assumption. }
    destruct (Ascii.eqb c "\").
    { destruct s1 as [|e s2]; [discriminate|]. rewrite append_cons.
      destruct (escape e); cbn [bind] in *; try discriminate.
      apply IHi; assumption. }
    destruct (Ascii.eqb c "[").
    { destruct s1 as [|c1 s1']; [discriminate|].
      rewrite append_cons. unfold set_opening in *.
      destruct (Ascii.eqb c1 "^").
      - destruct (parse_set (S (String.length s1')) s1' [])
          as [[its s3]| |] eqn:E; cbn [bind] in Hp; try discriminate.
        rewrite (parse_set_app _ (S (String.length (s1' ++ t))) _ _ _ _ t E)
          by (rewrite append_length; lia).
        cbn [bind]. apply IHi; assumption.
      - destruct (parse_set (S (String.length (String c1 s1'))) (String c1 s1') [])
          as [[its s3]| |] eqn:E; cbn [bind] in Hp; try discriminate.
        rewrite <- append_cons.
        rewrite (parse_set_app _ (S (String.length (String c1 s1' ++ t))) _ _ _ _ t E)
          by (rewrite append_length; lia).
        cbn [bind]. apply IHi; assumption. }
    destruct (Ascii.eqb c "*" || Ascii.eqb c "+" || Ascii.eqb c "?").
    { destruct acc as [|item acc']; [discriminate|].
      destruct (is_at item); [discriminate|].
      destruct (is_repeat item); [discriminate|].
      destruct s1 as [|c1 s1'].
      { cbn [repeat_mark_of] in Hp. apply parse_items_nil in Hp. congruence. }
      rewrite append_cons. cbn [repeat_mark_of] in *.
      destruct (Ascii.eqb c1 "?"); [apply IHi; assumption|].
      destruct (Ascii.eqb c1 "+"); [discriminate|].
      rewrite <- append_cons. apply IHi; assumption. }
    destruct (Ascii.eqb c "{"); [discriminate|].
    destruct (Ascii.eqb c "."); [apply IHi; assumption|].
    destruct (Ascii.eqb c "^"); [apply IHi; assumption|].
    destruct (Ascii.eqb c "$"); [apply IHi; assumption|].
    destruct (Ascii.eqb c "("); [|apply IHi; assumption].
    pose proof (opening_of_app s1 t) as Ho.
    destruct (opening_of s1) as [s2|s2|s2| |] eqn:Eo; try discriminate.
    + rewrite Ho.
      destruct (parse_sub f s2) as [[p s3]| |] eqn:E; cbn [bind] in Hp;
        try discriminate.
      destruct (Hgroup s2 NonCapturing acc items r t p s3 E Hp Hr) as (H1 & H2).
      rewrite H2. cbn [bind]. exact H1.
    + rewrite Ho.
      destruct (getuntil_gt s2 "") as [[name s3]| |] eqn:Eg; cbn [bind] in Hp;
        try discriminate.
      rewrite (getuntil_gt_app _ _ _ _ t Eg). cbn [bind].
      destruct (negb (is_ascii name)); [discriminate|].
      destruct (negb (isidentifier name)); [discriminate|].
      destruct (parse_sub f s3) as [[p s4]| |] eqn:E; cbn [bind] in Hp;
        try discriminate.
      destruct (Hgroup s3 (Capturing (Some name)) acc items r t p s4 E Hp Hr)
        as (H1 & H2).
      rewrite H2. cbn [bind]. exact H1.
    + destruct (parse_sub f s2) as [[p s3]| |] eqn:E; cbn [bind] in Hp;
        try discriminate.
      assert (s1 <> "") as Hs1.
      { intros ->. simpl in Eo. injection Eo as <-.
        apply parse_sub_nil in E. subst s3. discriminate. }
      rewrite (Ho Hs1).
      destruct (Hgroup s2 (Capturing None) acc items r t p s3 E Hp Hr)
        as (H1 & H2).
      rewrite H2. cbn [bind]. exact H1.
  - intros s p r t Hp Hr. cbn [parse_sub] in Hp |- *.
    destruct (parse_items f s []) as [[items s1]| |] eqn:E; cbn [bind] in Hp;
      try discriminate.
    destruct s1 as [|c s2].
    { injection Hp as <- <-. congruence. }
    rewrite (IHi _ _ _ _ t E) by discriminate. cbn [bind].
    rewrite append_cons.
    destruct (Ascii.eqb c "|").
    + destruct (parse_sub f s2) as [[r2 s3]| |] eqn:E2; cbn [bind] in Hp;
        try discriminate.
      injection Hp as <- <-.
      rewrite (IHs _ _ _ t E2 Hr). reflexivity.
    + injection Hp as <- <-. reflexivity.
Qed.

Lemma self_contained_at h rh t f :
  self_contained h rh -> 2 * String.length h + 6 <= f ->
  parse_sub f (h ++ String ")" t) = Return (rh, String ")" t).
Proof.
  intros H Hf. unfold self_contained in H.
  destruct (parse_app _ f Hf) as (_ & Hs).
  specialize (Hs _ _ _ t H). 
  rewrite append_assoc in Hs. apply Hs. discriminate.
Qed.

Lemma parse_items_non_capturing f s acc :
  parse_items (S f) ("(?:" ++ s) acc
  = ('(p, s3) <- parse_sub f s ;;
     s4 <- expect_close s3 ;;
     parse_items f s4 (Sub NonCapturing p :: acc)).
Proof. reflexivity. Qed.

Lemma parse_items_header f s acc :
  parse_items (S f) ("(?P<header>" ++ s) acc
  = ('(p, s3) <- parse_sub f s ;;
     s4 <- expect_close s3 ;;
     parse_items f s4 (Sub (Capturing (Some "header")) p :: acc)).
Proof. reflexivity. Qed.

Lemma parse_items_data f s acc :
  parse_items (S f) ("(?P<data>" ++ s) acc
  = ('(p, s3) <- parse_sub f s ;;
     s4 <- expect_close s3 ;;
     parse_items f s4 (Sub (Capturing (Some "data")) p :: acc)).
Proof. reflexivity. Qed.

Lemma parse_sub_S f s :
  parse_sub (S f) s
  = ('(items, s1) <- parse_items f s [] ;;
     match s1 with
     | String c s2 =>
         if Ascii.eqb c "|" then
           '(r2, s3) <- parse_sub f s2 ;; Return (Alt (seq_of items) r2, s3)
         else Return (seq_of items, s1)
     | EmptyString => Return (seq_of items, s1)
     end).
Proof. reflexivity. Qed.

Lemma two_groups_parse h dt rh rd f :
  self_contained h rh -> self_contained dt rd ->
  2 * String.length h + 6 <= f -> 2 * String.length dt + 6 <= f ->
  parse_sub (7 + f) (two_groups h dt)
  = Return (header_then_data rh (Plus rd), "").
Proof.
  intros Hh Hd Fh Fd. unfold two_groups.
  change (7 + f) with (S (S (S (S (S (S (S f))))))).
  rewrite parse_sub_S, parse_items_header.
  change (")(?P<data>(?:" ++ dt ++ ")+)")%string
    with (String ")" ("(?P<data>" ++ "(?:" ++ dt ++ ")+)")).
  rewrite (self_contained_at h rh _ _ Hh) by lia. cbn [bind expect_close].
  change (Ascii.eqb ")" ")") with true. cbv iota. cbn [bind].
  rewrite parse_items_data, parse_sub_S, parse_items_non_capturing.
  rewrite (self_contained_at dt rd _ _ Hd) by lia.
  reflexivity.
Qed.

Lemma compile_two_groups h dt rh rd :
  self_contained h rh -> self_contained dt rd ->
  compile (two_groups h dt)
  = if Nat.ltb max_groups (count_open (two_groups h dt)) then OutOfModel
    else if negb (nodupb ("header" :: gnames rh ++ "data" :: gnames rd))
    then Raise re_error
    else if negb (modelled (header_then_data rh (Plus rd))) then OutOfModel
    else Return (header_then_data rh (Plus rd)).
Proof.
  intros Hh Hd. unfold compile.
  destruct (Nat.ltb max_groups (count_open (two_groups h dt))); [reflexivity|].
  replace (2 * String.length (two_groups h dt) + 4)
    with (7 + (2 * String.length h + 2 * String.length dt + 51)).
  - rewrite (two_groups_parse h dt rh rd _ Hh Hd) by lia. reflexivity.
  - unfold two_groups. repeat rewrite append_length. simpl String.length. lia.
Qed.

End ParserFacts.

(** ** The order of the rule files *)

Lemma ascii_compare_ord a b :
  Ascii.compare a b = Nat.compare (ord a) (ord b).
Proof.
  unfold Ascii.compare, ord, nat_of_ascii. apply N2Nat.inj_compare.
Qed.

(** [String.compare] decides [lex_le]. *)
Lemma compare_lex s t :
  match String.compare s t with
  | Lt => lex_le s t /\ s <> t
  | Eq => s = t
  | Gt => lex_le t s /\ s <> t
  end.
Proof.
  revert t. induction s as [|a s IH]; intros [|b t]; simpl.
  - reflexivity.
  - split; [constructor | discriminate].
  - split; [constructor | discriminate].
  - rewrite ascii_compare_ord.
    destruct (Nat.compare_spec (ord a) (ord b)) as [E|L|L].
    + assert (a = b) as ->.
      { unfold ord in E. rewrite <- (ascii_nat_embedding a),
          <- (ascii_nat_embedding b), E. reflexivity. }
      specialize (IH t). destruct (String.compare s t).
      * congruence.
      * destruct IH as (H1 & H2). split; [constructor; exact H1 | congruence].
      * destruct IH as (H1 & H2). split; [constructor; exact H1 | congruence].
    + split; [constructor; exact L | intros [= -> _]; lia].
    + split; [constructor; exact L | intros [= -> _]; lia].
Qed.

Lemma lex_le_refl s : lex_le s s.
Proof. induction s; constructor; assumption. Qed.

Lemma lex_le_trans s t u : lex_le s t -> lex_le t u -> lex_le s u.
Proof.
  intros H. revert u. induction H; intros u Hu.
  - constructor.
  - inversion Hu; subst; apply lex_le_head; lia.
  - inversion Hu; subst;
      [apply lex_le_head; assumption | apply lex_le_tail; auto].
Qed.

Lemma ltb_true_lex s t : String.ltb s t = true -> lex_le s t.
Proof.
  unfold String.ltb. pose proof (compare_lex s t) as H.
  destruct (String.compare s t); try discriminate. tauto.
Qed.

Lemma ltb_false_lex s t : String.ltb s t = false -> lex_le t s.
Proof.
  unfold String.ltb. pose proof (compare_lex s t) as H.
  destruct (String.compare s t); try discriminate; intros _.
  - subst. apply lex_le_refl.
  - tauto.
Qed.

Lemma insert_sorted_perm p l : Permutation (p :: l) (insert_sorted p l).
Proof.
  induction l as [|q l IH]; simpl; [reflexivity|].
  destruct (String.ltb (name q) (name p)); [|reflexivity].
  rewrite perm_swap. constructor. exact IH.
Qed.

Lemma sorted_perm l : Permutation l (sorted l).
Proof.
  induction l as [|p l IH]; simpl; [constructor|].
  rewrite <- insert_sorted_perm. constructor. exact IH.
Qed.

Lemma insert_sorted_ordered p l :
  StronglySorted name_le l -> StronglySorted name_le (insert_sorted p l).
Proof.
  induction 1 as [|q l Hl IH Hq]; simpl.
  - constructor; constructor.
  - destruct (String.ltb (name q) (name p)) eqn:E.
    + constructor; [exact IH|].
      apply ltb_true_lex in E.
      rewrite Forall_forall. intros x Hx.
      apply (Permutation_in _ (Permutation_sym (insert_sorted_perm p l))) in Hx.
      destruct Hx as [<-|Hx]; [exact E|].
      rewrite Forall_forall in Hq. auto.
    + apply ltb_false_lex in E.
      constructor; [constructor; assumption|].
      constructor; [exact E|].
      eapply Forall_impl; [|exact Hq].
      intros x Hx. eapply lex_le_trans; eassumption.
Qed.

Lemma sorted_ordered l : StronglySorted name_le (sorted l).
Proof.
  induction l as [|p l IH]; simpl; [constructor|].
  apply insert_sorted_ordered. exact IH.
Qed.

(** ** The loop over the rule files *)

Section Loop.

Variable raw_text : string.

Lemma for_rule_path_skip pre l :
  Forall (no_match raw_text) pre ->
  for_rule_path raw_text (pre ++ l) = for_rule_path raw_text l.
Proof.
  induction 1 as [|p pre Hp _ IH]; simpl; [reflexivity|].
  rewrite Hp. simpl. exact IH.
Qed.

Lemma for_rule_path_first pre p post d :
  Forall (no_match raw_text) pre ->
  try_rule raw_text p = Return (Some d) ->
  for_rule_path raw_text (pre ++ p :: post) = Return d.
Proof.
  intros Hpre Hp. rewrite for_rule_path_skip by exact Hpre.
  simpl. rewrite Hp. reflexivity.
Qed.

Lemma for_rule_path_raise pre p post e :
  Forall (no_match raw_text) pre ->
  try_rule raw_text p = Raise e ->
  for_rule_path raw_text (pre ++ p :: post) = Raise e.
Proof.
  intros Hpre Hp. rewrite for_rule_path_skip by exact Hpre.
  simpl. rewrite Hp. reflexivity.
Qed.

Lemma for_rule_path_exhausted l :
  Forall (no_match raw_text) l ->
  for_rule_path raw_text l = Raise (CNVError "noparsingrule").
Proof.
  intros H. rewrite <- (app_nil_r l). rewrite for_rule_path_skip by exact H.
  reflexivity.
Qed.

(** A returned detection comes from the first rule file that matches. *)
Lemma for_rule_path_return_inv l d :
  for_rule_path raw_text l = Return d ->
  exists pre p post,
    l = pre ++ p :: post /\ Forall (no_match raw_text) pre /\
    try_rule raw_text p = Return (Some d).
Proof.
  induction l as [|p l IH]; simpl; intros H; [discriminate|].
  destruct (try_rule raw_text p) as [[d'|]| |] eqn:E; simpl in H;
    try discriminate.
  - injection H as ->. exists [], p, l. repeat split; auto.
  - apply IH in H. destruct H as (pre & q & post & -> & Hpre & Hq).
    exists (p :: pre), q, post. repeat split; auto.
Qed.

(** What a matching rule file went through. *)
Lemma try_rule_Some_inv p rule gd :
  try_rule raw_text p = Return (Some (rule, gd)) ->
  exists content pattern re mt,
    read_text p = Return content /\ loads content = Return rule /\
    build_regex rule = Return (OStr pattern) /\
    Re.compile pattern = Return re /\
    Re.search re raw_text = Some mt /\
    gd = Re.groupdict re raw_text mt.
Proof.
  unfold try_rule. intros H.
  destruct (read_text p) as [content| |] eqn:Er; simpl in H; try discriminate.
  destruct (loads content) as [rule'| |] eqn:El; simpl in H; try discriminate.
  destruct (build_regex rule') as [[pattern| | | |]| |] eqn:Eb; simpl in H;
    try discriminate.
  destruct (Re.compile pattern) as [re| |] eqn:Ec; simpl in H; try discriminate.
  destruct (Re.search re raw_text) as [mt|] eqn:Es; try discriminate.
  injection H as -> <-.
  exists content, pattern, re, mt. repeat split; auto.
Qed.

End Loop.

Lemma load_rule_return_inv root raw_text d :
  load_rule root raw_text = Return d ->
  exists t entries,
    root = Return t /\ iterdir t = Return entries /\
    for_rule_path raw_text (rule_files entries) = Return d.
Proof.
  unfold load_rule. intros H.
  destruct root as [t|e|]; [| destruct e; discriminate | discriminate].
  destruct (iterdir t) as [entries| |] eqn:E; simpl in H; try discriminate.
  exists t, entries. auto.
Qed.

Lemma rule_files_In entries p :
  In p (rule_files entries) <-> In p entries /\ is_rule_file p = true.
Proof.
  unfold rule_files. rewrite <- filter_In. split; intros H.
  - eapply Permutation_in; [apply Permutation_sym, sorted_perm | exact H].
  - eapply Permutation_in; [apply sorted_perm | exact H].
Qed.

(** ** The matcher finds every match *)

Section MatcherComplete.

Import Re.

Variable A : Type.
Variable s : string.

Lemma one_char_complete (p : ascii -> bool) i c (k : nat -> caps -> option A) b x :
  get i s = Some b -> p b = true -> k (S i) c = Some x ->
  exists y, one_char A s p i c k = Some y.
Proof. intros Hg Hp Hk. unfold one_char. rewrite Hg, Hp. eauto. Qed.

(** With fuel for every position that is left, a repetition, greedy or
    lazy, of a complete matcher is complete. *)
Lemma iterate_complete r mr :
  complete_for A s r mr ->
  forall i c j c',
    matches s (Star r) i c j c' -> i <= String.length s ->
    forall k x, k j c' = Some x ->
    forall fuel, String.length s - i < fuel ->
      (exists y, iterate A mr fuel i c k = Some y)
      /\ (exists y, iterate_lazy A mr fuel i c k = Some y).
Proof.
  intros Hmr i c j c' H. remember (Star r) as sr eqn:E.
  induction H; try discriminate; injection E as ->; intros Hi k x Hk fuel Hf.
  - destruct fuel as [|fuel]; [lia|]. simpl. rewrite Hk. split; [|eauto].
    destruct (mr i c _); eauto.
  - destruct fuel as [|fuel]; [lia|].
    pose proof (matches_in_text _ _ _ _ _ _ H Hi) as Hj.
    assert (String.length s - j < fuel) as Hf' by lia.
    destruct (IHmatches2 eq_refl Hj k x Hk fuel Hf') as (Hg & Hl).
    split; simpl.
    + destruct Hg as (y & Hy).
      destruct (Hmr i c j c1
                  (fun j0 c'0 => if Nat.ltb i j0 then iterate A mr fuel j0 c'0 k else None)
                  y H Hi) as (z & Hz).
      { apply Nat.ltb_lt in H0. rewrite H0. exact Hy. }
      rewrite Hz. eauto.
    + destruct (k i c); [eauto|].
      destruct Hl as (y & Hy).
      apply (Hmr i c j c1 _ y H Hi).
      apply Nat.ltb_lt in H0. rewrite H0. exact Hy.
Qed.

(** The matcher gives an answer whenever the pattern has a match on
    which the continuation succeeds. *)
Lemma m_complete r : complete_for A s r (m A s r).
Proof.
  induction r as [ | a | | neg items | | | r1 IH1 r2 IH2 | r1 IH1 r2 IH2
                 | r IH | r IH | r IH | r IH | r IH | r IH | g r IH ];
    intros i c j c' k x H Hi Hk; cbn [m].
  - inversion H; subst. eauto.
  - inversion H; subst. eapply one_char_complete; eauto. apply Ascii.eqb_refl.
  - inversion H; subst. eapply one_char_complete; eauto.
    apply negb_true_iff. assumption.
  - inversion H; subst. eapply one_char_complete; eauto.
  - inversion H; subst. simpl. eauto.
  - inversion H; subst. match goal with E : at_end _ _ = true |- _ => rewrite E end. eauto.
  - inversion H; subst.
    match goal with
    | H1 : matches s r1 _ _ ?j1 ?c1, H2 : matches s r2 ?j1 ?c1 _ _ |- _ =>
        pose proof (matches_in_text _ _ _ _ _ _ H1 Hi) as Hj1;
        destruct (IH2 _ _ _ _ k x H2 Hj1 Hk) as (y & Hy);
        apply (IH1 _ _ _ _ _ y H1 Hi Hy)
    end.
  - inversion H; subst.
    + match goal with H1 : matches s r1 _ _ _ _ |- _ =>
        destruct (IH1 _ _ _ _ k x H1 Hi Hk) as (y & Hy) end.
      rewrite Hy. eauto.
    + destruct (m A s r1 _ _ k); [eauto|].
      match goal with H2 : matches s r2 _ _ _ _ |- _ =>
        apply (IH2 _ _ _ _ k x H2 Hi Hk) end.
  - apply (iterate_complete r _ IH _ _ _ _ H Hi k x Hk). lia.
  - inversion H; subst.
    match goal with
    | H1 : matches s r _ _ ?j1 ?c1, H2 : matches s (Star r) ?j1 ?c1 _ _ |- _ =>
        pose proof (matches_in_text _ _ _ _ _ _ H1 Hi) as Hj1;
        destruct (proj1 (iterate_complete r _ IH _ _ _ _ H2 Hj1 k x Hk
                           (S (String.length s - j1)) (Nat.lt_succ_diag_r _)))
          as (y & Hy);
        apply (IH _ _ _ _ _ y H1 Hi Hy)
    end.
  - inversion H; subst.
    + match goal with H1 : matches s r _ _ _ _ |- _ =>
        destruct (IH _ _ _ _ k x H1 Hi Hk) as (y & Hy) end.
      rewrite Hy. eauto.
    + rewrite Hk. destruct (m A s r _ _ k); eauto.
  - inversion H; subst.
    match goal with H1 : matches s (Star r) _ _ _ _ |- _ =>
      apply (iterate_complete r _ IH _ _ _ _ H1 Hi k x Hk) end. lia.
  - inversion H; subst.
    match goal with H0 : matches s (Plus r) _ _ _ _ |- _ => inversion H0; subst end.
    match goal with
    | H1 : matches s r _ _ ?j1 ?c1, H2 : matches s (Star r) ?j1 ?c1 _ _ |- _ =>
        pose proof (matches_in_text _ _ _ _ _ _ H1 Hi) as Hj1;
        destruct (proj2 (iterate_complete r _ IH _ _ _ _ H2 Hj1 k x Hk
                           (S (String.length s - j1)) (Nat.lt_succ_diag_r _)))
          as (y & Hy);
        apply (IH _ _ _ _ _ y H1 Hi Hy)
    end.
  - inversion H; subst.
    match goal with H0 : matches s (Opt r) _ _ _ _ |- _ => inversion H0; subst end.
    + match goal with |- context [match k ?a ?b with _ => _ end] =>
        destruct (k a b) eqn:Hkk end; [eauto|].
      match goal with H1 : matches s r _ _ _ _ |- _ =>
        apply (IH _ _ _ _ k x H1 Hi Hk) end.
    + rewrite Hk. eauto.
  - inversion H; subst.
    + match goal with H1 : matches s r _ _ _ _ |- _ =>
        apply (IH _ _ _ _ _ x H1 Hi) end. exact Hk.
    + match goal with H1 : matches s r _ _ _ _ |- _ =>
        apply (IH _ _ _ _ k x H1 Hi Hk) end.
    + match goal with H1 : matches s r _ _ _ _ |- _ =>
        apply (IH _ _ _ _ k x H1 Hi Hk) end.
Qed.

End MatcherComplete.

Section SearchFacts.

Import Re.

Variable s : string.

Lemma match_at_complete r i j c :
  matches s r i [] j c -> i <= String.length s ->
  exists mt, match_at r s i = Some mt.
Proof.
  intros H Hi. unfold match_at.
  apply (m_complete Match s r i [] j c _ (mkMatch i j c) H Hi). reflexivity.
Qed.

Lemma search_from_None r n i :
  search_from r s n i = None ->
  forall i', i <= i' -> i' <= i + n -> match_at r s i' = None.
Proof.
  revert i. induction n as [|n IH]; intros i H i' L1 L2; simpl in H;
    destruct (match_at r s i) eqn:E; try discriminate.
  - assert (i' = i) by lia. subst. exact E.
  - destruct (Nat.eq_dec i' i) as [->|Hne]; [exact E|].
    apply (IH (S i) H); lia.
Qed.

(** A search fails exactly when the pattern has no match at any position
    of the text. *)
Lemma search_None_iff r :
  search r s = None <->
  forall i j c, i <= String.length s -> ~ matches s r i [] j c.
Proof.
  unfold search. split.
  - intros H i j c Hi Hm.
    destruct (match_at_complete r i j c Hm Hi) as (mt & Hmt).
    rewrite (search_from_None r _ 0 H i) in Hmt by lia. discriminate.
  - intros H. destruct (search_from r s (String.length s) 0) as [mt|] eqn:E;
      [|reflexivity].
    apply search_from_inv in E. destruct E as (i & _ & Hi & Hm).
    apply match_at_inv in Hm. destruct Hm as (j & c & Hm & _).
    exfalso. apply (H i j c); [lia | exact Hm].
Qed.

(** The match a search returns starts at the leftmost position that has a
    match. *)
Lemma search_leftmost r mt :
  search r s = Some mt ->
  forall i j c, i < m_start mt -> ~ matches s r i [] j c.
Proof.
  unfold search. intros H i j c Hi Hm.
  pose proof H as H'. apply search_from_inv in H'.
  destruct H' as (i' & _ & Hi' & Hat).
  apply match_at_inv in Hat. destruct Hat as (j' & c' & _ & ->).
  simpl in Hi.
  destruct (match_at_complete r i j c Hm) as (mt0 & Hmt0); [lia|].
  destruct (search_from_finds s r (String.length s) 0 i mt0 Hmt0)
    as (mt' & Hs & Hle); [lia | lia |].
  rewrite H in Hs. injection Hs as <-. simpl in Hle. lia.
Qed.

(** A pattern that cannot match the empty text takes at least one
    character. *)
Lemma nonnullable_progress r i c j c' :
  matches s r i c j c' -> nullable r = false -> i < j.
Proof.
  induction 1; simpl; intros Hn; try discriminate; auto;
    try (apply andb_false_iff in Hn);
    try (apply orb_false_iff in Hn);
    repeat match goal with
      | H : matches _ _ _ _ _ _ |- _ => apply matches_le in H
      end;
    try lia.
  - destruct Hn as [Hn|Hn]; [specialize (IHmatches1 Hn) | specialize (IHmatches2 Hn)];
      lia.
  - destruct Hn. auto.
  - destruct Hn. auto.
  - specialize (IHmatches1 Hn). lia.
Qed.

End SearchFacts.

(** * The claims *)

(** ** Failures *)

(** C1, as the code has it (counterexample to the claim): when the lookup
    of the rule storage raises ModuleNotFoundError, load_rule raises
    CNVError with the tag noparsingrule, the very failure it raises on an
    empty rule directory, where no rule matched. *)
Lemma C1_unavailable_source_has_no_rule_tag :
  load_rule (Raise ModuleNotFoundError) "H1D1" = Raise (CNVError "noparsingrule")
  /\ load_rule (store []) "H1D1" = Raise (CNVError "noparsingrule").
Proof. split; reflexivity. Qed.

(** C1, amended: a lookup of the rule storage that raises
    ModuleNotFoundError or FileNotFoundError makes load_rule raise CNVError
    with the tag noparsingrule. This is the failure of a detection in
    which no rule matched: the two cannot be told apart. *)
Theorem C1_source_unavailable (e : exn) (raw_text : string) :
  e = ModuleNotFoundError \/ e = FileNotFoundError ->
  load_rule (Raise e) raw_text = Raise (CNVError "noparsingrule")
  /\ forall entries,
       Forall (no_match raw_text) (rule_files entries) ->
       load_rule (Raise e) raw_text = load_rule (store entries) raw_text.
Proof.
  intros He.
  assert (load_rule (Raise e) raw_text = Raise (CNVError "noparsingrule")) as E
    by (destruct He as [-> | ->]; reflexivity).
  split; [exact E|].
  intros entries H. rewrite E. simpl. symmetry.
  apply for_rule_path_exhausted. exact H.
Qed.

Lemma C1_source_unavailable_witness :
  load_rule (Raise FileNotFoundError) "H1D1" = Raise (CNVError "noparsingrule")
  /\ load_rule (Raise FileNotFoundError) "H1D1"
     = load_rule (store [file "cnv01.json" rule_other]) "H1D1".
Proof.
  destruct (C1_source_unavailable FileNotFoundError "H1D1" (or_intror eq_refl))
    as (H1 & H2).
  split; [exact H1|]. apply H2. repeat constructor.
Defined.

(** The other failures of the storage are not caught: an exception of the
    lookup other than the two above, and any exception of the directory
    listing, leave load_rule as they are. *)
Lemma storage_failure_propagates (raw_text : string) :
  (forall e, e <> ModuleNotFoundError -> e <> FileNotFoundError ->
             load_rule (Raise e) raw_text = Raise e)
  /\ (forall e, load_rule (Return (mkTraversable (Raise e))) raw_text = Raise e).
Proof.
  split.
  - intros e H1 H2. destruct e; try reflexivity; congruence.
  - reflexivity.
Qed.

(** ** The order of evaluation *)

(** C2: when the rule files, in their order, start with files that do not
    match, followed by a file R1 that matches, load_rule returns what R1
    gives and not what a later matching file R2 gives; whatever comes
    after R1, be it files that could not even be read, changes nothing. *)
Theorem C2_first_match_wins (entries pre mid post : list Path) (r1 r2 : Path)
    (raw_text : string) (d1 d2 : detection) :
  rule_files entries = pre ++ r1 :: mid ++ r2 :: post ->
  Forall (no_match raw_text) pre ->
  try_rule raw_text r1 = Return (Some d1) ->
  try_rule raw_text r2 = Return (Some d2) ->
  load_rule (store entries) raw_text = Return d1
  /\ (d1 <> d2 -> load_rule (store entries) raw_text <> Return d2)
  /\ (forall later, for_rule_path raw_text (pre ++ r1 :: later) = Return d1).
Proof.
  intros Hfiles Hpre H1 _.
  assert (load_rule (store entries) raw_text = Return d1) as E
    by (simpl; rewrite Hfiles; apply for_rule_path_first; assumption).
  split; [exact E|]. split.
  - intros Hne. rewrite E. congruence.
  - intros later. apply for_rule_path_first; assumption.
Qed.

Lemma C2_first_match_wins_witness :
  rule_files some_rules
  = [file "cnv01.json" rule_other] ++ file "cnv02.json" rule_plain
      :: [] ++ file "cnv03.json" rule_one_header
      :: [mkPath "cnv04.json" (Raise PermissionError)]
  /\ try_rule "H1H2D1D2D3" (file "cnv02.json" rule_plain)
     = Return (Some (rule_plain_decoded,
                     [("header", Some "H1H2"); ("data", Some "D1D2D3")]))
  /\ try_rule "H1H2D1D2D3" (file "cnv03.json" rule_one_header)
     = Return (Some (JObj [("header", JStr "H\d"); ("data", JStr "D\d")],
                     [("header", Some "H2"); ("data", Some "D1D2D3")]))
  /\ load_rule (store some_rules) "H1H2D1D2D3"
     = Return (rule_plain_decoded,
               [("header", Some "H1H2"); ("data", Some "D1D2D3")]).
Proof.
  assert (rule_files some_rules
          = [file "cnv01.json" rule_other] ++ file "cnv02.json" rule_plain
              :: [] ++ file "cnv03.json" rule_one_header
              :: [mkPath "cnv04.json" (Raise PermissionError)]) as Hfiles
    by (vm_compute; reflexivity).
  assert (Forall (no_match "H1H2D1D2D3") [file "cnv01.json" rule_other]) as Hpre
    by (constructor; [vm_compute; reflexivity | constructor]).
  split; [exact Hfiles|].
  split; [vm_compute; reflexivity|].
  split; [vm_compute; reflexivity|].
  refine (proj1 (C2_first_match_wins some_rules _ _ _ _ _ "H1H2D1D2D3" _
                   (JObj [("header", JStr "H\d"); ("data", JStr "D\d")],
                    [("header", Some "H2"); ("data", Some "D1D2D3")])
                   Hfiles Hpre _ _));
    vm_compute; reflexivity.
Defined.

(** C3: when no rule file matches, load_rule raises CNVError with the tag
    noparsingrule, and this is the failure it raises when there is no rule
    file at all. *)
Theorem C3_no_rule_matched (entries : list Path) (raw_text : string) :
  Forall (no_match raw_text) (rule_files entries) ->
  load_rule (store entries) raw_text = Raise (CNVError "noparsingrule")
  /\ load_rule (store []) raw_text = Raise (CNVError "noparsingrule")
  /\ load_rule (store entries) raw_text = load_rule (store []) raw_text.
Proof.
  intros H.
  assert (load_rule (store entries) raw_text = Raise (CNVError "noparsingrule")) as E.
  { simpl. apply for_rule_path_exhausted. exact H. }
  rewrite E. repeat split; reflexivity.
Qed.

Lemma C3_no_rule_matched_witness :
  Forall (no_match "* Sea-Bird SBE 9 Data File:") (rule_files [file "cnv01.json" rule_other; file "cnv02.json" rule_plain])
  /\ load_rule (store [file "cnv01.json" rule_other; file "cnv02.json" rule_plain])
       "* Sea-Bird SBE 9 Data File:"
     = Raise (CNVError "noparsingrule").
Proof.
  assert (Forall (no_match "* Sea-Bird SBE 9 Data File:")
            (rule_files [file "cnv01.json" rule_other; file "cnv02.json" rule_plain]))
    as H by (repeat constructor).
  split; [exact H|].
  exact (proj1 (C3_no_rule_matched _ _ H)).
Defined.

(** ** Discovery *)

(** C8: the rule files are the entries of the directory whose name starts
    with cnv and ends with .json, each as often as the directory lists it,
    in ascending order of their names, code point by code point; the file
    refnames.json is never one of them. *)
Theorem C8_rule_discovery (entries : list Path) :
  (forall p, In p (rule_files entries) <->
             In p entries
             /\ (exists t, name p = ("cnv" ++ t)%string)
             /\ (exists t, name p = (t ++ ".json")%string))
  /\ Permutation (rule_files entries) (filter is_rule_file entries)
  /\ StronglySorted (fun p q => lex_le (name p) (name q)) (rule_files entries)
  /\ (forall p, In p (rule_files entries) -> name p <> "refnames.json").
Proof.
  assert (forall p, In p (rule_files entries) <->
             In p entries
             /\ (exists t, name p = ("cnv" ++ t)%string)
             /\ (exists t, name p = (t ++ ".json")%string)) as Hin.
  { intros p. rewrite rule_files_In. unfold is_rule_file.
    rewrite andb_true_iff, startswith_iff, endswith_iff. tauto. }
  split; [exact Hin|]. split; [|split].
  - apply Permutation_sym, sorted_perm.
  - apply sorted_ordered.
  - intros p Hp E. apply Hin in Hp. destruct Hp as (_ & (t & Ht) & _).
    rewrite E in Ht. discriminate.
Qed.

(** ** Building the grammar *)

Lemma compiled_eq rule pattern :
  build_regex rule = Return (OStr pattern) ->
  compiled rule = Re.compile pattern.
Proof. unfold compiled. intros ->. reflexivity. Qed.

Lemma build_regex_sep d h sp dt :
  dict_get d "header" = Some (JStr h) -> dict_get d "sep" = Some (JStr sp) ->
  dict_get d "data" = Some (JStr dt) ->
  build_regex (JObj d) = Return (OStr (h ++ sp ++ dt)).
Proof.
  intros Hh Hs Hd. unfold build_regex, dict_mem, getitem.
  rewrite Hs, Hh, Hd. simpl. rewrite append_assoc. reflexivity.
Qed.

Lemma build_regex_no_sep d h dt :
  dict_get d "header" = Some (JStr h) -> dict_get d "sep" = None ->
  dict_get d "data" = Some (JStr dt) ->
  build_regex (JObj d) = Return (OStr (two_groups h dt)).
Proof.
  intros Hh Hs Hd. unfold build_regex, dict_mem, getitem, two_groups.
  rewrite Hs, Hh, Hd. simpl. repeat rewrite append_assoc. reflexivity.
Qed.

(** The compiled grammar of a rule without separator whose patterns are
    complete on their own. *)
Lemma compiled_no_sep d h dt rh rd re :
  dict_get d "header" = Some (JStr h) -> dict_get d "sep" = None ->
  dict_get d "data" = Some (JStr dt) ->
  self_contained h rh -> self_contained dt rd ->
  compiled (JObj d) = Return re ->
  re = header_then_data rh (Re.Plus rd).
Proof.
  intros Hh Hs Hd Sh Sd Hc.
  rewrite (compiled_eq _ _ (build_regex_no_sep d h dt Hh Hs Hd)) in Hc.
  rewrite (compile_two_groups h dt rh rd Sh Sd) in Hc.
  destruct (Nat.ltb _ _); [discriminate|].
  destruct (negb _); [discriminate|]. destruct (negb _); [discriminate|].
  injection Hc as <-. reflexivity.
Qed.

(** C5: a rule whose header and data are pattern texts is compiled from
    one of two grammars. With a sep pattern, the grammar is the header
    pattern, the separator pattern and the data pattern, one after the
    other. Without sep, the grammar is the header pattern inside a group
    named header, followed by a group named data that holds the data
    pattern, repeated one or more times; for patterns that are complete on
    their own, this is also how the compiled grammar reads: the group
    header around the header pattern, then the group data around one or
    more repetitions of the data pattern. *)
Theorem C5_two_grammars (d : list (string * json)) (h dt : string) :
  dict_get d "header" = Some (JStr h) ->
  dict_get d "data" = Some (JStr dt) ->
  (forall sp, dict_get d "sep" = Some (JStr sp) ->
     build_regex (JObj d) = Return (OStr (h ++ sp ++ dt))
     /\ compiled (JObj d) = Re.compile (h ++ sp ++ dt))
  /\ (dict_get d "sep" = None ->
     build_regex (JObj d)
     = Return (OStr ("(?P<header>" ++ h ++ ")(?P<data>(?:" ++ dt ++ ")+)"))
     /\ compiled (JObj d)
        = Re.compile ("(?P<header>" ++ h ++ ")(?P<data>(?:" ++ dt ++ ")+)")
     /\ forall rh rd re,
          self_contained h rh -> self_contained dt rd ->
          compiled (JObj d) = Return re ->
          re = Re.Seq (Re.Sub (Re.Capturing (Some "header")) rh)
                      (Re.Sub (Re.Capturing (Some "data")) (Re.Plus rd))).
Proof.
  intros Hh Hd. split.
  - intros sp Hs. pose proof (build_regex_sep d h sp dt Hh Hs Hd) as Hb.
    split; [exact Hb | apply compiled_eq; exact Hb].
  - intros Hs. pose proof (build_regex_no_sep d h dt Hh Hs Hd) as Hb.
    split; [exact Hb|]. split; [apply compiled_eq; exact Hb|].
    intros rh rd re Sh Sd Hc.
    apply (compiled_no_sep d h dt rh rd re Hh Hs Hd Sh Sd Hc).
Qed.

Lemma C5_two_grammars_witness :
  build_regex (JObj [("header", JStr "H"); ("sep", JStr "-"); ("data", JStr "D")])
  = Return (OStr "H-D")
  /\ build_regex rule_plain_decoded
     = Return (OStr "(?P<header>(?:H\d)+)(?P<data>(?:D\d)+)")
  /\ self_contained "(?:H\d)+"
       (Re.Plus (Re.Seq (Re.Char "H") (Re.CharSet false [Re.CCat Re.Digit false])))
  /\ self_contained "D\d"
       (Re.Seq (Re.Char "D") (Re.CharSet false [Re.CCat Re.Digit false]))
  /\ compiled rule_plain_decoded
     = Return (Re.Seq
                 (Re.Sub (Re.Capturing (Some "header"))
                    (Re.Plus (Re.Seq (Re.Char "H")
                                (Re.CharSet false [Re.CCat Re.Digit false]))))
                 (Re.Sub (Re.Capturing (Some "data"))
                    (Re.Plus (Re.Seq (Re.Char "D")
                                (Re.CharSet false [Re.CCat Re.Digit false]))))).
Proof.
  assert (self_contained "(?:H\d)+"
            (Re.Plus (Re.Seq (Re.Char "H") (Re.CharSet false [Re.CCat Re.Digit false]))))
    as Sh by (vm_compute; reflexivity).
  assert (self_contained "D\d"
            (Re.Seq (Re.Char "D") (Re.CharSet false [Re.CCat Re.Digit false])))
    as Sd by (vm_compute; reflexivity).
  destruct (C5_two_grammars
              [("header", JStr "H"); ("sep", JStr "-"); ("data", JStr "D")]
              "H" "D" eq_refl eq_refl) as (Hsep & _).
  destruct (C5_two_grammars
              [("header", JStr "(?:H\d)+"); ("data", JStr "D\d")]
              "(?:H\d)+" "D\d" eq_refl eq_refl) as (_ & Hplain).
  destruct (Hplain eq_refl) as (Hb & Hc & Hshape).
  split; [exact (proj1 (Hsep "-" eq_refl))|]. split; [exact Hb|].
  split; [exact Sh|]. split; [exact Sd|].
  destruct (compiled rule_plain_decoded) as [re| |] eqn:E;
    [| vm_compute in E; discriminate E | vm_compute in E; discriminate E].
  rewrite (Hshape _ _ re Sh Sd E). reflexivity.
Defined.

(** ** Malformed records *)

Lemma try_rule_malformed raw_text p content e :
  read_text p = Return content -> malformed content e ->
  try_rule raw_text p = Raise e.
Proof.
  intros Hr Hm. unfold try_rule. rewrite Hr. simpl.
  destruct Hm as [Hl | d Hl Hh | d h Hl Hh Hs Hd]; rewrite Hl; simpl.
  - reflexivity.
  - unfold dict_mem, getitem. rewrite Hh.
    destruct (dict_get d "sep"); reflexivity.
  - unfold dict_mem, getitem. rewrite Hh, Hd.
    destruct Hs as [Hs | (sp & Hs)]; rewrite Hs; reflexivity.
Qed.

(** C4, as the code has it (counterexample to the claim): a directory with
    a rule file that matches the input and, after it, a rule file that is
    not JSON. No error is raised: load_rule returns the match of the first
    file and never reads the second. *)
Lemma C4_malformed_after_match_is_ignored :
  try_rule "H1D1" (file "cnv02.json" rule_cut) = Raise JSONDecodeError
  /\ load_rule (store [file "cnv01.json" rule_plain; file "cnv02.json" rule_cut])
       "H1D1"
     = Return (rule_plain_decoded, [("header", Some "H1"); ("data", Some "D1")]).
Proof. split; vm_compute; reflexivity. Qed.

(** C4, amended: rule files are read and decoded one at a time, inside
    the loop. A malformed record (text that is not JSON, an object without
    header, or an object without data whose other patterns are texts) is
    never skipped: when every rule file before it fails to match,
    load_rule raises the decoding or lookup error of that record, whatever
    the later files hold. When a rule file matches, the files after it,
    malformed or not, are not read. *)
Theorem C4_reached_malformed_rule_raises (raw_text : string) :
  (forall entries pre p post content e,
      rule_files entries = pre ++ p :: post ->
      Forall (no_match raw_text) pre ->
      read_text p = Return content ->
      malformed content e ->
      load_rule (store entries) raw_text = Raise e)
  /\ (forall entries pre p later d,
      rule_files entries = pre ++ p :: later ->
      Forall (no_match raw_text) pre ->
      try_rule raw_text p = Return (Some d) ->
      load_rule (store entries) raw_text = Return d
      /\ forall later', for_rule_path raw_text (pre ++ p :: later') = Return d).
Proof.
  split.
  - intros entries pre p post content e Hfiles Hpre Hr Hm. simpl. rewrite Hfiles.
    apply for_rule_path_raise; [exact Hpre|].
    eapply try_rule_malformed; eassumption.
  - intros entries pre p later d Hfiles Hpre Hp. split.
    + simpl. rewrite Hfiles. apply for_rule_path_first; assumption.
    + intros later'. apply for_rule_path_first; assumption.
Qed.

Lemma C4_reached_malformed_rule_raises_witness :
  malformed (text rule_no_header) (KeyError "header")
  /\ load_rule (store [file "cnv03.json" rule_plain;
                       file "cnv02.json" rule_no_header;
                       file "cnv01.json" rule_other]) "H1D1"
     = Raise (KeyError "header")
  /\ load_rule (store [file "cnv01.json" rule_plain;
                       file "cnv02.json" rule_no_header]) "H1D1"
     = Return (rule_plain_decoded, [("header", Some "H1"); ("data", Some "D1")]).
Proof.
  assert (malformed (text rule_no_header) (KeyError "header")) as Hm
    by (apply (malformed_no_header _ [("data", JStr "D\d")]); reflexivity).
  destruct (C4_reached_malformed_rule_raises "H1D1") as (Hraise & Hskip).
  split; [exact Hm|]. split.
  - apply (Hraise [file "cnv03.json" rule_plain;
                   file "cnv02.json" rule_no_header;
                   file "cnv01.json" rule_other]
             [file "cnv01.json" rule_other] (file "cnv02.json" rule_no_header)
             [file "cnv03.json" rule_plain] (text rule_no_header)).
    + vm_compute; reflexivity.
    + constructor; [vm_compute; reflexivity | constructor].
    + reflexivity.
    + exact Hm.
  - apply (Hskip [file "cnv01.json" rule_plain; file "cnv02.json" rule_no_header]
             [] (file "cnv01.json" rule_plain)
             [file "cnv02.json" rule_no_header]).
    + vm_compute; reflexivity.
    + constructor.
    + vm_compute; reflexivity.
Defined.

(** ** Searching *)

Lemma try_rule_compiled raw_text p content rule pattern re :
  read_text p = Return content -> loads content = Return rule ->
  build_regex rule = Return (OStr pattern) -> Re.compile pattern = Return re ->
  try_rule raw_text p
  = match Re.search re raw_text with
    | Some mt => Return (Some (rule, Re.groupdict re raw_text mt))
    | None => Return None
    end.
Proof.
  intros Hr Hl Hb Hc. unfold try_rule. rewrite Hr. simpl. rewrite Hl. simpl.
  rewrite Hb. simpl. rewrite Hc. reflexivity.
Qed.

(** C9: the compiled grammar is searched for, not matched against the
    whole input: when the grammar of a rule file matches the text that
    follows some leading noise, and no earlier rule file matches, the
    search finds a match that starts in the noise or right after it, and
    load_rule returns that rule. *)
Theorem C9_search_is_unanchored (entries pre rest : list Path) (p : Path)
    (noise body content pattern : string) (rule : json) (re : Re.regex)
    (mt : Re.Match) :
  rule_files entries = pre ++ p :: rest ->
  Forall (no_match (noise ++ body)) pre ->
  read_text p = Return content -> loads content = Return rule ->
  build_regex rule = Return (OStr pattern) -> Re.compile pattern = Return re ->
  Re.match_at re (noise ++ body) (String.length noise) = Some mt ->
  exists mt',
    Re.search re (noise ++ body) = Some mt'
    /\ Re.m_start mt' <= String.length noise
    /\ load_rule (store entries) (noise ++ body)
       = Return (rule, Re.groupdict re (noise ++ body) mt').
Proof.
  intros Hfiles Hpre Hr Hl Hb Hc Hm.
  destruct (search_from_finds (noise ++ body) re
              (String.length (noise ++ body)) 0 (String.length noise) mt Hm)
    as (mt' & Hs & Hle).
  - lia.
  - rewrite append_length. lia.
  - exists mt'. split; [exact Hs|]. split; [exact Hle|].
    simpl. rewrite Hfiles. apply for_rule_path_first; [exact Hpre|].
    rewrite (try_rule_compiled _ _ _ _ _ _ Hr Hl Hb Hc).
    unfold Re.search in Hs |- *. rewrite Hs. reflexivity.
Qed.

Lemma C9_search_is_unanchored_witness :
  Re.compile "(?P<header>(?:H\d)+)(?P<data>(?:D\d)+)"
  = Return (header_then_data
              (Re.Plus (Re.Seq (Re.Char "H") (Re.CharSet false [Re.CCat Re.Digit false])))
              (Re.Plus (Re.Seq (Re.Char "D") (Re.CharSet false [Re.CCat Re.Digit false]))))
  /\ Re.match_at
       (header_then_data
          (Re.Plus (Re.Seq (Re.Char "H") (Re.CharSet false [Re.CCat Re.Digit false])))
          (Re.Plus (Re.Seq (Re.Char "D") (Re.CharSet false [Re.CCat Re.Digit false]))))
       (banner ++ "H1H2D1D2D3") 0 = None
  /\ load_rule (store [file "cnv01.json" rule_plain]) (banner ++ "H1H2D1D2D3")
     = Return (rule_plain_decoded,
               [("header", Some "H1H2"); ("data", Some "D1D2D3")]).
Proof.
  split; [vm_compute; reflexivity|]. split; [vm_compute; reflexivity|].
  assert (Re.match_at
            (header_then_data
               (Re.Plus (Re.Seq (Re.Char "H") (Re.CharSet false [Re.CCat Re.Digit false])))
               (Re.Plus (Re.Seq (Re.Char "D") (Re.CharSet false [Re.CCat Re.Digit false]))))
            (banner ++ "H1H2D1D2D3") (String.length banner)
          = Some (Re.mkMatch 28 38 [("data", (32, 38)); ("header", (28, 32))]))
    as Hm by (vm_compute; reflexivity).
  destruct (C9_search_is_unanchored
              [file "cnv01.json" rule_plain] [] [] (file "cnv01.json" rule_plain)
              banner "H1H2D1D2D3" (text rule_plain)
              "(?P<header>(?:H\d)+)(?P<data>(?:D\d)+)" rule_plain_decoded _ _
              eq_refl (Forall_nil _) eq_refl eq_refl eq_refl eq_refl Hm)
    as (mt' & Hs & _ & Hload).
  rewrite Hload. f_equal. f_equal.
  assert (Some mt' = Some (Re.mkMatch 28 38 [("data", (32, 38)); ("header", (28, 32))]))
    as E by (rewrite <- Hs; vm_compute; reflexivity).
  injection E as ->. vm_compute. reflexivity.
Defined.

(** ** What a detection holds *)

Lemma nodupb_NoDup l : Re.nodupb l = true -> NoDup l.
Proof.
  induction l as [|x l IH]; simpl; intros H; [constructor|].
  apply andb_true_iff in H. destruct H as (Hx & Hl).
  constructor; [|auto].
  intros Hin. apply negb_true_iff in Hx.
  assert (existsb (String.eqb x) l = true) as E.
  { apply existsb_exists. exists x. split; [exact Hin | apply String.eqb_refl]. }
  congruence.
Qed.

(** A compiled pattern names no group twice. *)
Lemma compile_NoDup pattern re :
  Re.compile pattern = Return re -> NoDup (Re.gnames re).
Proof.
  unfold Re.compile. intros H.
  destruct (Nat.ltb _ _); [discriminate|].
  destruct (Re.parse_sub _ pattern) as [[r rest]| |]; simpl in H;
    try discriminate.
  destruct rest; [|discriminate].
  destruct (Re.nodupb (Re.gnames r)) eqn:E; simpl in H; [|discriminate].
  destruct (Re.modelled r); simpl in H; [|discriminate].
  injection H as <-. apply nodupb_NoDup. exact E.
Qed.

Lemma gd_get_map (g : string -> option string) names n :
  In n names ->
  gd_get n (map (fun x => (x, g x)) names) = Some (g n).
Proof.
  induction names as [|x names IH]; simpl; intros H; [contradiction|].
  destruct (String.eqb x n) eqn:E.
  - apply String.eqb_eq in E. subst. reflexivity.
  - destruct H as [->|H]; [rewrite String.eqb_refl in E; discriminate|].
    apply IH. exact H.
Qed.

Lemma lookup_In n (c : Re.caps) sp : Re.lookup n c = Some sp -> In (n, sp) c.
Proof.
  induction c as [|[n' sp'] c IH]; simpl; intros H; [discriminate|].
  destruct (String.eqb n' n) eqn:E.
  - apply String.eqb_eq in E. injection H as ->. subst. left. reflexivity.
  - right. apply IH. exact H.
Qed.

(** A returned detection is the decoded record of a rule file together
    with the group dict of the first match of its grammar in the input. *)
Lemma detection_inv root raw_text rule gd :
  load_rule root raw_text = Return (rule, gd) ->
  exists t entries pre p post content pattern re i j c,
    root = Return t /\ iterdir t = Return entries /\
    rule_files entries = pre ++ p :: post /\
    Forall (no_match raw_text) pre /\
    read_text p = Return content /\ loads content = Return rule /\
    build_regex rule = Return (OStr pattern) /\
    Re.compile pattern = Return re /\
    Re.search re raw_text = Some (Re.mkMatch i j c) /\
    Re.matches raw_text re i [] j c /\
    i <= j /\ j <= String.length raw_text /\
    gd = Re.groupdict re raw_text (Re.mkMatch i j c).
Proof.
  intros H. apply load_rule_return_inv in H.
  destruct H as (t & entries & -> & Hit & H).
  apply for_rule_path_return_inv in H.
  destruct H as (pre & p & post & Hfiles & Hpre & H).
  apply try_rule_Some_inv in H.
  destruct H as (content & pattern & re & mt & Hr & Hl & Hb & Hc & Hs & ->).
  pose proof Hs as Hs'. unfold Re.search in Hs'.
  apply search_from_inv in Hs'. destruct Hs' as (i & _ & Hi & Hm).
  apply match_at_inv in Hm. destruct Hm as (j & c & Hm & ->).
  exists t, entries, pre, p, post, content, pattern, re, i, j, c.
  repeat split; auto.
  - eapply matches_le; eassumption.
  - eapply matches_in_text; [eassumption | lia].
Qed.

(** The spans of the two groups in a match of a header group followed by
    a data group: the header ends where the data starts. *)
Lemma header_then_data_spans s rh rd i j c :
  Re.matches s (header_then_data rh rd) i [] j c ->
  ~ In "header" (Re.gnames rd) ->
  exists b,
    i <= b /\ b <= j /\
    Re.lookup "header" c = Some (i, b) /\ Re.lookup "data" c = Some (b, j).
Proof.
  unfold header_then_data. intros H Hfresh.
  inversion H; subst; clear H.
  repeat match goal with
    | Hg : Re.matches _ (Re.Sub _ _) _ _ _ _ |- _ =>
        inversion Hg; subst; clear Hg
    end.
  match goal with
  | Hh : Re.matches s rh i [] ?b _, Hd : Re.matches s rd ?b _ j _ |- _ =>
      exists b; split; [exact (matches_le _ _ _ _ _ _ Hh)|];
      split; [exact (matches_le _ _ _ _ _ _ Hd)|]; split;
      [ simpl; rewrite (matches_frame _ _ _ _ _ _ "header" Hd Hfresh);
        reflexivity
      | reflexivity ]
  end.
Qed.

(** ** The two regions *)

(** C10, as the code has it (counterexample to the claim): a rule without
    sep whose header pattern closes the header group itself. On the input
    HxDD the detection succeeds with header H, at 0..1, and data DD, at
    2..4: the data does not begin where the header ends, and header and
    data together are not the matched text HxDD. *)
Lemma C10_header_and_data_apart :
  build_regex (JObj [("header", JStr "H)x(?:"); ("data", JStr "D")])
  = Return (OStr "(?P<header>H)x(?:)(?P<data>(?:D)+)")
  /\ (exists re,
        Re.compile "(?P<header>H)x(?:)(?P<data>(?:D)+)" = Return re
        /\ Re.search re "HxDD"
           = Some (Re.mkMatch 0 4 [("data", (2, 4)); ("header", (0, 1))]))
  /\ load_rule (store [file "cnv01.json" "{'header': 'H)x(?:', 'data': 'D'}"])
       "HxDD"
     = Return (JObj [("header", JStr "H)x(?:"); ("data", JStr "D")],
               [("header", Some "H"); ("data", Some "DD")])
  /\ ("H" ++ "DD")%string <> substring 0 4 "HxDD".
Proof.
  split; [reflexivity|]. split; [|split].
  - exists (Re.Seq (Re.Sub (Re.Capturing (Some "header")) (Re.Char "H"))
              (Re.Seq (Re.Char "x")
                 (Re.Seq (Re.Sub Re.NonCapturing Re.Empty)
                    (Re.Sub (Re.Capturing (Some "data")) (Re.Plus (Re.Char "D")))))).
    split; vm_compute; reflexivity.
  - vm_compute. reflexivity.
  - discriminate.
Qed.

(** The two regions of a detection by a grammar that is a header group
    followed by a data group. *)
Lemma detection_header_then_data (root : result Traversable) (raw_text : string)
    (rule : json) (gd : list (string * option string)) (rh rd : Re.regex) :
  load_rule root raw_text = Return (rule, gd) ->
  compiled rule = Return (header_then_data rh rd) ->
  exists a b e mt,
    Re.search (header_then_data rh rd) raw_text = Some mt
    /\ Re.m_start mt = a /\ Re.m_end mt = e
    /\ a <= b /\ b <= e /\ e <= String.length raw_text
    /\ gd_get "header" gd = Some (Some (substring a (b - a) raw_text))
    /\ gd_get "data" gd = Some (Some (substring b (e - b) raw_text))
    /\ (substring a (b - a) raw_text ++ substring b (e - b) raw_text)%string
       = Re.group0 raw_text mt
    /\ map fst gd = "header" :: Re.gnames rh ++ "data" :: Re.gnames rd.
Proof.
  intros Hload Hshape.
  apply detection_inv in Hload.
  destruct Hload as (t & entries & pre & p & post & content & pattern & re
                     & i & j & c
                     & _ & _ & _ & _ & _ & _ & Hb & Hc & Hs & Hm & _ & Hj & ->).
  rewrite (compiled_eq _ _ Hb), Hc in Hshape. injection Hshape as ->.
  apply compile_NoDup in Hc. simpl in Hc.
  assert (~ In "header" (Re.gnames rd)) as Hfresh.
  { apply NoDup_cons_iff in Hc. destruct Hc as (Hc & _).
    intros Hin. apply Hc. apply in_or_app. right. right. exact Hin. }
  destruct (header_then_data_spans _ _ _ _ _ _ Hm Hfresh)
    as (b & Hib & Hbj & Hh & Hd).
  exists i, b, j, (Re.mkMatch i j c).
  split; [exact Hs|]. repeat (split; [solve [auto]|]).
  unfold Re.groupdict. simpl Re.m_caps. split; [|split; [|split]].
  - rewrite gd_get_map by (simpl; auto). rewrite Hh. reflexivity.
  - rewrite gd_get_map
      by (simpl; right; apply in_or_app; right; left; reflexivity).
    rewrite Hd. reflexivity.
  - unfold Re.group0. simpl.
    pose proof (substring_split raw_text i (b - i) (j - b)) as E.
    replace (i + (b - i)) with b in E by lia.
    replace (b - i + (j - b)) with (j - i) in E by lia.
    exact E.
  - rewrite map_map. simpl. rewrite map_id. reflexivity.
Qed.

(** C10, amended: for every rule without sep whose header and data
    patterns are complete patterns on their own, every successful
    detection captures the two regions side by side: the data begins where
    the header ends, and header and data together are the matched text. *)
Theorem C10_header_data_adjacent (root : result Traversable) (raw_text : string)
    (d : list (string * json)) (gd : list (string * option string))
    (h dt : string) (rh rd : Re.regex) :
  load_rule root raw_text = Return (JObj d, gd) ->
  dict_get d "sep" = None ->
  dict_get d "header" = Some (JStr h) ->
  dict_get d "data" = Some (JStr dt) ->
  self_contained h rh -> self_contained dt rd ->
  exists a b e mt,
    Re.search (header_then_data rh (Re.Plus rd)) raw_text = Some mt
    /\ Re.m_start mt = a /\ Re.m_end mt = e
    /\ a <= b /\ b <= e /\ e <= String.length raw_text
    /\ gd_get "header" gd = Some (Some (substring a (b - a) raw_text))
    /\ gd_get "data" gd = Some (Some (substring b (e - b) raw_text))
    /\ (substring a (b - a) raw_text ++ substring b (e - b) raw_text)%string
       = Re.group0 raw_text mt.
Proof.
  intros Hload Hs Hh Hd Sh Sd.
  assert (compiled (JObj d) = Return (header_then_data rh (Re.Plus rd))) as Hc.
  { pose proof Hload as H. apply detection_inv in H.
    destruct H as (t & entries & pre & p & post & content & pattern & re
                   & i & j & c & _ & _ & _ & _ & _ & _ & Hb & Hc & _).
    rewrite (compiled_eq _ _ Hb), Hc. f_equal.
    apply (compiled_no_sep d h dt rh rd re Hh Hs Hd Sh Sd).
    rewrite (compiled_eq _ _ Hb). exact Hc. }
  destruct (detection_header_then_data _ _ _ _ _ _ Hload Hc)
    as (a & b & e & mt & H1 & H2 & H3 & H4 & H5 & H6 & H7 & H8 & H9 & _).
  exists a, b, e, mt. auto 10.
Qed.

Lemma C10_header_data_adjacent_witness :
  self_contained "(?:H\d)+"
    (Re.Plus (Re.Seq (Re.Char "H") (Re.CharSet false [Re.CCat Re.Digit false])))
  /\ self_contained "D\d"
       (Re.Seq (Re.Char "D") (Re.CharSet false [Re.CCat Re.Digit false]))
  /\ load_rule (store some_rules) (banner ++ "H1H2D1D2D3 end")
     = Return (rule_plain_decoded,
               [("header", Some "H1H2"); ("data", Some "D1D2D3")])
  /\ exists a b e,
       a <= b /\ b <= e
       /\ substring a (b - a) (banner ++ "H1H2D1D2D3 end") = "H1H2"
       /\ substring b (e - b) (banner ++ "H1H2D1D2D3 end") = "D1D2D3".
Proof.
  assert (self_contained "(?:H\d)+"
            (Re.Plus (Re.Seq (Re.Char "H") (Re.CharSet false [Re.CCat Re.Digit false]))))
    as Sh by (vm_compute; reflexivity).
  assert (self_contained "D\d"
            (Re.Seq (Re.Char "D") (Re.CharSet false [Re.CCat Re.Digit false])))
    as Sd by (vm_compute; reflexivity).
  assert (load_rule (store some_rules) (banner ++ "H1H2D1D2D3 end")
          = Return (rule_plain_decoded,
                    [("header", Some "H1H2"); ("data", Some "D1D2D3")])) as Hload
    by (vm_compute; reflexivity).
  split; [exact Sh|]. split; [exact Sd|]. split; [exact Hload|].
  destruct (C10_header_data_adjacent _ _ _ _ _ _ _ _ Hload eq_refl eq_refl eq_refl
              Sh Sd)
    as (a & b & e & mt & _ & _ & _ & Hab & Hbe & _ & Hh & Hd & _).
  exists a, b, e. simpl in Hh, Hd.
  injection Hh as Hh. injection Hd as Hd. auto.
Defined.

(** ** The result of a detection *)

Lemma named_groups_names r : map fst (named_groups r) = Re.gnames r.
Proof.
  induction r as [ | a | | neg items | | | r1 IH1 r2 IH2 | r1 IH1 r2 IH2
                 | r IH | r IH | r IH | r IH | r IH | r IH | g r IH ];
    simpl; try reflexivity; try assumption;
    try (rewrite map_app, IH1, IH2; reflexivity).
  destruct g as [|[n|]]; simpl; [assumption | rewrite IH; reflexivity | assumption].
Qed.

Lemma captured_by_weaken s r r' e :
  captured_by s r e -> incl (named_groups r) (named_groups r') ->
  captured_by s r' e.
Proof.
  intros (rn & c1 & c2 & Hin & Hm) Hincl. exists rn, c1, c2. auto.
Qed.

(** Every span that a match records is a capture of a group of its
    name. *)
Lemma matches_captured s r i c j c' :
  Re.matches s r i c j c' ->
  exists new, c' = new ++ c /\ Forall (captured_by s r) new.
Proof.
  induction 1 as [ i c | a i c Hg | b i c Hg Hb | neg items b i c Hg Hx | c
                 | i c He
                 | r1 r2 i c j c1 j' c' H1 IH1 H2 IH2
                 | r1 r2 i c j c' H1 IH1 | r1 r2 i c j c' H1 IH1
                 | r i c | r i c j c1 j' c' H1 IH1 Hlt H2 IH2
                 | r i c j c1 j' c' H1 IH1 H2 IH2
                 | r i c j c' H1 IH1 | r i c
                 | r i c j c' H1 IH1 | r i c j c' H1 IH1 | r i c j c' H1 IH1
                 | n r i c j c' H1 IH1 | r i c j c' H1 IH1 | r i c j c' H1 IH1 ];
    try (exists []; split; [reflexivity | constructor]);
    repeat match goal with
      | IH : exists _, _ /\ _ |- _ =>
          let n := fresh "new" in
          let F := fresh "F" in
          destruct IH as (n & -> & F)
      end.
  - (* Seq *)
    eexists. split; [rewrite app_assoc; reflexivity|].
    apply Forall_app. split;
      (eapply Forall_impl; [|eassumption]; intros e He;
       eapply captured_by_weaken; [exact He|]; simpl;
       auto using incl_appl, incl_appr, incl_refl).
  - eexists. split; [reflexivity|].
    eapply Forall_impl; [|eassumption]. intros e He.
    eapply captured_by_weaken; [exact He|]. simpl. apply incl_appl, incl_refl.
  - eexists. split; [reflexivity|].
    eapply Forall_impl; [|eassumption]. intros e He.
    eapply captured_by_weaken; [exact He|]. simpl. apply incl_appr, incl_refl.
  - (* Star, one more *)
    eexists. split; [rewrite app_assoc; reflexivity|].
    apply Forall_app. split; assumption.
  - (* Plus *)
    eexists. split; [rewrite app_assoc; reflexivity|].
    apply Forall_app. split; assumption.
  - eexists. split; [reflexivity | assumption].
  - eexists. split; [reflexivity | assumption].
  - eexists. split; [reflexivity | assumption].
  - eexists. split; [reflexivity | assumption].
  - (* named group *)
    eexists. split; [apply app_comm_cons|].
    constructor.
    + exists r, c, (new ++ c). simpl. split; [left; reflexivity | exact H1].
    + eapply Forall_impl; [|eassumption]. intros e He.
      eapply captured_by_weaken; [exact He|]. simpl. apply incl_tl, incl_refl.
  - eexists. split; [reflexivity | assumption].
  - eexists. split; [reflexivity | assumption].
Qed.

(** C7, as the code has it (counterexample to the claim): the same rule
    stored under two names gives the same result. What load_rule returns
    is the decoded rule; neither the name of the rule file nor anything
    derived from it is part of the result. *)
Lemma C7_result_does_not_name_the_rule :
  load_rule (store [file "cnv01.json" rule_plain]) "H1D1"
  = Return (rule_plain_decoded, [("header", Some "H1"); ("data", Some "D1")])
  /\ load_rule (store [file "cnv99.json" rule_plain]) "H1D1"
     = Return (rule_plain_decoded, [("header", Some "H1"); ("data", Some "D1")])
  /\ name (file "cnv01.json" rule_plain) <> name (file "cnv99.json" rule_plain).
Proof.
  split; [vm_compute; reflexivity|]. split; [vm_compute; reflexivity|].
  discriminate.
Qed.

(** C7, amended: a successful detection returns the decoded record of the
    winning rule file, the first in order that matches (its header, data
    and sep patterns, not its name), together with the group dict of the
    first match of its grammar, which no match to its left precedes: a
    mapping from the names of the grammar's named groups to texts, each
    text being the exact piece of the input, inside the matched span,
    that the group captured. The group dict has
    each named group of the grammar once; its value is the text of the
    span that the match holds for the group, or None when the match holds
    none; and each span that the match holds is one from whose start to
    whose end the pattern inside a group of that name matches the
    input. *)
Theorem C7_detection_result (root : result Traversable) (raw_text : string)
    (rule : json) (gd : list (string * option string)) :
  load_rule root raw_text = Return (rule, gd) ->
  exists t entries pre p post content re mt,
    root = Return t /\ iterdir t = Return entries
    /\ rule_files entries = pre ++ p :: post
    /\ Forall (no_match raw_text) pre
    /\ read_text p = Return content /\ loads content = Return rule
    /\ compiled rule = Return re
    /\ Re.search re raw_text = Some mt
    /\ Re.m_start mt <= Re.m_end mt /\ Re.m_end mt <= String.length raw_text
    /\ map fst gd = Re.gnames re
    /\ (forall n v, In (n, Some v) gd ->
          exists a b, Re.m_start mt <= a /\ a <= b /\ b <= Re.m_end mt
                      /\ v = substring a (b - a) raw_text)
    /\ Re.matches raw_text re (Re.m_start mt) [] (Re.m_end mt) (Re.m_caps mt)
    /\ (forall i j c, i < Re.m_start mt -> ~ Re.matches raw_text re i [] j c)
    /\ NoDup (map fst gd)
    /\ (forall n, In n (Re.gnames re) ->
          gd_get n gd = Some (span_text raw_text (Re.lookup n (Re.m_caps mt))))
    /\ (forall n a b, Re.lookup n (Re.m_caps mt) = Some (a, b) ->
          Re.m_start mt <= a /\ a <= b /\ b <= Re.m_end mt
          /\ exists rn c1 c2,
               In (n, rn) (named_groups re)
               /\ Re.matches raw_text rn a c1 b c2).
Proof.
  intros Hload. apply detection_inv in Hload.
  destruct Hload as (t & entries & pre & p & post & content & pattern & re
                     & i & j & c & -> & Hit & Hfiles & Hpre & Hr & Hl & Hb & Hc
                     & Hs & Hm & Hij & Hj & ->).
  exists t, entries, pre, p, post, content, re, (Re.mkMatch i j c). simpl.
  repeat (split; [solve [auto]|]).
  split; [rewrite (compiled_eq _ _ Hb); exact Hc|].
  repeat (split; [solve [auto]|]).
  assert (map fst (Re.groupdict re raw_text (Re.mkMatch i j c)) = Re.gnames re)
    as Hkeys.
  { unfold Re.groupdict. rewrite map_map. simpl. apply map_id. }
  split; [exact Hkeys|].
  assert (forall n a b, Re.lookup n c = Some (a, b) ->
            i <= a /\ a <= b /\ b <= j
            /\ exists rn c1 c2,
                 In (n, rn) (named_groups re)
                 /\ Re.matches raw_text rn a c1 b c2) as Hspan.
  { intros n a b El. apply lookup_In in El.
    pose proof (matches_records _ _ _ _ _ _ Hm) as (new & E & F).
    pose proof (matches_captured _ _ _ _ _ _ Hm) as (new' & E' & F').
    rewrite app_nil_r in E, E'. subst new new'.
    rewrite Forall_forall in F, F'.
    destruct (F _ El) as (_ & H1 & H2 & H3).
    destruct (F' _ El) as (rn & c1 & c2 & Hin & Hrn). simpl in *.
    repeat split; auto. exists rn, c1, c2. auto. }
  split; [|split; [exact Hm|split; [|split; [|split; [|exact Hspan]]]]].
  - intros n v Hv. unfold Re.groupdict in Hv. simpl in Hv.
    apply in_map_iff in Hv. destruct Hv as (n' & E & _).
    injection E as -> E.
    destruct (Re.lookup n c) as [[a b]|] eqn:El; [|discriminate].
    injection E as <-.
    destruct (Hspan n a b El) as (H1 & H2 & H3 & _).
    exists a, b. auto.
  - exact (search_leftmost raw_text re _ Hs).
  - rewrite Hkeys. eapply compile_NoDup. exact Hc.
  - intros n Hn. unfold Re.groupdict. simpl Re.m_caps.
    rewrite (gd_get_map
               (fun x => option_map (fun '(a, b) => substring a (b - a) raw_text)
                                    (Re.lookup x c)) _ _ Hn).
    destruct (Re.lookup n c) as [[a b]|]; reflexivity.
Qed.

Lemma C7_detection_result_witness :
  load_rule (store some_rules) (banner ++ "H1H2D1D2D3 end")
  = Return (rule_plain_decoded, [("header", Some "H1H2"); ("data", Some "D1D2D3")])
  /\ exists p, In p (rule_files some_rules)
               /\ read_text p = Return (text rule_plain)
               /\ loads (text rule_plain) = Return rule_plain_decoded.
Proof.
  assert (load_rule (store some_rules) (banner ++ "H1H2D1D2D3 end")
          = Return (rule_plain_decoded,
                    [("header", Some "H1H2"); ("data", Some "D1D2D3")])) as Hload
    by (vm_compute; reflexivity).
  split; [exact Hload|].
  destruct (C7_detection_result _ _ _ _ Hload)
    as (t & entries & pre & p & post & content & re & mt & Ht & Hit & _).
  injection Ht as <-. injection Hit as <-.
  exists (file "cnv02.json" rule_plain).
  split; [vm_compute; tauto|]. split; reflexivity.
Defined.

(** ** The shape of a compiled rule *)

(** C6, as the code has it (counterexample to the claim): a rule with sep
    whose patterns name no group. Its grammar H-D compiles, it has no named
    group at all, no error is raised, and the detection succeeds with an
    empty group dict. *)
Lemma C6_rule_without_named_regions :
  compiled (JObj [("header", JStr "H"); ("sep", JStr "-"); ("data", JStr "D")])
  = Return (Re.Seq (Re.Char "H") (Re.Seq (Re.Char "-") (Re.Char "D")))
  /\ Re.gnames (Re.Seq (Re.Char "H") (Re.Seq (Re.Char "-") (Re.Char "D"))) = []
  /\ load_rule (store [file "cnv01.json" rule_sep]) "H-D"
     = Return (JObj [("header", JStr "H"); ("sep", JStr "-"); ("data", JStr "D")],
               []).
Proof. repeat split; vm_compute; reflexivity. Qed.

(** C6, amended: the shape of a compiled rule is not checked. A
    successful detection exposes the two regions header and data, and no
    other, when the rule has no sep and its header and data patterns are
    complete patterns on their own that name no group. A rule with sep is
    compiled from the bare concatenation of its header, sep and data
    patterns, and a detection by it exposes the named groups of that
    concatenation and no other, be there none. Only a grammar that does
    not compile is an error: when the loop reaches such a rule, no earlier
    rule having matched, load_rule raises re.error instead of going on to
    the next rule. *)
Theorem C6_named_regions :
  (forall root raw_text d gd h dt rh rd,
      load_rule root raw_text = Return (JObj d, gd) ->
      dict_get d "sep" = None ->
      dict_get d "header" = Some (JStr h) ->
      dict_get d "data" = Some (JStr dt) ->
      self_contained h rh -> self_contained dt rd ->
      Re.gnames rh = [] -> Re.gnames rd = [] ->
      exists hs ds, gd = [("header", Some hs); ("data", Some ds)])
  /\ (forall entries pre p post raw_text content rule,
      rule_files entries = pre ++ p :: post ->
      Forall (no_match raw_text) pre ->
      read_text p = Return content -> loads content = Return rule ->
      compiled rule = Raise re_error ->
      load_rule (store entries) raw_text = Raise re_error)
  /\ (forall root raw_text d gd h sp dt,
      load_rule root raw_text = Return (JObj d, gd) ->
      dict_get d "sep" = Some (JStr sp) ->
      dict_get d "header" = Some (JStr h) ->
      dict_get d "data" = Some (JStr dt) ->
      exists re,
        Re.compile (h ++ sp ++ dt) = Return re
        /\ map fst gd = Re.gnames re
        /\ (Re.gnames re = [] -> gd = [])).
Proof.
  split; [|split]; cycle 2.
  { intros root raw_text d gd h sp dt Hload Hs Hh Hd.
    apply detection_inv in Hload.
    destruct Hload as (t & entries & pre & p & post & content & pattern & re
                       & i & j & c & _ & _ & _ & _ & _ & _ & Hb & Hc & _ & _
                       & _ & _ & ->).
    rewrite (build_regex_sep d h sp dt Hh Hs Hd) in Hb. injection Hb as <-.
    exists re. split; [exact Hc|].
    assert (map fst (Re.groupdict re raw_text (Re.mkMatch i j c)) = Re.gnames re)
      as Hkeys by (unfold Re.groupdict; rewrite map_map; simpl; apply map_id).
    split; [exact Hkeys|].
    intros Hnone. unfold Re.groupdict. rewrite Hnone. reflexivity. }
  - intros root raw_text d gd h dt rh rd Hload Hs Hh Hd Sh Sd Hrh Hrd.
    assert (compiled (JObj d) = Return (header_then_data rh (Re.Plus rd))) as Hc.
    { pose proof Hload as H. apply detection_inv in H.
      destruct H as (t & entries & pre & p & post & content & pattern & re
                     & i & j & c & _ & _ & _ & _ & _ & _ & Hb & Hc & _).
      rewrite (compiled_eq _ _ Hb), Hc. f_equal.
      apply (compiled_no_sep d h dt rh rd re Hh Hs Hd Sh Sd).
      rewrite (compiled_eq _ _ Hb). exact Hc. }
    destruct (detection_header_then_data _ _ _ _ _ _ Hload Hc)
      as (a & b & e & mt & _ & _ & _ & _ & _ & _ & H7 & H8 & _ & Hkeys).
    simpl in Hkeys. rewrite Hrh, Hrd in Hkeys. simpl in Hkeys.
    destruct gd as [|[n1 v1] [|[n2 v2] [|]]]; try discriminate.
    simpl in Hkeys. injection Hkeys as -> ->.
    simpl in H7, H8. injection H7 as ->. injection H8 as ->. eauto.
  - intros entries pre p post raw_text content rule Hfiles Hpre Hr Hl Hc.
    simpl. rewrite Hfiles. apply for_rule_path_raise; [exact Hpre|].
    unfold try_rule. rewrite Hr. simpl. rewrite Hl. simpl.
    unfold compiled in Hc.
    destruct (build_regex rule) as [regex| |]; simpl in *; try discriminate.
    + rewrite Hc. reflexivity.
    + injection Hc as ->. reflexivity.
Qed.

Lemma C6_named_regions_witness :
  (exists hs ds,
      [("header", Some "H1H2"); ("data", Some "D1D2D3")]
      = [("header", Some hs); ("data", Some ds)])
  /\ compiled (JObj [("header", JStr "H\d)+"); ("data", JStr "D\d")])
     = Raise re_error
  /\ load_rule (store [file "cnv02.json" rule_plain;
                       file "cnv01.json" "{'header': 'H\\d)+', 'data': 'D\\d'}"])
       "H1H2D1D2D3"
     = Raise re_error
  /\ load_rule (store [file "cnv01.json" rule_sep_named]) "abc|123"
     = Return (JObj [("header", JStr "(?P<header>[a-z]+)"); ("sep", JStr "\|");
                     ("data", JStr "(?P<data>[0-9]+)")],
               [("header", Some "abc"); ("data", Some "123")])
  /\ exists re,
       Re.compile ("(?P<header>[a-z]+)" ++ "\|" ++ "(?P<data>[0-9]+)") = Return re
       /\ map fst [("header", Some "abc"); ("data", Some "123")] = Re.gnames re.
Proof.
  assert (load_rule (store [file "cnv01.json" rule_sep_named]) "abc|123"
          = Return (JObj [("header", JStr "(?P<header>[a-z]+)"); ("sep", JStr "\|");
                          ("data", JStr "(?P<data>[0-9]+)")],
                    [("header", Some "abc"); ("data", Some "123")])) as Hsep
    by (vm_compute; reflexivity).
  assert (load_rule (store some_rules) (banner ++ "H1H2D1D2D3 end")
          = Return (rule_plain_decoded,
                    [("header", Some "H1H2"); ("data", Some "D1D2D3")])) as Hload
    by (vm_compute; reflexivity).
  assert (self_contained "(?:H\d)+"
            (Re.Plus (Re.Seq (Re.Char "H") (Re.CharSet false [Re.CCat Re.Digit false]))))
    as Sh by (vm_compute; reflexivity).
  assert (self_contained "D\d"
            (Re.Seq (Re.Char "D") (Re.CharSet false [Re.CCat Re.Digit false])))
    as Sd by (vm_compute; reflexivity).
  assert (compiled (JObj [("header", JStr "H\d)+"); ("data", JStr "D\d")])
          = Raise re_error) as Hbad by (vm_compute; reflexivity).
  assert (rule_files [file "cnv02.json" rule_plain;
                      file "cnv01.json" "{'header': 'H\\d)+', 'data': 'D\\d'}"]
          = [] ++ file "cnv01.json" "{'header': 'H\\d)+', 'data': 'D\\d'}"
               :: [file "cnv02.json" rule_plain]) as Hfiles
    by (vm_compute; reflexivity).
  assert (loads (text "{'header': 'H\\d)+', 'data': 'D\\d'}")
          = Return (JObj [("header", JStr "H\d)+"); ("data", JStr "D\d")]))
    as Hl by (vm_compute; reflexivity).
  split; [|split; [|split; [|split]]].
  - exact (proj1 C6_named_regions _ _ _ _ _ _ _ _ Hload eq_refl eq_refl eq_refl
             Sh Sd eq_refl eq_refl).
  - exact Hbad.
  - exact (proj1 (proj2 C6_named_regions) _ _ _ _ "H1H2D1D2D3" _ _ Hfiles
             (Forall_nil _) eq_refl Hl Hbad).
  - exact Hsep.
  - destruct (proj2 (proj2 C6_named_regions) _ _ _ _ "(?P<header>[a-z]+)" "\|"
                "(?P<data>[0-9]+)" Hsep eq_refl eq_refl eq_refl)
      as (re & Hc & Hkeys & _).
    exists re. split; [exact Hc | exact Hkeys].
Defined.

(** * Further properties *)

(** ** The order of the directory listing *)

Lemma lex_le_antisym s t : lex_le s t -> lex_le t s -> s = t.
Proof.
  induction 1; intros H'; inversion H'; subst; try reflexivity; try lia.
  f_equal. auto.
Qed.

(** Two listings of the same entries, both in the order of their names,
    are the same listing when no two entries share a name. *)
Lemma ordered_unique (l1 l2 : list Path) :
  StronglySorted name_le l1 -> StronglySorted name_le l2 ->
  Permutation l1 l2 -> NoDup (map name l1) -> l1 = l2.
Proof.
  intros S1. revert l2. induction S1 as [|p l1 S1 IH F1]; intros l2 S2 P N.
  - apply Permutation_nil in P. auto.
  - destruct l2 as [|q l2]; [apply Permutation_sym, Permutation_nil in P; discriminate|].
    inversion S2 as [|? ? S2' F2]; subst.
    assert (In q (p :: l1)) as Hq
      by (eapply Permutation_in; [apply Permutation_sym; exact P | left; reflexivity]).
    assert (In p (q :: l2)) as Hp
      by (eapply Permutation_in; [exact P | left; reflexivity]).
    assert (name p = name q) as En.
    { apply lex_le_antisym.
      - destruct Hq as [<-|Hq]; [apply lex_le_refl|].
        rewrite Forall_forall in F1. apply F1. exact Hq.
      - destruct Hp as [<-|Hp]; [apply lex_le_refl|].
        rewrite Forall_forall in F2. apply F2. exact Hp. }
    assert (p = q) as E.
    { destruct Hq as [E|Hq]; [exact E|].
      simpl in N. apply NoDup_cons_iff in N. destruct N as (N & _).
      exfalso. apply N. rewrite En. apply in_map. exact Hq. }
    subst q. f_equal. apply IH; auto.
    + eapply Permutation_cons_inv. exact P.
    + simpl in N. apply NoDup_cons_iff in N. tauto.
Qed.

Lemma filter_perm (A : Type) (f : A -> bool) (l1 l2 : list A) :
  Permutation l1 l2 -> Permutation (filter f l1) (filter f l2).
Proof.
  induction 1; simpl.
  - constructor.
  - destruct (f x); [constructor|]; assumption.
  - destruct (f x), (f y); try reflexivity. apply perm_swap.
  - etransitivity; eassumption.
Qed.

Lemma rule_files_perm entries1 entries2 :
  Permutation (filter is_rule_file entries1) (filter is_rule_file entries2) ->
  NoDup (map name (filter is_rule_file entries1)) ->
  rule_files entries1 = rule_files entries2.
Proof.
  intros P N. unfold rule_files. apply ordered_unique.
  - apply sorted_ordered.
  - apply sorted_ordered.
  - rewrite <- !sorted_perm. exact P.
  - eapply Permutation_NoDup; [|exact N].
    apply Permutation_map. apply sorted_perm.
Qed.

(** X1: the result of load_rule does not depend on the order in which the
    rules directory lists its entries, nor on the entries that are not
    rule files: two listings whose rule files are the same up to their
    order, no two of them sharing a name, give the same result. *)
Theorem load_rule_listing_order (entries1 entries2 : list Path) (raw_text : string) :
  Permutation (filter is_rule_file entries1) (filter is_rule_file entries2) ->
  NoDup (map name (filter is_rule_file entries1)) ->
  load_rule (store entries1) raw_text = load_rule (store entries2) raw_text.
Proof.
  intros P N. unfold load_rule, store. simpl.
  rewrite (rule_files_perm _ _ P N). reflexivity.
Qed.

Lemma load_rule_listing_order_witness :
  Permutation (filter is_rule_file some_rules)
    (filter is_rule_file
       (mkPath "notes.txt" (Raise PermissionError) :: rev some_rules))
  /\ NoDup (map name (filter is_rule_file some_rules))
  /\ load_rule (store some_rules) "H1H2D1D2D3"
     = load_rule
         (store (mkPath "notes.txt" (Raise PermissionError) :: rev some_rules))
         "H1H2D1D2D3".
Proof.
  assert (Permutation (filter is_rule_file some_rules)
            (filter is_rule_file
               (mkPath "notes.txt" (Raise PermissionError) :: rev some_rules)))
    as P.
  { change (filter is_rule_file
              (mkPath "notes.txt" (Raise PermissionError) :: rev some_rules))
      with (rev (filter is_rule_file some_rules)).
    apply Permutation_rev. }
  assert (NoDup (map name (filter is_rule_file some_rules))) as N.
  { apply (nodupb_NoDup (map name (filter is_rule_file some_rules))).
    vm_compute. reflexivity. }
  split; [exact P|]. split; [exact N|].
  exact (load_rule_listing_order _ _ "H1H2D1D2D3" P N).
Defined.

(** ** What a search finds *)

(** X2: a rule file that is read, decoded and compiled is passed over
    exactly when its grammar matches at no position of the input, the
    position after the last character included. *)
Theorem rule_passed_over_iff_no_match (raw_text : string) (p : Path)
    (content : string) (rule : json) (re : Re.regex) :
  read_text p = Return content -> loads content = Return rule ->
  compiled rule = Return re ->
  (no_match raw_text p <->
   forall i j c, i <= String.length raw_text ->
                 ~ Re.matches raw_text re i [] j c).
Proof.
  intros Hr Hl Hc. unfold no_match.
  assert (try_rule raw_text p
          = match Re.search re raw_text with
            | Some mt => Return (Some (rule, Re.groupdict re raw_text mt))
            | None => Return None
            end) as E.
  { unfold try_rule. rewrite Hr. simpl. rewrite Hl. simpl.
    unfold compiled in Hc.
    destruct (build_regex rule) as [regex| |]; simpl in *; try discriminate.
    rewrite Hc. reflexivity. }
  rewrite E, <- search_None_iff.
  destruct (Re.search re raw_text); split; intros H; congruence.
Qed.

Lemma rule_passed_over_iff_no_match_witness :
  exists re,
    compiled rule_plain_decoded = Return re
    /\ no_match "D1 H1" (file "cnv01.json" rule_plain)
    /\ forall i j c, i <= 5 -> ~ Re.matches "D1 H1" re i [] j c.
Proof.
  exists (header_then_data
            (Re.Plus (Re.Seq (Re.Char "H") (Re.CharSet false [Re.CCat Re.Digit false])))
            (Re.Plus (Re.Seq (Re.Char "D") (Re.CharSet false [Re.CCat Re.Digit false])))).
  assert (compiled rule_plain_decoded
          = Return (header_then_data
            (Re.Plus (Re.Seq (Re.Char "H") (Re.CharSet false [Re.CCat Re.Digit false])))
            (Re.Plus (Re.Seq (Re.Char "D") (Re.CharSet false [Re.CCat Re.Digit false])))))
    as Hc by (vm_compute; reflexivity).
  assert (no_match "D1 H1" (file "cnv01.json" rule_plain)) as Hn
    by (vm_compute; reflexivity).
  split; [exact Hc|]. split; [exact Hn|].
  exact (proj1 (rule_passed_over_iff_no_match "D1 H1" (file "cnv01.json" rule_plain)
                  (text rule_plain) rule_plain_decoded _ eq_refl eq_refl Hc) Hn).
Defined.

(** X3: the group dict of a detection comes from a match of the winning
    grammar that starts at the leftmost position of the input at which
    that grammar matches at all. *)
Theorem detection_is_leftmost (root : result Traversable) (raw_text : string)
    (rule : json) (gd : list (string * option string)) :
  load_rule root raw_text = Return (rule, gd) ->
  exists re mt,
    compiled rule = Return re
    /\ Re.search re raw_text = Some mt
    /\ gd = Re.groupdict re raw_text mt
    /\ Re.matches raw_text re (Re.m_start mt) [] (Re.m_end mt) (Re.m_caps mt)
    /\ forall i j c, i < Re.m_start mt -> ~ Re.matches raw_text re i [] j c.
Proof.
  intros Hload. apply detection_inv in Hload.
  destruct Hload as (t & entries & pre & p & post & content & pattern & re
                     & i & j & c & _ & _ & _ & _ & _ & _ & Hb & Hc
                     & Hs & Hm & _ & _ & ->).
  exists re, (Re.mkMatch i j c). simpl.
  split; [rewrite (compiled_eq _ _ Hb); exact Hc|].
  split; [exact Hs|]. split; [reflexivity|]. split; [exact Hm|].
  exact (search_leftmost raw_text re _ Hs).
Qed.

Lemma detection_is_leftmost_witness :
  load_rule (store [file "cnv01.json" rule_one_header]) "H1 H2D1 H3D2"
  = Return (JObj [("header", JStr "H\d"); ("data", JStr "D\d")],
            [("header", Some "H2"); ("data", Some "D1")])
  /\ exists re mt,
       Re.search re "H1 H2D1 H3D2" = Some mt
       /\ forall i j c, i < Re.m_start mt -> ~ Re.matches "H1 H2D1 H3D2" re i [] j c.
Proof.
  assert (load_rule (store [file "cnv01.json" rule_one_header]) "H1 H2D1 H3D2"
          = Return (JObj [("header", JStr "H\d"); ("data", JStr "D\d")],
                    [("header", Some "H2"); ("data", Some "D1")])) as H
    by (vm_compute; reflexivity).
  split; [exact H|].
  destruct (detection_is_leftmost _ _ _ _ H) as (re & mt & _ & Hs & _ & _ & Hl).
  exists re, mt. split; [exact Hs | exact Hl].
Defined.

(** ** Rule files that cannot be used *)

(** X4: a rule file that cannot be read is not skipped: when no rule file
    before it matches, load_rule raises the exception of the read,
    whatever the later files hold. *)
Theorem unreadable_rule_file_raises (entries pre post : list Path) (p : Path)
    (raw_text : string) (e : exn) :
  rule_files entries = pre ++ p :: post ->
  Forall (no_match raw_text) pre ->
  read_text p = Raise e ->
  load_rule (store entries) raw_text = Raise e.
Proof.
  intros Hfiles Hpre Hr. simpl. rewrite Hfiles.
  apply for_rule_path_raise; [exact Hpre|].
  unfold try_rule. rewrite Hr. reflexivity.
Qed.

Lemma unreadable_rule_file_raises_witness :
  load_rule
    (store [file "cnv03.json" rule_plain; mkPath "cnv02.json" (Raise UnicodeDecodeError);
            file "cnv01.json" rule_other])
    "H1D1"
  = Raise UnicodeDecodeError.
Proof.
  apply (unreadable_rule_file_raises _ [file "cnv01.json" rule_other]
           [file "cnv03.json" rule_plain] (mkPath "cnv02.json" (Raise UnicodeDecodeError))).
  - vm_compute. reflexivity.
  - repeat constructor.
  - reflexivity.
Defined.

(** X5: a rule file that holds JSON other than an object (a list, a text,
    a number, true, false or null) makes load_rule raise TypeError when
    the loop reaches it. *)
Theorem rule_that_is_no_object_raises (entries pre post : list Path) (p : Path)
    (raw_text content : string) (v : json) :
  rule_files entries = pre ++ p :: post ->
  Forall (no_match raw_text) pre ->
  read_text p = Return content ->
  loads content = Return v ->
  (forall d, v <> JObj d) ->
  load_rule (store entries) raw_text = Raise TypeError.
Proof.
  intros Hfiles Hpre Hr Hl Hv. simpl. rewrite Hfiles.
  apply for_rule_path_raise; [exact Hpre|].
  unfold try_rule. rewrite Hr. simpl. rewrite Hl. simpl.
  destruct v; try reflexivity. exfalso. eapply Hv. reflexivity.
Qed.

Lemma rule_that_is_no_object_raises_witness :
  load_rule
    (store [file "cnv02.json" rule_plain; file "cnv01.json" "['H\\d', 'D\\d']"])
    "H1D1"
  = Raise TypeError.
Proof.
  apply (rule_that_is_no_object_raises _ [] [file "cnv02.json" rule_plain]
           (file "cnv01.json" "['H\\d', 'D\\d']") "H1D1"
           (text "['H\\d', 'D\\d']") (JArr [JStr "H\d"; JStr "D\d"])).
  - vm_compute. reflexivity.
  - constructor.
  - reflexivity.
  - vm_compute. reflexivity.
  - intros d. discriminate.
Defined.

(** ** The data region *)

Lemma get_lt_Some (s : string) i : i < String.length s -> exists a, get i s = Some a.
Proof.
  revert i. induction s as [|a s IH]; simpl; intros i H; [lia|].
  destruct i as [|i]; [eauto|]. apply IH. lia.
Qed.

Lemma substring_nonempty (s : string) b n :
  0 < n -> b < String.length s -> substring b n s <> "".
Proof.
  intros Hn Hb E.
  pose proof (substring_correct1 s b n 0 Hn) as H. rewrite E in H. simpl in H.
  destruct (get_lt_Some s b Hb) as (a & Ha). congruence.
Qed.

(** In a match of a header group followed by a data group whose pattern
    cannot match the empty text, the data group takes at least one
    character. *)
Lemma data_span_progress s rh rd i j c :
  Re.matches s (header_then_data rh rd) i [] j c ->
  Re.nullable rd = false ->
  exists b, i <= b /\ b < j /\ Re.lookup "data" c = Some (b, j).
Proof.
  unfold header_then_data. intros H Hn.
  inversion H; subst; clear H.
  repeat match goal with
    | Hg : Re.matches _ (Re.Sub _ _) _ _ _ _ |- _ =>
        inversion Hg; subst; clear Hg
    end.
  match goal with
  | Hh : Re.matches s rh i [] ?b _, Hd : Re.matches s rd ?b _ j _ |- _ =>
      exists b; split; [exact (matches_le _ _ _ _ _ _ Hh)|];
      split; [exact (nonnullable_progress _ _ _ _ _ _ Hd Hn) | reflexivity]
  end.
Qed.

(** X6: for a rule without sep whose header and data patterns are complete
    patterns on their own, and whose data pattern cannot match the empty
    text, a detection never has an empty data region, and never comes
    from an empty input. A data pattern that can match the empty text,
    such as a starred one, is left out: with it the data region can be
    empty. *)
Theorem data_region_is_not_empty (root : result Traversable) (raw_text : string)
    (d : list (string * json)) (gd : list (string * option string))
    (h dt : string) (rh rd : Re.regex) :
  load_rule root raw_text = Return (JObj d, gd) ->
  dict_get d "sep" = None ->
  dict_get d "header" = Some (JStr h) ->
  dict_get d "data" = Some (JStr dt) ->
  self_contained h rh -> self_contained dt rd ->
  Re.nullable rd = false ->
  raw_text <> ""
  /\ exists v, gd_get "data" gd = Some (Some v) /\ v <> "".
Proof.
  intros Hload Hs Hh Hd Sh Sd Hnn.
  apply detection_inv in Hload.
  destruct Hload as (t & entries & pre & p & post & content & pattern & re
                     & i & j & c & _ & _ & _ & _ & _ & _ & Hb & Hc & _ & Hm
                     & _ & Hj & ->).
  assert (re = header_then_data rh (Re.Plus rd)) as ->.
  { apply (compiled_no_sep d h dt rh rd re Hh Hs Hd Sh Sd).
    rewrite (compiled_eq _ _ Hb). exact Hc. }
  destruct (data_span_progress _ _ _ _ _ _ Hm Hnn) as (b & Hib & Hbj & Hl).
  split.
  - intros ->. simpl in Hj. lia.
  - exists (substring b (j - b) raw_text). split.
    + unfold Re.groupdict. simpl Re.m_caps.
      rewrite gd_get_map
        by (simpl; right; apply in_or_app; right; left; reflexivity).
      rewrite Hl. reflexivity.
    + apply substring_nonempty; lia.
Qed.

Lemma data_region_is_not_empty_witness :
  self_contained "(?:H\d)+"
    (Re.Plus (Re.Seq (Re.Char "H") (Re.CharSet false [Re.CCat Re.Digit false])))
  /\ self_contained "D\d"
       (Re.Seq (Re.Char "D") (Re.CharSet false [Re.CCat Re.Digit false]))
  /\ load_rule (store some_rules) (banner ++ "H1H2D1D2D3 end")
     = Return (rule_plain_decoded,
               [("header", Some "H1H2"); ("data", Some "D1D2D3")])
  /\ (banner ++ "H1H2D1D2D3 end")%string <> ""
  /\ exists v, gd_get "data" [("header", Some "H1H2"); ("data", Some "D1D2D3")]
               = Some (Some v) /\ v <> "".
Proof.
  assert (self_contained "(?:H\d)+"
            (Re.Plus (Re.Seq (Re.Char "H") (Re.CharSet false [Re.CCat Re.Digit false]))))
    as Sh by (vm_compute; reflexivity).
  assert (self_contained "D\d"
            (Re.Seq (Re.Char "D") (Re.CharSet false [Re.CCat Re.Digit false])))
    as Sd by (vm_compute; reflexivity).
  assert (load_rule (store some_rules) (banner ++ "H1H2D1D2D3 end")
          = Return (rule_plain_decoded,
                    [("header", Some "H1H2"); ("data", Some "D1D2D3")])) as Hload
    by (vm_compute; reflexivity).
  split; [exact Sh|]. split; [exact Sd|]. split; [exact Hload|].
  exact (data_region_is_not_empty _ _ _ _ _ _ _ _ Hload eq_refl eq_refl eq_refl Sh Sd
           eq_refl).
Defined.

(** ** make_file_list *)

Lemma insort_perm x l : Permutation (x :: l) (insort x l).
Proof.
  induction l as [|y l IH]; simpl; [reflexivity|].
  destruct (String.ltb y x); [|reflexivity].
  rewrite perm_swap. constructor. exact IH.
Qed.

Lemma sort_perm l : Permutation l (sort l).
Proof.
  induction l as [|x l IH]; simpl; [constructor|].
  rewrite <- insort_perm. constructor. exact IH.
Qed.

Lemma insort_ordered x l :
  StronglySorted lex_le l -> StronglySorted lex_le (insort x l).
Proof.
  induction 1 as [|y l Hl IH Hy]; simpl.
  - constructor; constructor.
  - destruct (String.ltb y x) eqn:E.
    + constructor; [exact IH|].
      apply ltb_true_lex in E.
      rewrite Forall_forall. intros z Hz.
      eapply Permutation_in in Hz; [|apply Permutation_sym, insort_perm].
      destruct Hz as [<-|Hz]; [exact E|].
      rewrite Forall_forall in Hy. auto.
    + apply ltb_false_lex in E.
      constructor; [constructor; assumption|].
      constructor; [exact E|].
      rewrite Forall_forall in Hy |- *. intros z Hz.
      eapply lex_le_trans; [exact E | auto].
Qed.

Lemma sort_ordered l : StronglySorted lex_le (sort l).
Proof.
  induction l as [|x l IH]; simpl; [constructor|].
  apply insort_ordered. exact IH.
Qed.

Lemma hit_iff r filename :
  hit r filename = true <-> exists j c, Re.matches filename r 0 [] j c.
Proof.
  unfold hit. split.
  - destruct (Re.match_at r filename 0) as [mt|] eqn:E; [|discriminate].
    intros _. apply match_at_inv in E. destruct E as (j & c & H & _). eauto.
  - intros (j & c & H).
    destruct (match_at_complete filename r 0 j c H) as (mt & ->); [lia | reflexivity].
Qed.

Lemma for_filename_eq pattern r dirpath filenames inputfiles :
  flag_free pattern = true -> Re.compile pattern = Return r ->
  for_filename pattern dirpath filenames inputfiles
  = Return (inputfiles ++ map (path_join dirpath) (filter (hit r) filenames)).
Proof.
  intros Hf Hc. revert inputfiles.
  induction filenames as [|f fs IH]; intros inputfiles; simpl.
  - rewrite app_nil_r. reflexivity.
  - unfold re_match. rewrite Hf, Hc. simpl. rewrite IH. unfold hit.
    destruct (Re.match_at r f 0); simpl; [|reflexivity].
    rewrite <- app_assoc. reflexivity.
Qed.

Lemma for_dirpath_eq pattern r triples inputfiles :
  flag_free pattern = true -> Re.compile pattern = Return r ->
  for_dirpath pattern triples inputfiles
  = Return (inputfiles ++ collected r triples).
Proof.
  intros Hf Hc. revert inputfiles.
  induction triples as [|[[dirpath dirnames] filenames] rest IH];
    intros inputfiles; simpl.
  - rewrite app_nil_r. reflexivity.
  - rewrite (for_filename_eq _ _ _ _ _ Hf Hc). simpl. rewrite IH.
    rewrite <- app_assoc. reflexivity.
Qed.

Lemma collected_In r triples path :
  In path (collected r triples) <->
  exists dirpath dirnames filenames filename,
    In (dirpath, dirnames, filenames) triples /\ In filename filenames
    /\ (exists j c, Re.matches filename r 0 [] j c)
    /\ path = path_join dirpath filename.
Proof.
  unfold collected. rewrite in_flat_map. split.
  - intros ([[dirpath dirnames] filenames] & Ht & Hp).
    apply in_map_iff in Hp. destruct Hp as (f & <- & Hf).
    apply filter_In in Hf. destruct Hf as (Hf & Hh).
    exists dirpath, dirnames, filenames, f.
    repeat split; auto. apply hit_iff. exact Hh.
  - intros (dirpath & dirnames & filenames & f & Ht & Hf & Hm & ->).
    exists (dirpath, dirnames, filenames). split; [exact Ht|].
    apply in_map. apply filter_In. split; [exact Hf|].
    apply hit_iff. exact Hm.
Qed.

(** *** The directories of the walk *)

(** The triple of a directory with a given listing. *)
Lemma walk_located e :
  forall top dirpath dirnames filenames,
    In (dirpath, dirnames, filenames) (walk top e) <->
    exists entries,
      located top e dirpath entries
      /\ dirnames = map entry_name (filter is_dir entries)
      /\ filenames = map entry_name (filter (fun x => negb (is_dir x)) entries).
Proof.
  induction e as [n | n l | n l entries IH] using entry_induction;
    intros top dirpath dirnames filenames.
  - simpl. split; [intros [] | intros (es & H & _); inversion H].
  - simpl. split; [intros [] | intros (es & H & _); inversion H].
  - cbn [walk].
    assert (forall t,
              In t ((fix subdirs (l0 : list entry)
                       : list (string * list string * list string) :=
                       match l0 with
                       | [] => []
                       | x :: l' =>
                           (if is_dir x && negb (is_link x)
                            then walk (path_join top (entry_name x)) x
                            else []) ++ subdirs l'
                       end) entries)
              <-> exists x, In x entries /\ is_dir x = true /\ is_link x = false
                            /\ In t (walk (path_join top (entry_name x)) x)) as Hsub.
    { clear IH. intros t. induction entries as [|x es IHes]; simpl.
      - split; [intros [] | intros (x & [] & _)].
      - rewrite in_app_iff, IHes. split.
        + intros [H|(y & Hy & H)].
          * destruct (is_dir x) eqn:Ed; [|destruct H].
            destruct (is_link x) eqn:El; [destruct H|].
            exists x. auto.
          * exists y. auto.
        + intros (y & [<-|Hy] & Hd & Hl & H).
          * left. rewrite Hd, Hl. exact H.
          * right. exists y. auto. }
    split.
    + intros [E|H].
      * injection E as <- <- <-. exists entries.
        split; [constructor | auto].
      * apply Hsub in H. destruct H as (x & Hx & Hd & Hl & H).
        rewrite Forall_forall in IH. apply (IH x Hx) in H.
        destruct H as (es & Hloc & H1 & H2).
        exists es. split; [|auto].
        eapply located_below; eassumption.
    + intros (es & Hloc & -> & ->).
      inversion Hloc as [|? ? ? ? x ? ? Hx Hd Hl Hloc']; subst.
      * left. reflexivity.
      * right. apply Hsub. exists x. repeat split; auto.
        rewrite Forall_forall in IH. apply (IH x Hx).
        exists es. auto.
Qed.

Lemma collected_located r top tree path :
  In path (collected r (walk top tree)) <->
  exists dirpath entries x,
    located top tree dirpath entries /\ In x entries /\ is_dir x = false
    /\ (exists j c, Re.matches (entry_name x) r 0 [] j c)
    /\ path = path_join dirpath (entry_name x).
Proof.
  rewrite collected_In. split.
  - intros (dirpath & dirnames & filenames & f & Hw & Hf & Hm & ->).
    apply walk_located in Hw. destruct Hw as (entries & Hloc & _ & ->).
    apply in_map_iff in Hf. destruct Hf as (x & <- & Hx).
    apply filter_In in Hx. destruct Hx as (Hx & Hd).
    apply negb_true_iff in Hd.
    exists dirpath, entries, x. auto.
  - intros (dirpath & entries & x & Hloc & Hx & Hd & Hm & ->).
    exists dirpath, (map entry_name (filter is_dir entries)),
      (map entry_name (filter (fun y => negb (is_dir y)) entries)), (entry_name x).
    split; [apply walk_located; exists entries; auto|].
    split; [|auto].
    apply in_map. apply filter_In. split; [exact Hx|]. rewrite Hd. reflexivity.
Qed.

Lemma make_file_list_eq tree inputdir inputpattern r :
  flag_free inputpattern = true ->
  Re.compile inputpattern = Return r ->
  make_file_list tree inputdir inputpattern
  = Return (sort (collected r (walk inputdir tree))).
Proof.
  intros Hf Hc. unfold make_file_list.
  rewrite (for_dirpath_eq _ _ _ _ Hf Hc). reflexivity.
Qed.

Lemma sort_In l x : In x (sort l) <-> In x l.
Proof.
  split; intros H.
  - eapply Permutation_in; [apply Permutation_sym, sort_perm | exact H].
  - eapply Permutation_in; [apply sort_perm | exact H].
Qed.

(** X7: make_file_list searches recursively. With a pattern that
    compiles, it returns its paths in ascending order, and a path is
    returned exactly when it is the join of a directory, the input
    directory or one below it behind directories that can be listed and
    are not links, with the name of a file of that directory that the
    pattern matches from its first character on. *)
Theorem make_file_list_lists_the_matching_files (tree : entry)
    (inputdir inputpattern : string) (r : Re.regex) :
  flag_free inputpattern = true ->
  Re.compile inputpattern = Return r ->
  exists inputfiles,
    make_file_list tree inputdir inputpattern = Return inputfiles
    /\ StronglySorted lex_le inputfiles
    /\ forall path,
         In path inputfiles <->
         exists dirpath entries x,
           located inputdir tree dirpath entries
           /\ In x entries /\ is_dir x = false
           /\ (exists j c, Re.matches (entry_name x) r 0 [] j c)
           /\ path = path_join dirpath (entry_name x).
Proof.
  intros Hf Hc. rewrite (make_file_list_eq _ _ _ _ Hf Hc).
  eexists. split; [reflexivity|]. split; [apply sort_ordered|].
  intros path. rewrite sort_In. apply collected_located.
Qed.

Lemma make_file_list_lists_the_matching_files_witness :
  exists r,
    Re.compile ".*\.cnv$" = Return r
    /\ make_file_list
         (Directory "casts" false
            (Some [File "b.cnv"; Directory "2019" false (Some [File "a.cnv"; File "a.cnv.bak"]);
                   Directory "old" true None; File "readme.txt"]))
         "casts" ".*\.cnv$"
       = Return ["casts/2019/a.cnv"; "casts/b.cnv"]
    /\ StronglySorted lex_le ["casts/2019/a.cnv"; "casts/b.cnv"].
Proof.
  exists (Re.Seq (Re.Star Re.Dot)
            (Re.Seq (Re.Char ".") (Re.Seq (Re.Char "c") (Re.Seq (Re.Char "n")
               (Re.Seq (Re.Char "v") Re.Eol))))).
  assert (Re.compile ".*\.cnv$"
          = Return (Re.Seq (Re.Star Re.Dot)
            (Re.Seq (Re.Char ".") (Re.Seq (Re.Char "c") (Re.Seq (Re.Char "n")
               (Re.Seq (Re.Char "v") Re.Eol)))))) as Hc by (vm_compute; reflexivity).
  split; [exact Hc|].
  destruct (make_file_list_lists_the_matching_files
              (Directory "casts" false
                 (Some [File "b.cnv"; Directory "2019" false (Some [File "a.cnv"; File "a.cnv.bak"]);
                        Directory "old" true None; File "readme.txt"]))
              "casts" ".*\.cnv$" _ eq_refl Hc) as (l & Hl & Hsorted & _).
  assert (Return l = Return ["casts/2019/a.cnv"; "casts/b.cnv"]) as E
    by (rewrite <- Hl; vm_compute; reflexivity).
  injection E as ->. split; [exact Hl | exact Hsorted].
Defined.

(** *** The default pattern *)

Lemma default_pattern_compiled : Re.compile default_pattern = Return default_regex.
Proof. vm_compute. reflexivity. Qed.

Lemma star_dot_inv s i c j c' :
  Re.matches s (Re.Star Re.Dot) i c j c' ->
  c' = c /\ i <= j
  /\ forall k, i <= k -> k < j -> get k s <> Some (ascii_of_nat 10).
Proof.
  intros H. remember (Re.Star Re.Dot) as r eqn:E.
  induction H as [ | | | | | | | | | r0 i c | r0 i c j c1 j' c' Hm IH1 Hlt Hs IH2
                 | | | | | | | | | ]; try discriminate; injection E as ->.
  - split; [reflexivity|]. split; [lia|]. intros k Hk1 Hk2. lia.
  - destruct (IH2 eq_refl) as (-> & Hle & Hk).
    inversion Hm as [| |b ? ? Hg Hb| | | | | | | | | | | | | | | | |]; subst.
    split; [reflexivity|]. split; [lia|].
    intros k Hk1 Hk2. destruct (Nat.eq_dec k i) as [->|Hne].
    + rewrite Hg. intros E. injection E as ->.
      rewrite Ascii.eqb_refl in Hb. discriminate.
    + apply Hk; lia.
Qed.

Lemma star_dot_intro s c n i :
  i + n <= String.length s ->
  (forall k, i <= k -> k < i + n -> get k s <> Some (ascii_of_nat 10)) ->
  Re.matches s (Re.Star Re.Dot) i c (i + n) c.
Proof.
  revert i. induction n as [|n IH]; intros i Hlen Hk.
  - rewrite Nat.add_0_r. constructor.
  - destruct (get_lt_Some s i) as (b & Hb); [lia|].
    apply (Re.M_Star_more s Re.Dot i c (S i) c (i + S n) c).
    + apply (Re.M_Dot s b); [exact Hb|].
      apply Ascii.eqb_neq. intros ->. apply (Hk i); [lia | lia | exact Hb].
    + lia.
    + replace (i + S n) with (S i + n) by lia. apply IH; [lia|].
      intros k H1 H2. apply Hk; lia.
Qed.

Lemma get_substring4 s j a b c d :
  substring j 4 s = String a (String b (String c (String d EmptyString))) <->
  get j s = Some a /\ get (S j) s = Some b /\ get (S (S j)) s = Some c
  /\ get (S (S (S j))) s = Some d.
Proof.
  split.
  - intros E.
    pose proof (substring_correct1 s j 4 0) as H0.
    pose proof (substring_correct1 s j 4 1) as H1.
    pose proof (substring_correct1 s j 4 2) as H2.
    pose proof (substring_correct1 s j 4 3) as H3.
    rewrite E in H0, H1, H2, H3. simpl in H0, H1, H2, H3.
    repeat split; symmetry; auto with arith.
  - intros (Ha & Hb & Hc & Hd). apply get_correct. intros n.
    destruct (Nat.lt_ge_cases n 4) as [Hn|Hn].
    + rewrite substring_correct1 by exact Hn.
      destruct n as [|[|[|[|n]]]]; simpl; try lia; congruence.
    + rewrite substring_correct2 by exact Hn.
      do 4 (destruct n as [|n]; [lia|]). reflexivity.
Qed.

Lemma default_regex_matches filename :
  (exists j c, Re.matches filename default_regex 0 [] j c) <-> holds_cnv filename.
Proof.
  unfold default_regex, holds_cnv. split.
  - intros (j & c & H).
    repeat match goal with
      | Hs : Re.matches _ (Re.Seq _ _) _ _ _ _ |- _ => inversion Hs; subst; clear Hs
      | Hc : Re.matches _ (Re.Char _) _ _ _ _ |- _ => inversion Hc; subst; clear Hc
      end.
    match goal with
    | Hs : Re.matches _ (Re.Star Re.Dot) 0 _ ?j0 _ |- _ =>
        apply star_dot_inv in Hs; destruct Hs as (_ & _ & Hk); exists j0
    end.
    split.
    + apply get_substring4. auto.
    + intros k Hlt. apply Hk; lia.
  - intros (j & Hsub & Hk).
    apply get_substring4 in Hsub. destruct Hsub as (Ha & Hb & Hc & Hd).
    exists (S (S (S (S j)))), [].
    apply (Re.M_Seq filename _ _ 0 [] j []).
    + apply (star_dot_intro filename [] j 0).
      * apply get_Some_lt in Ha. lia.
      * intros k _ Hlt. apply Hk. exact Hlt.
    + repeat (econstructor; try eassumption).
Qed.

(** X8: the default pattern is matched at the start of a name and not to
    its end: make_file_list lists exactly the files, at any depth, whose
    name holds the text .cnv with no line break before it, such as
    cast.cnv.bak. *)
Theorem make_file_list_default_pattern (tree : entry) (inputdir : string) :
  exists inputfiles,
    make_file_list tree inputdir default_pattern = Return inputfiles
    /\ forall path,
         In path inputfiles <->
         exists dirpath entries x,
           located inputdir tree dirpath entries
           /\ In x entries /\ is_dir x = false
           /\ holds_cnv (entry_name x)
           /\ path = path_join dirpath (entry_name x).
Proof.
  rewrite (make_file_list_eq tree inputdir default_pattern default_regex eq_refl
             default_pattern_compiled).
  eexists. split; [reflexivity|].
  intros path. rewrite sort_In, collected_located. split.
  - intros (dirpath & entries & x & H1 & H2 & H3 & H4 & H5).
    exists dirpath, entries, x.
    repeat split; auto. apply default_regex_matches. exact H4.
  - intros (dirpath & entries & x & H1 & H2 & H3 & H4 & H5).
    exists dirpath, entries, x.
    repeat split; auto. apply default_regex_matches. exact H4.
Qed.

(** *** Nothing to match, and patterns that do not compile *)

Lemma for_dirpath_without_files pattern triples inputfiles :
  (forall dirpath dirnames filenames,
      In (dirpath, dirnames, filenames) triples -> filenames = []) ->
  for_dirpath pattern triples inputfiles = Return inputfiles.
Proof.
  revert inputfiles.
  induction triples as [|[[dirpath dirnames] filenames] rest IH];
    intros inputfiles H; simpl; [reflexivity|].
  rewrite (H dirpath dirnames filenames) by (left; reflexivity). simpl.
  apply IH. intros d ds fs Hin. apply (H d ds fs). right. exact Hin.
Qed.

Lemma walk_files top tree :
  (exists dirpath dirnames filenames filename,
      In (dirpath, dirnames, filenames) (walk top tree) /\ In filename filenames)
  <-> exists dirpath entries x,
        located top tree dirpath entries /\ In x entries /\ is_dir x = false.
Proof.
  split.
  - intros (dirpath & dirnames & filenames & f & Hw & Hf).
    apply walk_located in Hw. destruct Hw as (entries & Hloc & _ & ->).
    apply in_map_iff in Hf. destruct Hf as (x & _ & Hx).
    apply filter_In in Hx. destruct Hx as (Hx & Hd).
    apply negb_true_iff in Hd. exists dirpath, entries, x. auto.
  - intros (dirpath & entries & x & Hloc & Hx & Hd).
    exists dirpath, (map entry_name (filter is_dir entries)),
      (map entry_name (filter (fun y => negb (is_dir y)) entries)), (entry_name x).
    split; [apply walk_located; exists entries; auto|].
    apply in_map. apply filter_In. split; [exact Hx|]. rewrite Hd. reflexivity.
Qed.

(** X9: when no directory of the search holds a file, because the input
    directory is missing, cannot be listed, is a file or holds
    directories only, make_file_list returns the empty list whatever the
    pattern, even one that does not compile. *)
Theorem make_file_list_without_files (tree : entry) (inputdir inputpattern : string) :
  (forall dirpath entries x,
      located inputdir tree dirpath entries -> In x entries -> is_dir x = true) ->
  make_file_list tree inputdir inputpattern = Return [].
Proof.
  intros H. unfold make_file_list.
  rewrite for_dirpath_without_files; [reflexivity|].
  intros dirpath dirnames filenames Hw.
  destruct filenames as [|f fs]; [reflexivity|]. exfalso.
  destruct (proj1 (walk_files inputdir tree)) as (d & entries & x & Hloc & Hx & Hd).
  { exists dirpath, dirnames, (f :: fs), f. split; [exact Hw | left; reflexivity]. }
  rewrite (H d entries x Hloc Hx) in Hd. discriminate.
Qed.

Lemma make_file_list_without_files_witness :
  make_file_list (Directory "casts" false None) "casts" "(" = Return []
  /\ make_file_list
       (Directory "casts" false (Some [Directory "2019" false (Some [])]))
       "casts" "("
     = Return [].
Proof.
  split.
  - apply make_file_list_without_files. intros d es x H. inversion H.
  - apply make_file_list_without_files. intros d es x H Hx.
    inversion H as [|? ? ? ? y ? ? Hy _ _ Hloc]; subst.
    + destruct Hx as [<-|[]]. reflexivity.
    + destruct Hy as [<-|[]]. inversion Hloc as [|? ? ? ? z ? ? Hz]; subst.
      * destruct Hx.
      * destruct Hz.
Defined.

Lemma for_dirpath_raise pattern e triples inputfiles :
  (forall s, re_match pattern s = Raise e) ->
  (exists dirpath dirnames filenames filename,
      In (dirpath, dirnames, filenames) triples /\ In filename filenames) ->
  for_dirpath pattern triples inputfiles = Raise e.
Proof.
  intros Hm. revert inputfiles.
  induction triples as [|[[dirpath dirnames] filenames] rest IH];
    intros inputfiles (d & ds & fs & f & Hin & Hf); [destruct Hin|].
  simpl. destruct filenames as [|f0 fs0].
  - simpl. apply IH. destruct Hin as [E|Hin].
    + injection E as _ _ <-. destruct Hf.
    + exists d, ds, fs, f. split; assumption.
  - simpl. rewrite Hm. reflexivity.
Qed.

(** X10: a pattern that does not compile is reported as soon as some
    directory of the search holds a file, whatever its name:
    make_file_list raises the error of the compilation. *)
Theorem make_file_list_reports_bad_pattern (tree : entry)
    (inputdir inputpattern : string) (e : exn) :
  flag_free inputpattern = true ->
  Re.compile inputpattern = Raise e ->
  (exists dirpath entries x,
      located inputdir tree dirpath entries /\ In x entries /\ is_dir x = false) ->
  make_file_list tree inputdir inputpattern = Raise e.
Proof.
  intros Hf Hc Hex. unfold make_file_list.
  rewrite (for_dirpath_raise inputpattern e); [reflexivity| |].
  - intros s. unfold re_match. rewrite Hf, Hc. reflexivity.
  - apply walk_files. exact Hex.
Qed.

Lemma make_file_list_reports_bad_pattern_witness :
  make_file_list
    (Directory "casts" false (Some [Directory "2019" false (Some [File "notes.txt"])]))
    "casts" "(.*\.cnv"
  = Raise re_error.
Proof.
  apply make_file_list_reports_bad_pattern.
  - vm_compute. reflexivity.
  - vm_compute. reflexivity.
  - exists "casts/2019", [File "notes.txt"], (File "notes.txt").
    split; [|split; [left; reflexivity | reflexivity]].
    apply (located_below "casts" "casts" false _
             (Directory "2019" false (Some [File "notes.txt"])));
      [left; reflexivity | reflexivity | reflexivity |].
    apply (located_top "casts/2019").
Defined.

(** *** The paths lie under the input directory *)

Lemma startswith_refl s : startswith s s = true.
Proof. apply startswith_iff. exists "". induction s; simpl; congruence. Qed.

Lemma startswith_trans s t u :
  startswith s t = true -> startswith t u = true -> startswith s u = true.
Proof.
  rewrite !startswith_iff. intros (a & ->) (b & ->).
  exists (b ++ a)%string. apply append_assoc.
Qed.

Lemma path_join_under a b :
  startswith b "/" = false -> startswith (path_join a b) a = true.
Proof.
  intros H. unfold path_join. rewrite H. apply startswith_iff.
  destruct (String.eqb a "" || endswith a "/"); eauto.
Qed.

(** Every directory of a walk lies under its top, and no file name of a
    walk begins with a slash, when no name of the tree does. *)
Lemma walk_under e :
  forall top, plain_names e = true ->
  Forall (fun '(dirpath, _, filenames) =>
            startswith dirpath top = true
            /\ Forall (fun f => startswith f "/" = false) filenames)
         (walk top e).
Proof.
  induction e as [n | n l | n l entries IH] using entry_induction;
    intros top Hp; simpl; try constructor.
  - split; [apply startswith_refl|].
    simpl in Hp. clear IH. induction entries as [|x es IHes]; simpl; [constructor|].
    apply andb_true_iff in Hp. destruct Hp as (Hx & Hes).
    apply andb_true_iff in Hx. destruct Hx as (Hx & _).
    apply negb_true_iff in Hx.
    destruct (is_dir x); simpl; [auto|]. constructor; auto.
  - simpl in Hp. induction entries as [|x es IHes]; [constructor|].
    apply andb_true_iff in Hp. destruct Hp as (Hx & Hes).
    apply andb_true_iff in Hx. destruct Hx as (Hx & Hpx).
    apply negb_true_iff in Hx.
    inversion IH as [|? ? IHx IHrest]; subst.
    apply Forall_app. split; [|apply IHes; assumption].
    destruct (is_dir x && negb (is_link x)); [|constructor].
    specialize (IHx (path_join top (entry_name x)) Hpx).
    rewrite Forall_forall in IHx |- *. intros [[d ds] fs] Hin.
    destruct (IHx _ Hin) as (Hd & Hfs). split; [|exact Hfs].
    eapply startswith_trans; [exact Hd|]. apply path_join_under. exact Hx.
Qed.

Lemma for_filename_inv pattern dirpath filenames inputfiles l :
  for_filename pattern dirpath filenames inputfiles = Return l ->
  forall path, In path l ->
    In path inputfiles
    \/ exists filename, In filename filenames /\ path = path_join dirpath filename.
Proof.
  revert inputfiles. induction filenames as [|f fs IH]; intros inputfiles H path Hin;
    simpl in H.
  - injection H as <-. auto.
  - destruct (re_match pattern f) as [found| |]; simpl in H; try discriminate.
    destruct (IH _ H path Hin) as [Hacc|(f' & Hf' & ->)].
    + destruct found; [|auto].
      apply in_app_or in Hacc. destruct Hacc as [Hacc|[<-|[]]]; [auto|].
      right. exists f. split; [left; reflexivity | reflexivity].
    + right. exists f'. split; [right; exact Hf' | reflexivity].
Qed.

Lemma for_dirpath_inv pattern triples inputfiles l :
  for_dirpath pattern triples inputfiles = Return l ->
  forall path, In path l ->
    In path inputfiles
    \/ exists dirpath dirnames filenames filename,
         In (dirpath, dirnames, filenames) triples /\ In filename filenames
         /\ path = path_join dirpath filename.
Proof.
  revert inputfiles.
  induction triples as [|[[dirpath dirnames] filenames] rest IH];
    intros inputfiles H path Hin; simpl in H.
  - injection H as <-. auto.
  - destruct (for_filename pattern dirpath filenames inputfiles) as [acc| |] eqn:E;
      simpl in H; try discriminate.
    destruct (IH _ H path Hin) as [Hacc|(d & ds & fs & f & H1 & H2 & H3)].
    + destruct (for_filename_inv _ _ _ _ _ E path Hacc) as [Ha|(f & Hf & ->)];
        [auto|].
      right. exists dirpath, dirnames, filenames, f.
      split; [left; reflexivity | auto].
    + right. exists d, ds, fs, f. split; [right; exact H1 | auto].
Qed.

(** X11: every path that make_file_list returns begins with the input
    directory as it was given, when no name of the tree begins with a
    slash. *)
Theorem make_file_list_under_inputdir (tree : entry)
    (inputdir inputpattern : string) (inputfiles : list string) :
  plain_names tree = true ->
  make_file_list tree inputdir inputpattern = Return inputfiles ->
  forall path, In path inputfiles -> startswith path inputdir = true.
Proof.
  intros Hp H path Hin. unfold make_file_list in H.
  destruct (for_dirpath inputpattern (walk inputdir tree) []) as [l| |] eqn:E;
    simpl in H; try discriminate.
  injection H as <-.
  apply (proj1 (sort_In _ _)) in Hin.
  destruct (for_dirpath_inv _ _ _ _ E path Hin)
    as [[]|(d & ds & fs & f & H1 & H2 & ->)].
  pose proof (walk_under tree inputdir Hp) as W.
  rewrite Forall_forall in W. specialize (W _ H1). simpl in W.
  destruct W as (Hd & Hfs). rewrite Forall_forall in Hfs.
  eapply startswith_trans; [|exact Hd].
  apply path_join_under. apply Hfs. exact H2.
Qed.

Lemma make_file_list_under_inputdir_witness :
  make_file_list
    (Directory "casts" false
       (Some [File "b.cnv"; Directory "2019" false (Some [File "a.cnv"; File "a.cnv.bak"]);
              Directory "old" true None; File "readme.txt"]))
    "../casts" default_pattern
  = Return ["../casts/2019/a.cnv"; "../casts/2019/a.cnv.bak"; "../casts/b.cnv"]
  /\ Forall (fun path => startswith path "../casts" = true)
       ["../casts/2019/a.cnv"; "../casts/2019/a.cnv.bak"; "../casts/b.cnv"].
Proof.
  assert (make_file_list
            (Directory "casts" false
               (Some [File "b.cnv"; Directory "2019" false (Some [File "a.cnv"; File "a.cnv.bak"]);
                      Directory "old" true None; File "readme.txt"]))
            "../casts" default_pattern
          = Return ["../casts/2019/a.cnv"; "../casts/2019/a.cnv.bak"; "../casts/b.cnv"])
    as H by (vm_compute; reflexivity).
  split; [exact H|]. apply Forall_forall.
  apply (fun Hp => make_file_list_under_inputdir _ _ _ _ Hp H).
  reflexivity.
Defined.

(** ** seabird_dir *)

Lemma replace_same c s : replace c (String c EmptyString) s = s.
Proof.
  induction s as [|a s IH]; simpl; [reflexivity|].
  destruct (Ascii.eqb a c) eqn:E; simpl; rewrite IH; [|reflexivity].
  apply Ascii.eqb_eq in E. subst. reflexivity.
Qed.

Lemma seabird_dir_expanduser env subdir :
  seabird_dir env subdir
  = expanduser env (getenv env "SEABIRD_DIR" "~/.config/seabird").
Proof. unfold seabird_dir. apply replace_same. Qed.

(** X12: seabird_dir ignores its argument. Without SEABIRD_DIR it gives
    the home directory, from HOME or else from the password database,
    without its trailing slashes, followed by /.config/seabird, and the
    unexpanded default when no home directory is known. A SEABIRD_DIR
    that does not begin with a tilde is returned as it is. *)
Theorem seabird_dir_value (env : Environment) (subdir : option string) :
  (environ env "SEABIRD_DIR" = None ->
   seabird_dir env subdir
   = match environ env "HOME", getpwuid_dir env with
     | Some home, _ | None, Some home =>
         (rstrip_slash home ++ "/.config/seabird")%string
     | None, None => "~/.config/seabird"
     end)
  /\ (forall spath,
        environ env "SEABIRD_DIR" = Some spath ->
        startswith spath "~" = false ->
        seabird_dir env subdir = spath).
Proof.
  split.
  - intros He. rewrite seabird_dir_expanduser. unfold getenv. rewrite He.
    unfold expanduser.
    change (startswith "~/.config/seabird" "~") with true.
    change (index 1 "/" "~/.config/seabird") with (Some 1).
    cbn [negb Nat.eqb].
    change (substring 1 (String.length "~/.config/seabird" - 1) "~/.config/seabird")
      with "/.config/seabird".
    destruct (environ env "HOME") as [home|]; [|destruct (getpwuid_dir env) as [home|]];
      try reflexivity;
      destruct (rstrip_slash home); reflexivity.
  - intros spath He Hs. rewrite seabird_dir_expanduser. unfold getenv. rewrite He.
    unfold expanduser. rewrite Hs. reflexivity.
Qed.

Lemma seabird_dir_value_witness :
  seabird_dir
    (mkEnvironment (fun k => if String.eqb k "HOME" then Some "/home/ana/" else None)
                   None (fun _ => None))
    (Some "sampledata")
  = "/home/ana/.config/seabird"
  /\ seabird_dir
       (mkEnvironment
          (fun k => if String.eqb k "SEABIRD_DIR" then Some "/data/seabird" else None)
          None (fun _ => None))
       None
     = "/data/seabird".
Proof.
  split.
  - apply (proj1 (seabird_dir_value
             (mkEnvironment (fun k => if String.eqb k "HOME" then Some "/home/ana/" else None)
                None (fun _ => None)) (Some "sampledata"))).
    reflexivity.
  - apply (proj2 (seabird_dir_value
             (mkEnvironment
                (fun k => if String.eqb k "SEABIRD_DIR" then Some "/data/seabird" else None)
                None (fun _ => None)) None)); reflexivity.
Defined.

(** ** sampledata *)

Lemma sampledata_available w filename dtype :
  output_dir_available w ->
  sampledata w filename dtype
  = (preparation w ++ fst (fetch w (sample_dir w) filename dtype),
     snd (fetch w (sample_dir w) filename dtype)).
Proof.
  unfold output_dir_available, sampledata, preparation.
  fold (sample_dir w). intros H.
  destruct (fetch w (sample_dir w) filename dtype) as [ev r]. simpl.
  destruct (path_exists w (sample_dir w)).
  - rewrite app_nil_r. reflexivity.
  - destruct H as [H|H]; [discriminate|]. rewrite H.
    rewrite <- app_assoc. reflexivity.
Qed.

Lemma db_get_None db f : db_get db f = None <-> ~ In f (map fst db).
Proof.
  induction db as [|[f' v] db IH]; simpl; [tauto|].
  destruct (String.eqb f' f) eqn:E.
  - apply String.eqb_eq in E. subst. split; [discriminate | tauto].
  - apply String.eqb_neq in E. rewrite IH. tauto.
Qed.

Lemma filter_dtype (t : string) (db : list (string * (string * string))) :
  Forall (fun x => fst (snd x) = "CTD") db ->
  filter (fun '(_, (dt, _)) => String.eqb dt t) db
  = if String.eqb t "CTD" then db else [].
Proof.
  induction 1 as [|[f [dt md5]] db Hx _ IH]; cbn [filter].
  - destruct (String.eqb t "CTD"); reflexivity.
  - cbn [fst snd] in Hx. subst dt. rewrite IH, (String.eqb_sym "CTD" t).
    destruct (String.eqb t "CTD"); reflexivity.
Qed.

(** Every file of the table is of the dtype CTD: the table is left as it
    is by that dtype and emptied by any other. *)
Lemma of_dtype_filesdb dtype :
  of_dtype dtype filesdb
  = match dtype with
    | None => filesdb
    | Some t => if String.eqb t "CTD" then filesdb else []
    end.
Proof.
  destruct dtype as [t|]; [|reflexivity]. unfold of_dtype.
  apply filter_dtype. unfold filesdb. repeat constructor.
Qed.

Lemma db_get_unknown filename dtype :
  ~ In filename (map fst filesdb) \/ (exists t, dtype = Some t /\ t <> "CTD") ->
  db_get (of_dtype dtype filesdb) filename = None.
Proof.
  intros H. rewrite of_dtype_filesdb. destruct H as [H|(t & -> & Ht)].
  - destruct dtype as [t|]; [destruct (String.eqb t "CTD")|];
      try reflexivity; apply db_get_None; exact H.
  - apply String.eqb_neq in Ht. rewrite Ht. reflexivity.
Qed.

(** X13: asked for a file that is not in the table, or for any file with a
    dtype other than CTD, sampledata logs that the file is not a valid
    test file and returns None: it raises nothing and downloads
    nothing. *)
Theorem sampledata_refuses_unknown_file (w : World) (filename : string)
    (dtype : option string) :
  output_dir_available w ->
  ~ In filename (map fst filesdb) \/ (exists t, dtype = Some t /\ t <> "CTD") ->
  sampledata w (Some filename) dtype
  = (preparation w ++ [logged_error (filename ++ " is not a valid test file")],
     Returns RNone).
Proof.
  intros Ha H. rewrite (sampledata_available _ _ _ Ha). unfold fetch.
  rewrite (db_get_unknown _ _ H). reflexivity.
Qed.

Lemma sampledata_refuses_unknown_file_witness :
  sampledata
    (mkWorld (mkEnvironment (fun _ => None) (Some "/home/ana") (fun _ => None))
             true (fun _ => false) (fun _ => None) (fun _ _ _ _ => None))
    (Some "TSG_PIR_001.cnv") (Some "TSG")
  = ([makedirs "/home/ana/.config/seabird/sampledata";
      logged_error "TSG_PIR_001.cnv is not a valid test file"],
     Returns RNone).
Proof.
  apply (sampledata_refuses_unknown_file
           (mkWorld (mkEnvironment (fun _ => None) (Some "/home/ana") (fun _ => None))
                    true (fun _ => false) (fun _ => None) (fun _ _ _ _ => None))
           "TSG_PIR_001.cnv" (Some "TSG")).
  - right. reflexivity.
  - right. exists "TSG". split; [reflexivity | discriminate].
Defined.

Lemma download_each_succeeds w outputdir db datafile :
  supportdata w = true ->
  (forall o u f m, download_raises w o u f m = None) ->
  download_each w outputdir db datafile
  = (flat_map (events_of outputdir) db,
     Returns (RList (datafile ++ map (fun x => path_join outputdir (fst x)) db))).
Proof.
  intros Hs Hd. revert datafile.
  induction db as [|[f [dt md5]] db IH]; intros datafile; simpl.
  - rewrite app_nil_r. reflexivity.
  - unfold download. rewrite Hs, Hd. simpl. rewrite IH.
    rewrite <- app_assoc. reflexivity.
Qed.

(** X14: without a file name, and every download succeeding, sampledata
    prints and downloads each file of the table once, in the order of
    the table, and returns their paths in the output directory in that
    order; with a dtype other than CTD the table is empty, nothing is
    downloaded and the list is empty. *)
Theorem sampledata_downloads_the_table (w : World) (dtype : option string) :
  output_dir_available w ->
  supportdata w = true ->
  (forall o u f m, download_raises w o u f m = None) ->
  let db := match dtype with
            | None => filesdb
            | Some t => if String.eqb t "CTD" then filesdb else []
            end in
  sampledata w None dtype
  = (preparation w ++ flat_map (events_of (sample_dir w)) db,
     Returns (RList (map (fun x => path_join (sample_dir w) (fst x)) db))).
Proof.
  intros Ha Hs Hd db. rewrite (sampledata_available _ _ _ Ha). unfold fetch.
  rewrite of_dtype_filesdb. fold db.
  rewrite (download_each_succeeds _ _ _ _ Hs Hd). reflexivity.
Qed.

Lemma sampledata_downloads_the_table_witness :
  snd (sampledata
         (mkWorld (mkEnvironment (fun _ => None) (Some "/home/ana") (fun _ => None))
                  true (fun _ => true) (fun _ => None) (fun _ _ _ _ => None))
         None (Some "CTD"))
  = Returns (RList (map (fun f => ("/home/ana/.config/seabird/sampledata/" ++ f)%string)
                        ["PIRA001.cnv"; "dPIRX003.cnv"; "dPIRX010.cnv"; "Hotin.cnv";
                         "missing_whitespace.cnv"; "SK287_CTD05.cnv"; "sta0860.cnv"])).
Proof.
  rewrite (sampledata_downloads_the_table
             (mkWorld (mkEnvironment (fun _ => None) (Some "/home/ana") (fun _ => None))
                      true (fun _ => true) (fun _ => None) (fun _ _ _ _ => None))
             (Some "CTD")).
  - vm_compute. reflexivity.
  - left. reflexivity.
  - reflexivity.
  - reflexivity.
Defined.

(** X15: when the package supportdata is missing, sampledata only logs
    it and goes on: any request that comes to a download then raises
    UnboundLocalError for download_file, after the name of the first
    file has been printed when no file name is given; a request for an
    unknown file still returns None. *)
Theorem sampledata_without_supportdata (w : World) (dtype : option string) :
  output_dir_available w ->
  supportdata w = false ->
  dtype = None \/ dtype = Some "CTD" ->
  In (logged_error missing_package) (preparation w)
  /\ sampledata w None dtype
     = (preparation w ++ [print "PIRA001.cnv"],
        Raises (UnboundLocalError "download_file"))
  /\ (forall filename,
        In filename (map fst filesdb) ->
        sampledata w (Some filename) dtype
        = (preparation w, Raises (UnboundLocalError "download_file")))
  /\ (forall filename,
        ~ In filename (map fst filesdb) ->
        snd (sampledata w (Some filename) dtype) = Returns RNone).
Proof.
  intros Ha Hs Hdt.
  assert (of_dtype dtype filesdb = filesdb) as Hdb.
  { rewrite of_dtype_filesdb. destruct Hdt as [->| ->]; reflexivity. }
  split; [|split; [|split]].
  - unfold preparation. rewrite Hs. left. reflexivity.
  - rewrite (sampledata_available _ _ _ Ha). unfold fetch. rewrite Hdb.
    unfold filesdb. simpl. unfold download. rewrite Hs. reflexivity.
  - intros filename Hin. rewrite (sampledata_available _ _ _ Ha).
    unfold fetch. rewrite Hdb.
    destruct (db_get filesdb filename) as [[dt md5]|] eqn:E.
    + unfold download. rewrite Hs. simpl. rewrite app_nil_r. reflexivity.
    + apply db_get_None in E. contradiction.
  - intros filename Hin. rewrite (sampledata_available _ _ _ Ha).
    unfold fetch. rewrite (db_get_unknown _ _ (or_introl Hin)). reflexivity.
Qed.

Lemma sampledata_without_supportdata_witness :
  sampledata
    (mkWorld (mkEnvironment (fun _ => None) (Some "/home/ana") (fun _ => None))
             false (fun _ => true) (fun _ => None) (fun _ _ _ _ => None))
    (Some "Hotin.cnv") None
  = ([logged_error missing_package], Raises (UnboundLocalError "download_file")).
Proof.
  apply (sampledata_without_supportdata
           (mkWorld (mkEnvironment (fun _ => None) (Some "/home/ana") (fun _ => None))
                    false (fun _ => true) (fun _ => None) (fun _ _ _ _ => None))
           None).
  - left. reflexivity.
  - reflexivity.
  - left. reflexivity.
  - simpl. auto 10.
Defined.

Lemma download_each_fails w outputdir pre f dt md5 post datafile e :
  supportdata w = true ->
  (forall x, In x pre ->
     download_raises w outputdir
       (path_join (path_join src (fst (snd x))) (fst x)) (fst x) (snd (snd x))
     = None) ->
  download_raises w outputdir (path_join (path_join src dt) f) f md5 = Some e ->
  download_each w outputdir (pre ++ (f, (dt, md5)) :: post) datafile
  = (flat_map (events_of outputdir) pre ++ events_of outputdir (f, (dt, md5)),
     Raises (Raised e)).
Proof.
  intros Hs Hpre Hf. revert datafile.
  induction pre as [|[f' [dt' md5']] pre IH]; intros datafile; simpl.
  - unfold download. rewrite Hs, Hf. reflexivity.
  - unfold download at 1. rewrite Hs.
    pose proof (Hpre (f', (dt', md5')) (or_introl eq_refl)) as H0.
    cbn [fst snd] in H0. rewrite H0. simpl.
    rewrite IH by (intros x Hx; apply Hpre; right; exact Hx).
    reflexivity.
Qed.

(** X16: without a file name, the first download that fails ends
    sampledata with the exception of that download: the files after it
    are neither printed nor downloaded, and no path is returned. *)
Theorem sampledata_stops_at_failed_download (w : World) (dtype : option string)
    (pre post : list (string * (string * string))) (f dt md5 : string) (e : exn) :
  output_dir_available w ->
  supportdata w = true ->
  of_dtype dtype filesdb = pre ++ (f, (dt, md5)) :: post ->
  (forall x, In x pre ->
     download_raises w (sample_dir w)
       (path_join (path_join src (fst (snd x))) (fst x)) (fst x) (snd (snd x))
     = None) ->
  download_raises w (sample_dir w) (path_join (path_join src dt) f) f md5 = Some e ->
  sampledata w None dtype
  = (preparation w ++ flat_map (events_of (sample_dir w)) pre
       ++ events_of (sample_dir w) (f, (dt, md5)),
     Raises (Raised e)).
Proof.
  intros Ha Hs Hdb Hpre Hf. rewrite (sampledata_available _ _ _ Ha).
  unfold fetch. rewrite Hdb.
  rewrite (download_each_fails _ _ _ _ _ _ _ _ _ Hs Hpre Hf). reflexivity.
Qed.

Lemma sampledata_stops_at_failed_download_witness :
  sampledata
    (mkWorld (mkEnvironment (fun _ => None) (Some "/home/ana") (fun _ => None))
             true (fun _ => true) (fun _ => None)
             (fun _ _ f _ => if String.eqb f "dPIRX003.cnv"
                             then Some FileNotFoundError else None))
    None None
  = ([print "PIRA001.cnv";
      download_file "/home/ana/.config/seabird/sampledata"
        "https://raw.githubusercontent.com/castelao/seabird/dev/sampledata/CTD/PIRA001.cnv"
        "PIRA001.cnv" "5ded777144300b63c8775b1d7f033f92";
      print "dPIRX003.cnv";
      download_file "/home/ana/.config/seabird/sampledata"
        "https://raw.githubusercontent.com/castelao/seabird/dev/sampledata/CTD/dPIRX003.cnv"
        "dPIRX003.cnv" "4b941b902a3aea7d99e1cf4c78c51877"],
     Raises (Raised FileNotFoundError)).
Proof.
  apply (sampledata_stops_at_failed_download
           (mkWorld (mkEnvironment (fun _ => None) (Some "/home/ana") (fun _ => None))
              true (fun _ => true) (fun _ => None)
              (fun _ _ f _ => if String.eqb f "dPIRX003.cnv"
                              then Some FileNotFoundError else None))
           None
           [("PIRA001.cnv", ("CTD", "5ded777144300b63c8775b1d7f033f92"))]
           (skipn 2 filesdb)
           "dPIRX003.cnv" "CTD" "4b941b902a3aea7d99e1cf4c78c51877" FileNotFoundError).
  - left. reflexivity.
  - reflexivity.
  - reflexivity.
  - intros x [<-|[]]. reflexivity.
  - reflexivity.
Defined.

(** X17: the path that sampledata returns for one file is the output
    directory joined with the file name, and it is one of the paths that
    sampledata returns without a file name for the same dtype. *)
Theorem sampledata_one_file_is_listed (w : World) (filename : string)
    (dtype : option string) (events : list event) (path : string) :
  (forall o u f m, download_raises w o u f m = None) ->
  sampledata w (Some filename) dtype = (events, Returns (RPath path)) ->
  path = path_join (sample_dir w) filename
  /\ exists events' datafile,
       sampledata w None dtype = (events', Returns (RList datafile))
       /\ In path datafile.
Proof.
  intros Hd H.
  assert (output_dir_available w) as Ha.
  { unfold output_dir_available. unfold sampledata in H. fold (sample_dir w) in H.
    destruct (path_exists w (sample_dir w)); [left; reflexivity|].
    destruct (makedirs_raises w (sample_dir w)); [|right; reflexivity].
    discriminate. }
  rewrite (sampledata_available _ _ _ Ha) in H. unfold fetch in H.
  destruct (db_get (of_dtype dtype filesdb) filename) as [[dt md5]|] eqn:E;
    [|discriminate].
  unfold download in H.
  destruct (supportdata w) eqn:Hs; [|discriminate].
  rewrite Hd in H. simpl in H. injection H as _ <-.
  split; [reflexivity|].
  rewrite (sampledata_available _ _ _ Ha). unfold fetch.
  rewrite (download_each_succeeds _ _ _ _ Hs Hd). simpl.
  eexists _, _. split; [reflexivity|].
  apply in_map_iff.
  assert (In filename (map fst (of_dtype dtype filesdb))) as Hin.
  { destruct (in_dec string_dec filename (map fst (of_dtype dtype filesdb)))
      as [Hin|Hin]; [exact Hin|].
    apply db_get_None in Hin. congruence. }
  apply in_map_iff in Hin. destruct Hin as (x & <- & Hx).
  exists x. split; [reflexivity | exact Hx].
Qed.

Lemma sampledata_one_file_is_listed_witness :
  exists events' datafile,
    sampledata
      (mkWorld (mkEnvironment (fun _ => None) (Some "/home/ana") (fun _ => None))
               true (fun _ => true) (fun _ => None) (fun _ _ _ _ => None))
      None None
    = (events', Returns (RList datafile))
    /\ In "/home/ana/.config/seabird/sampledata/Hotin.cnv" datafile.
Proof.
  apply (sampledata_one_file_is_listed
           (mkWorld (mkEnvironment (fun _ => None) (Some "/home/ana") (fun _ => None))
                    true (fun _ => true) (fun _ => None) (fun _ _ _ _ => None))
           "Hotin.cnv" None
           [download_file "/home/ana/.config/seabird/sampledata"
              "https://raw.githubusercontent.com/castelao/seabird/dev/sampledata/CTD/Hotin.cnv"
              "Hotin.cnv" "814dc769c0775327bbe5b0f489dfb571"]
           "/home/ana/.config/seabird/sampledata/Hotin.cnv").
  - reflexivity.
  - reflexivity.
Defined.

(** ** basic_logger *)

Lemma basic_logger_times_spec n : forall d,
  getLogger (basic_logger_times n d) "CNV logger"
  = (if Nat.eqb n 0 then getLogger d "CNV logger"
     else mkLogger DEBUG
            (handlers (getLogger d "CNV logger")
             ++ repeat (mkHandler DEBUG (Some log_format)) n))
  /\ forall name, name <> "CNV logger" -> basic_logger_times n d name = d name.
Proof.
  induction n as [|n IH]; intros d; simpl.
  - split; [reflexivity | auto].
  - destruct (IH (set_logger d "CNV logger"
                    (mkLogger DEBUG (handlers (getLogger d "CNV logger")
                                     ++ [mkHandler DEBUG (Some log_format)]))))
      as (Hl & Hother).
    split.
    + rewrite Hl. unfold getLogger at 1 3, set_logger. simpl.
      destruct (Nat.eqb n 0) eqn:E.
      * apply Nat.eqb_eq in E. subst. reflexivity.
      * rewrite <- app_assoc. reflexivity.
    + intros name Hn. rewrite Hother by exact Hn. unfold set_logger.
      apply String.eqb_neq in Hn. rewrite Hn. reflexivity.
Qed.

(** X18: each call of basic_logger without argument adds one more stream
    handler to the logger named CNV logger: after n calls it has n
    handlers more than before, all at the level DEBUG, its own level is
    DEBUG, and no other logger has changed. *)
Theorem basic_logger_adds_a_handler_each_time (n : nat) (d : loggerDict) :
  0 < n ->
  logger_level (getLogger (basic_logger_times n d) "CNV logger") = DEBUG
  /\ handlers (getLogger (basic_logger_times n d) "CNV logger")
     = handlers (getLogger d "CNV logger")
       ++ repeat (mkHandler DEBUG (Some log_format)) n
  /\ forall name, name <> "CNV logger" -> basic_logger_times n d name = d name.
Proof.
  intros Hn. destruct (basic_logger_times_spec n d) as (Hl & Ho).
  destruct n as [|n]; [lia|]. simpl Nat.eqb in Hl. rewrite Hl.
  repeat split; auto.
Qed.

Lemma basic_logger_adds_a_handler_each_time_witness :
  length (handlers (getLogger (basic_logger_times 3 (fun _ => None)) "CNV logger"))
  = 3.
Proof.
  rewrite (proj1 (proj2 (basic_logger_adds_a_handler_each_time 3 (fun _ => None)
                           (Nat.lt_0_succ 2)))).
  reflexivity.
Defined.
